(** * pvr_sync: the Android native-sync driver of the RGX services layer

    A shallow embedding of [pvr_sync.c] (drivers/staging/imgtec) and the
    properties of its sync-prim pool, timelines, alloc handles and fence
    queries.

    Conventions of the embedding.
    - A [u32] is a [Z] in [0, 2^32); every C operation that can leave the
      range is followed by [u32].  A [(s32)] cast is [s32]; the kernel is
      built with wrapping signed arithmetic, so [s32] is also applied to
      the result of an [int] subtraction.
    - A pointer is an [N]; [NULL] is [0].  Every [struct] type has its own
      heap, a finite map from addresses to records; reading through a
      pointer that is not in the heap is a kernel fault ([Oops]).
    - [kmalloc] hands out addresses from a bump counter [brk], so an
      address is never handed out twice.
    - What the rest of the kernel answers (does [kmalloc] succeed, which
      error does [SyncPrimAlloc] return, which fd is free, ...) is read
      from a script of replies carried in the state, one integer per call.
    - Reference counts of [struct file] are not modelled: [fget]/[fput]
      leave the state alone. *)

From stdpp Require Import gmap strings list fin_maps.
From Stdlib Require Import ZArith Lia.

Local Open Scope Z_scope.

(** ** Machine integers *)

(** [(u32) z] *)
Definition u32 (z : Z) : Z := z mod 2 ^ 32.

(** [(s32) z]: the two's complement reading of the low 32 bits. *)
Definition s32 (z : Z) : Z :=
  let r := z mod 2 ^ 32 in if r <? 2 ^ 31 then r else r - 2 ^ 32.

(** [(u8) z] *)
Definition u8 (z : Z) : Z := z mod 2 ^ 8.

Definition is_u32 (z : Z) : Prop := 0 <= z < 2 ^ 32.

Definition NULL : N := 0%N.

(** [strncpy(dst, src, 32)] into a [char[32]]: at most 32 characters of
    the source arrive. *)
Definition strncpy32 (src : string) : string := String.substring 0 32 src.

(** A [char[32]] after [s[sizeof(s) - 1] = 0]: at most 31 characters are
    left of the string. *)
Definition terminated32 (src : string) : string := String.substring 0 31 src.

(** ** Constants and enumerations *)

Definition SYNC_MAX_POOL_SIZE : Z := 10.

Definition SYNC_TL_TYPE : Z := 0.
Definition SYNC_PT_FENCE_TYPE : Z := 1.
Definition SYNC_PT_CLEANUP_TYPE : Z := 2.
Definition SYNC_PT_FOREIGN_FENCE_TYPE : Z := 3.
Definition SYNC_PT_FOREIGN_CLEANUP_TYPE : Z := 4.

(** The services error codes this file names; any other code that a
    services call returns is carried as [PVRSRV_ERROR_CODE]. *)
Inductive PVRSRV_ERROR :=
  | PVRSRV_OK
  | PVRSRV_ERROR_OUT_OF_MEMORY
  | PVRSRV_ERROR_HANDLE_NOT_FOUND
  | PVRSRV_ERROR_RESOURCE_UNAVAILABLE
  | PVRSRV_ERROR_INVALID_PARAMS
  | PVRSRV_ERROR_CODE (code : Z).

#[global] Instance PVRSRV_ERROR_eq_dec : EqDecision PVRSRV_ERROR.
Proof. solve_decision. Defined.

Definition EFAULT : Z := 14.
Definition ENOMEM : Z := 12.

Inductive log_level := KERN_ERR | KERN_WARNING.

(** ** The structures *)

(** [struct pvr_sync_native_sync_prim].  [client_sync] stands for the
    cell [*client_sync->pui32LinAddr], the current value of the prim that
    the hardware writes. *)
Record pvr_sync_native_sync_prim := {
  client_sync : Z;
  next_value : Z;
  id : Z;
  vaddr : Z;
  type : Z;
  class : string
}.

(** [struct pvr_sync_timeline]; [obj_name] is [obj.name]. *)
Record pvr_sync_timeline := {
  obj_name : string;
  timeline_sync : N;
  fencing_enabled : bool
}.

(** [struct pvr_sync_kernel_pair] *)
Record pvr_sync_kernel_pair := {
  fence_sync : N;
  cleanup_sync : N
}.

(** [struct pvr_sync_data] *)
Record pvr_sync_data := {
  kernel : N;
  timeline_fence_value : Z;
  timeline_update_value : Z;
  refcount : Z
}.

(** [struct pvr_sync_alloc_data] *)
Record pvr_sync_alloc_data := {
  sync_data : N;
  timeline : N
}.

(** A [struct sync_pt] of the Android sync framework.  A point whose
    [parent->ops] is [&pvr_sync_timeline_ops] is a [struct pvr_sync_pt]
    and carries [sync_data]; any other point is foreign. *)
Inductive sync_pt :=
  | pvr_sync_pt (parent : N) (status : Z) (pt_sync_data : N)
  | foreign_sync_pt (status : Z).

(** [struct sync_fence] *)
Record sync_fence := {
  name : string;
  pt_list_head : list sync_pt
}.

(** What an fd refers to: an alloc-sync file ([f_op] is
    [&pvr_alloc_sync_fops], [private_data] the alloc data), a fence of the
    sync framework, or anything else. *)
Inductive file :=
  | alloc_sync_file (private_data : N)
  | sync_fence_file (fence : sync_fence)
  | other_file.

(** ** The state of the driver

    The heaps, the fd table, the statics of [pvr_sync.c] under their own
    names, the registered foreign waiters and the environment. *)
Record driver := {
  prims : gmap N pvr_sync_native_sync_prim;
  kernels : gmap N pvr_sync_kernel_pair;
  sync_datas : gmap N pvr_sync_data;
  alloc_datas : gmap N pvr_sync_alloc_data;
  timelines : gmap N pvr_sync_timeline;
  files : gmap Z file;
  sync_id : Z;
  timeline_list : list N;
  sync_pool_free_list : list N;
  sync_pool_active_list : list N;
  sync_pool_size : Z;
  sync_pool_created : Z;
  sync_pool_reused : Z;
  sync_prim_free_list : list N;
  waiters : list (N * Z);
  brk : N;
  replies : list Z;
  dmesg : list (log_level * string)
}.

Definition set_prims (v : gmap N pvr_sync_native_sync_prim) (d : driver) : driver :=
  {| prims := v; kernels := kernels d; sync_datas := sync_datas d;
     alloc_datas := alloc_datas d; timelines := timelines d;
     files := files d; sync_id := sync_id d;
     timeline_list := timeline_list d;
     sync_pool_free_list := sync_pool_free_list d;
     sync_pool_active_list := sync_pool_active_list d;
     sync_pool_size := sync_pool_size d;
     sync_pool_created := sync_pool_created d;
     sync_pool_reused := sync_pool_reused d;
     sync_prim_free_list := sync_prim_free_list d; waiters := waiters d;
     brk := brk d; replies := replies d; dmesg := dmesg d |}.

Definition set_kernels (v : gmap N pvr_sync_kernel_pair) (d : driver) : driver :=
  {| prims := prims d; kernels := v; sync_datas := sync_datas d;
     alloc_datas := alloc_datas d; timelines := timelines d;
     files := files d; sync_id := sync_id d;
     timeline_list := timeline_list d;
     sync_pool_free_list := sync_pool_free_list d;
     sync_pool_active_list := sync_pool_active_list d;
     sync_pool_size := sync_pool_size d;
     sync_pool_created := sync_pool_created d;
     sync_pool_reused := sync_pool_reused d;
     sync_prim_free_list := sync_prim_free_list d; waiters := waiters d;
     brk := brk d; replies := replies d; dmesg := dmesg d |}.

Definition set_sync_datas (v : gmap N pvr_sync_data) (d : driver) : driver :=
  {| prims := prims d; kernels := kernels d; sync_datas := v;
     alloc_datas := alloc_datas d; timelines := timelines d;
     files := files d; sync_id := sync_id d;
     timeline_list := timeline_list d;
     sync_pool_free_list := sync_pool_free_list d;
     sync_pool_active_list := sync_pool_active_list d;
     sync_pool_size := sync_pool_size d;
     sync_pool_created := sync_pool_created d;
     sync_pool_reused := sync_pool_reused d;
     sync_prim_free_list := sync_prim_free_list d; waiters := waiters d;
     brk := brk d; replies := replies d; dmesg := dmesg d |}.

Definition set_alloc_datas (v : gmap N pvr_sync_alloc_data) (d : driver) : driver :=
  {| prims := prims d; kernels := kernels d; sync_datas := sync_datas d;
     alloc_datas := v; timelines := timelines d; files := files d;
     sync_id := sync_id d; timeline_list := timeline_list d;
     sync_pool_free_list := sync_pool_free_list d;
     sync_pool_active_list := sync_pool_active_list d;
     sync_pool_size := sync_pool_size d;
     sync_pool_created := sync_pool_created d;
     sync_pool_reused := sync_pool_reused d;
     sync_prim_free_list := sync_prim_free_list d; waiters := waiters d;
     brk := brk d; replies := replies d; dmesg := dmesg d |}.

Definition set_timelines (v : gmap N pvr_sync_timeline) (d : driver) : driver :=
  {| prims := prims d; kernels := kernels d; sync_datas := sync_datas d;
     alloc_datas := alloc_datas d; timelines := v; files := files d;
     sync_id := sync_id d; timeline_list := timeline_list d;
     sync_pool_free_list := sync_pool_free_list d;
     sync_pool_active_list := sync_pool_active_list d;
     sync_pool_size := sync_pool_size d;
     sync_pool_created := sync_pool_created d;
     sync_pool_reused := sync_pool_reused d;
     sync_prim_free_list := sync_prim_free_list d; waiters := waiters d;
     brk := brk d; replies := replies d; dmesg := dmesg d |}.

Definition set_files (v : gmap Z file) (d : driver) : driver :=
  {| prims := prims d; kernels := kernels d; sync_datas := sync_datas d;
     alloc_datas := alloc_datas d; timelines := timelines d; files := v;
     sync_id := sync_id d; timeline_list := timeline_list d;
     sync_pool_free_list := sync_pool_free_list d;
     sync_pool_active_list := sync_pool_active_list d;
     sync_pool_size := sync_pool_size d;
     sync_pool_created := sync_pool_created d;
     sync_pool_reused := sync_pool_reused d;
     sync_prim_free_list := sync_prim_free_list d; waiters := waiters d;
     brk := brk d; replies := replies d; dmesg := dmesg d |}.

Definition set_sync_id (v : Z) (d : driver) : driver :=
  {| prims := prims d; kernels := kernels d; sync_datas := sync_datas d;
     alloc_datas := alloc_datas d; timelines := timelines d;
     files := files d; sync_id := v; timeline_list := timeline_list d;
     sync_pool_free_list := sync_pool_free_list d;
     sync_pool_active_list := sync_pool_active_list d;
     sync_pool_size := sync_pool_size d;
     sync_pool_created := sync_pool_created d;
     sync_pool_reused := sync_pool_reused d;
     sync_prim_free_list := sync_prim_free_list d; waiters := waiters d;
     brk := brk d; replies := replies d; dmesg := dmesg d |}.

Definition set_timeline_list (v : list N) (d : driver) : driver :=
  {| prims := prims d; kernels := kernels d; sync_datas := sync_datas d;
     alloc_datas := alloc_datas d; timelines := timelines d;
     files := files d; sync_id := sync_id d; timeline_list := v;
     sync_pool_free_list := sync_pool_free_list d;
     sync_pool_active_list := sync_pool_active_list d;
     sync_pool_size := sync_pool_size d;
     sync_pool_created := sync_pool_created d;
     sync_pool_reused := sync_pool_reused d;
     sync_prim_free_list := sync_prim_free_list d; waiters := waiters d;
     brk := brk d; replies := replies d; dmesg := dmesg d |}.

Definition set_sync_pool_free_list (v : list N) (d : driver) : driver :=
  {| prims := prims d; kernels := kernels d; sync_datas := sync_datas d;
     alloc_datas := alloc_datas d; timelines := timelines d;
     files := files d; sync_id := sync_id d;
     timeline_list := timeline_list d; sync_pool_free_list := v;
     sync_pool_active_list := sync_pool_active_list d;
     sync_pool_size := sync_pool_size d;
     sync_pool_created := sync_pool_created d;
     sync_pool_reused := sync_pool_reused d;
     sync_prim_free_list := sync_prim_free_list d; waiters := waiters d;
     brk := brk d; replies := replies d; dmesg := dmesg d |}.

Definition set_sync_pool_active_list (v : list N) (d : driver) : driver :=
  {| prims := prims d; kernels := kernels d; sync_datas := sync_datas d;
     alloc_datas := alloc_datas d; timelines := timelines d;
     files := files d; sync_id := sync_id d;
     timeline_list := timeline_list d;
     sync_pool_free_list := sync_pool_free_list d;
     sync_pool_active_list := v; sync_pool_size := sync_pool_size d;
     sync_pool_created := sync_pool_created d;
     sync_pool_reused := sync_pool_reused d;
     sync_prim_free_list := sync_prim_free_list d; waiters := waiters d;
     brk := brk d; replies := replies d; dmesg := dmesg d |}.

Definition set_sync_pool_size (v : Z) (d : driver) : driver :=
  {| prims := prims d; kernels := kernels d; sync_datas := sync_datas d;
     alloc_datas := alloc_datas d; timelines := timelines d;
     files := files d; sync_id := sync_id d;
     timeline_list := timeline_list d;
     sync_pool_free_list := sync_pool_free_list d;
     sync_pool_active_list := sync_pool_active_list d; sync_pool_size := v;
     sync_pool_created := sync_pool_created d;
     sync_pool_reused := sync_pool_reused d;
     sync_prim_free_list := sync_prim_free_list d; waiters := waiters d;
     brk := brk d; replies := replies d; dmesg := dmesg d |}.

Definition set_sync_pool_created (v : Z) (d : driver) : driver :=
  {| prims := prims d; kernels := kernels d; sync_datas := sync_datas d;
     alloc_datas := alloc_datas d; timelines := timelines d;
     files := files d; sync_id := sync_id d;
     timeline_list := timeline_list d;
     sync_pool_free_list := sync_pool_free_list d;
     sync_pool_active_list := sync_pool_active_list d;
     sync_pool_size := sync_pool_size d; sync_pool_created := v;
     sync_pool_reused := sync_pool_reused d;
     sync_prim_free_list := sync_prim_free_list d; waiters := waiters d;
     brk := brk d; replies := replies d; dmesg := dmesg d |}.

Definition set_sync_pool_reused (v : Z) (d : driver) : driver :=
  {| prims := prims d; kernels := kernels d; sync_datas := sync_datas d;
     alloc_datas := alloc_datas d; timelines := timelines d;
     files := files d; sync_id := sync_id d;
     timeline_list := timeline_list d;
     sync_pool_free_list := sync_pool_free_list d;
     sync_pool_active_list := sync_pool_active_list d;
     sync_pool_size := sync_pool_size d;
     sync_pool_created := sync_pool_created d; sync_pool_reused := v;
     sync_prim_free_list := sync_prim_free_list d; waiters := waiters d;
     brk := brk d; replies := replies d; dmesg := dmesg d |}.

Definition set_sync_prim_free_list (v : list N) (d : driver) : driver :=
  {| prims := prims d; kernels := kernels d; sync_datas := sync_datas d;
     alloc_datas := alloc_datas d; timelines := timelines d;
     files := files d; sync_id := sync_id d;
     timeline_list := timeline_list d;
     sync_pool_free_list := sync_pool_free_list d;
     sync_pool_active_list := sync_pool_active_list d;
     sync_pool_size := sync_pool_size d;
     sync_pool_created := sync_pool_created d;
     sync_pool_reused := sync_pool_reused d; sync_prim_free_list := v;
     waiters := waiters d; brk := brk d; replies := replies d;
     dmesg := dmesg d |}.

Definition set_waiters (v : list (N * Z)) (d : driver) : driver :=
  {| prims := prims d; kernels := kernels d; sync_datas := sync_datas d;
     alloc_datas := alloc_datas d; timelines := timelines d;
     files := files d; sync_id := sync_id d;
     timeline_list := timeline_list d;
     sync_pool_free_list := sync_pool_free_list d;
     sync_pool_active_list := sync_pool_active_list d;
     sync_pool_size := sync_pool_size d;
     sync_pool_created := sync_pool_created d;
     sync_pool_reused := sync_pool_reused d;
     sync_prim_free_list := sync_prim_free_list d; waiters := v;
     brk := brk d; replies := replies d; dmesg := dmesg d |}.

Definition set_brk (v : N) (d : driver) : driver :=
  {| prims := prims d; kernels := kernels d; sync_datas := sync_datas d;
     alloc_datas := alloc_datas d; timelines := timelines d;
     files := files d; sync_id := sync_id d;
     timeline_list := timeline_list d;
     sync_pool_free_list := sync_pool_free_list d;
     sync_pool_active_list := sync_pool_active_list d;
     sync_pool_size := sync_pool_size d;
     sync_pool_created := sync_pool_created d;
     sync_pool_reused := sync_pool_reused d;
     sync_prim_free_list := sync_prim_free_list d; waiters := waiters d;
     brk := v; replies := replies d; dmesg := dmesg d |}.

Definition set_replies (v : list Z) (d : driver) : driver :=
  {| prims := prims d; kernels := kernels d; sync_datas := sync_datas d;
     alloc_datas := alloc_datas d; timelines := timelines d;
     files := files d; sync_id := sync_id d;
     timeline_list := timeline_list d;
     sync_pool_free_list := sync_pool_free_list d;
     sync_pool_active_list := sync_pool_active_list d;
     sync_pool_size := sync_pool_size d;
     sync_pool_created := sync_pool_created d;
     sync_pool_reused := sync_pool_reused d;
     sync_prim_free_list := sync_prim_free_list d; waiters := waiters d;
     brk := brk d; replies := v; dmesg := dmesg d |}.

Definition set_dmesg (v : list (log_level * string)) (d : driver) : driver :=
  {| prims := prims d; kernels := kernels d; sync_datas := sync_datas d;
     alloc_datas := alloc_datas d; timelines := timelines d;
     files := files d; sync_id := sync_id d;
     timeline_list := timeline_list d;
     sync_pool_free_list := sync_pool_free_list d;
     sync_pool_active_list := sync_pool_active_list d;
     sync_pool_size := sync_pool_size d;
     sync_pool_created := sync_pool_created d;
     sync_pool_reused := sync_pool_reused d;
     sync_prim_free_list := sync_prim_free_list d; waiters := waiters d;
     brk := brk d; replies := replies d; dmesg := v |}.


(** ** The monad of kernel code: state passing with faults *)

Inductive result (A : Type) :=
  | Ok (a : A) (d : driver)
  | Oops.
Arguments Ok {A} a d.
Arguments Oops {A}.

Definition M (A : Type) : Type := driver -> result A.

Definition ret {A} (a : A) : M A := fun d => Ok a d.

Definition bind {A B} (m : M A) (k : A -> M B) : M B :=
  fun d => match m d with Ok a d' => k a d' | Oops => Oops end.

Notation "'let*' x := m 'in' k" := (bind m (fun x => k))
  (at level 10, x pattern, m at level 100, k at level 200).
Notation "m ;; k" := (bind m (fun _ => k))
  (at level 100, k at level 200, right associativity).

Definition get {A} (f : driver -> A) : M A := fun d => Ok (f d) d.
Definition modify (f : driver -> driver) : M unit := fun d => Ok tt (f d).
Definition oops {A} : M A := fun _ => Oops.

(** [pr_err] and [pr_warn] *)
Definition printk (l : log_level) (msg : string) : M unit :=
  modify (fun d => set_dmesg (dmesg d ++ [(l, msg)]) d).
Definition pr_err := printk KERN_ERR.
Definition pr_warn := printk KERN_WARNING.

(** The next reply of the environment; past the end of the script every
    reply is [0]. *)
Definition reply : M Z := fun d =>
  match replies d with
  | [] => Ok 0 d
  | r :: rs => Ok r (set_replies rs d)
  end.

(** [kmalloc]/[kzalloc]: fails on a zero reply, else a fresh address. *)
Definition kmalloc : M N :=
  let* r := reply in
  if r =? 0 then ret NULL
  else fun d => let p := N.succ (brk d) in Ok p (set_brk p d).

(** Reading and writing through pointers. *)
Definition load {A} (heap : driver -> gmap N A) (p : N) : M A := fun d =>
  match heap d !! p with Some x => Ok x d | None => Oops end.

Definition load_prim := load prims.
Definition load_kernel := load kernels.
Definition load_sync_data := load sync_datas.
Definition load_alloc_data := load alloc_datas.
Definition load_timeline := load timelines.

Definition store_prim (p : N) (x : pvr_sync_native_sync_prim) : M unit :=
  modify (fun d => set_prims (<[p := x]> (prims d)) d).
Definition store_kernel (p : N) (x : pvr_sync_kernel_pair) : M unit :=
  modify (fun d => set_kernels (<[p := x]> (kernels d)) d).
Definition store_sync_data (p : N) (x : pvr_sync_data) : M unit :=
  modify (fun d => set_sync_datas (<[p := x]> (sync_datas d)) d).
Definition store_alloc_data (p : N) (x : pvr_sync_alloc_data) : M unit :=
  modify (fun d => set_alloc_datas (<[p := x]> (alloc_datas d)) d).
Definition store_timeline (p : N) (x : pvr_sync_timeline) : M unit :=
  modify (fun d => set_timelines (<[p := x]> (timelines d)) d).

(** Field updates of a prim. *)
Definition with_client_sync (v : Z) (s : pvr_sync_native_sync_prim) :=
  {| client_sync := v; next_value := next_value s; id := id s;
     vaddr := vaddr s; type := type s; class := class s |}.
Definition with_next_value (v : Z) (s : pvr_sync_native_sync_prim) :=
  {| client_sync := client_sync s; next_value := v; id := id s;
     vaddr := vaddr s; type := type s; class := class s |}.

(** ** Prim values *)

Definition set_sync_value (sync : N) (value : Z) : M unit :=
  let* s := load_prim sync in
  store_prim sync (with_client_sync value s).

Definition get_sync_value (sync : N) : M Z :=
  let* s := load_prim sync in ret (client_sync s).

Definition complete_sync (sync : N) : M unit :=
  let* s := load_prim sync in
  store_prim sync (with_client_sync (next_value s) s).

Definition is_sync_met (sync : N) : M bool :=
  let* s := load_prim sync in ret (client_sync s =? next_value s).

(** ** Sync pool *)

(** [list_del]: unlink a node from the list it is on. *)
Definition list_del (p : N) (l : list N) : list N := filter (fun q => q ≠ p) l.

(** [atomic_inc_return(&pvr_sync_data.sync_id)]; an [atomic_t] is an [int]. *)
Definition atomic_inc_return_sync_id : M Z := fun d =>
  let n := s32 (sync_id d + 1) in Ok n (set_sync_id n d).

(** The branch of [sync_pool_get] taken when the free list is empty:
    [kmalloc], [SyncPrimAlloc], [SyncPrimGetFirmwareAddr], then
    [list_add_tail] on the active list.  The fields that [kmalloc] leaves
    undefined are written by the caller before anything reads them. *)
Definition sync_pool_get_new : M (PVRSRV_ERROR * N) :=
  let* sync := kmalloc in
  if (sync =? NULL)%N then
    pr_err "sync_pool_get: Failed to allocate sync data" ;;
    ret (PVRSRV_ERROR_OUT_OF_MEMORY, NULL)
  else
    let* error := reply in
    if negb (error =? 0) then
      pr_err "sync_pool_get: Failed to allocate sync prim" ;;
      ret (PVRSRV_ERROR_CODE error, NULL)
    else
      let* fw := reply in
      store_prim sync {| client_sync := 0; next_value := 0; id := 0;
                         vaddr := u32 fw; type := 0; class := "" |} ;;
      modify (fun d =>
        set_sync_pool_created (u32 (sync_pool_created d + 1))
          (set_sync_pool_active_list (sync_pool_active_list d ++ [sync]) d)) ;;
      ret (PVRSRV_OK, sync).

(** The branch taken otherwise: [list_first_entry], [list_move_tail]. *)
Definition sync_pool_get_reuse (sync : N) : M (PVRSRV_ERROR * N) :=
  modify (fun d =>
    set_sync_pool_reused (u32 (sync_pool_reused d + 1))
      (set_sync_pool_size (s32 (sync_pool_size d - 1))
        (set_sync_pool_active_list
           (list_del sync (sync_pool_active_list d) ++ [sync])
           (set_sync_pool_free_list
              (list_del sync (sync_pool_free_list d)) d)))) ;;
  ret (PVRSRV_OK, sync).

(** [sync_pool_get(&sync, class_name, type)].  The second component of
    the result is what is stored in [*_sync]; on an error nothing is
    stored there. *)
Definition sync_pool_get (class_name : string) (type_ : Z)
  : M (PVRSRV_ERROR * N) :=
  let* free := get sync_pool_free_list in
  let* r := match free with
            | [] => sync_pool_get_new
            | sync :: _ => sync_pool_get_reuse sync
            end in
  match r with
  | (PVRSRV_OK, sync) =>
      let* n := atomic_inc_return_sync_id in
      let* s := load_prim sync in
      (* set_sync_value(sync, 0); sync->next_value = 0; *)
      store_prim sync {| client_sync := 0; next_value := 0; id := u32 n;
                         vaddr := vaddr s; type := u8 type_;
                         class := strncpy32 class_name |} ;;
      ret (PVRSRV_OK, sync)
  | (error, _) => ret (error, NULL)
  end.

(** [kfree] of a prim. *)
Definition kfree_prim (sync : N) : M unit :=
  modify (fun d => set_prims (delete sync (prims d)) d).

(** [sync_pool_put(sync)] *)
Definition sync_pool_put (sync : N) : M unit :=
  let* size := get sync_pool_size in
  if size <? SYNC_MAX_POOL_SIZE then
    set_sync_value sync 0xffffffff ;;
    modify (fun d =>
      set_sync_pool_size (s32 (sync_pool_size d + 1))
        (set_sync_pool_free_list
           (sync :: list_del sync (sync_pool_free_list d))
           (set_sync_pool_active_list
              (list_del sync (sync_pool_active_list d)) d)))
  else
    set_sync_value sync 0xdeadbeef ;;
    modify (fun d =>
      set_sync_pool_free_list (list_del sync (sync_pool_free_list d))
        (set_sync_pool_active_list
           (list_del sync (sync_pool_active_list d)) d)) ;;
    kfree_prim sync.

(** [sync_pool_clear()]: every entry of the free list is destroyed. *)
Fixpoint sync_pool_clear_list (l : list N) : M unit :=
  match l with
  | [] => ret tt
  | sync :: n =>
      set_sync_value sync 0xdeadbeef ;;
      modify (fun d =>
        set_sync_pool_free_list (list_del sync (sync_pool_free_list d)) d) ;;
      kfree_prim sync ;;
      modify (fun d => set_sync_pool_size (s32 (sync_pool_size d - 1)) d) ;;
      sync_pool_clear_list n
  end.

Definition sync_pool_clear : M unit :=
  let* free := get sync_pool_free_list in sync_pool_clear_list free.

(** ** The operations of [pvr_sync_timeline_ops] *)

(** [pvr_sync_has_signaled].  The framework calls it on points of this
    driver's timelines only; the cast of a foreign point reads memory that
    is not a [pvr_sync_pt]. *)
Definition pvr_sync_has_signaled (pt : sync_pt) : M Z :=
  match pt with
  | pvr_sync_pt _ _ sd =>
      let* data := load_sync_data sd in
      (* Idle syncs are always signaled *)
      if (kernel data =? NULL)%N then ret 1
      else
        let* k := load_kernel (kernel data) in
        let* met := is_sync_met (fence_sync k) in
        ret (if met then 1 else 0)
  | foreign_sync_pt _ => oops
  end.

(** The arithmetic of [pvr_sync_compare] on the two update values:
    [a1 == b1 ? 0 : ((s32)a1 - (s32)b1) < 0 ? -1 : 1], the subtraction
    being that of two [int]s. *)
Definition compare_values (a1 b1 : Z) : Z :=
  if a1 =? b1 then 0
  else if s32 (s32 a1 - s32 b1) <? 0 then -1 else 1.

Definition timeline_update_value_of (pt : sync_pt) : M Z :=
  match pt with
  | pvr_sync_pt _ _ sd =>
      let* data := load_sync_data sd in ret (timeline_update_value data)
  | foreign_sync_pt _ => oops
  end.

Definition pvr_sync_compare (a b : sync_pt) : M Z :=
  let* a1 := timeline_update_value_of a in
  let* b1 := timeline_update_value_of b in
  ret (compare_values a1 b1).

(** ** Sync data *)

Definition kfree_kernel (p : N) : M unit :=
  modify (fun d => set_kernels (delete p (kernels d)) d).
Definition kfree_sync_data (p : N) : M unit :=
  modify (fun d => set_sync_datas (delete p (sync_datas d)) d).
Definition kfree_alloc_data (p : N) : M unit :=
  modify (fun d => set_alloc_datas (delete p (alloc_datas d)) d).
Definition kfree_timeline (p : N) : M unit :=
  modify (fun d => set_timelines (delete p (timelines d)) d).

(** [pvr_sync_create_sync_data(timeline)]; [NULL] on failure. *)
Definition pvr_sync_create_sync_data (timeline : N) : M N :=
  let* sync_data := kmalloc in
  if (sync_data =? NULL)%N then ret NULL
  else
    store_sync_data sync_data
      {| kernel := NULL; timeline_fence_value := 0;
         timeline_update_value := 0; refcount := 1 |} ;;
    let* k := kmalloc in
    if (k =? NULL)%N then kfree_sync_data sync_data ;; ret NULL
    else
      store_sync_data sync_data
        {| kernel := k; timeline_fence_value := 0;
           timeline_update_value := 0; refcount := 1 |} ;;
      store_kernel k {| fence_sync := NULL; cleanup_sync := NULL |} ;;
      let* tl := load_timeline timeline in
      let* r := sync_pool_get (obj_name tl) SYNC_PT_FENCE_TYPE in
      match r with
      | (PVRSRV_OK, sync) =>
          store_kernel k {| fence_sync := sync; cleanup_sync := NULL |} ;;
          ret sync_data
      | _ =>
          pr_err "pvr_sync_create_sync_data: Failed to allocate sync prim" ;;
          kfree_kernel k ;;
          kfree_sync_data sync_data ;;
          ret NULL
      end.

(** [pvr_sync_defer_free(kernel)]: the pair joins the defer-free list;
    the work item it queues runs later. *)
Definition pvr_sync_defer_free (k : N) : M unit :=
  modify (fun d => set_sync_prim_free_list (sync_prim_free_list d ++ [k]) d).

(** [pvr_sync_free_sync_data(sync_data)] *)
Definition pvr_sync_free_sync_data (sync_data : N) : M unit :=
  (if (sync_data =? NULL)%N then ret tt
   else
     let* data := load_sync_data sync_data in
     if (kernel data =? NULL)%N then ret tt
     else pvr_sync_defer_free (kernel data)) ;;
  kfree_sync_data sync_data.

(** [pvr_sync_free_sync(sync_pt)], the [free_pt] operation. *)
Definition pvr_sync_free_sync (pt : sync_pt) : M unit :=
  match pt with
  | pvr_sync_pt _ _ sd =>
      let* data := load_sync_data sd in
      let n := s32 (refcount data - 1) in
      store_sync_data sd
        {| kernel := kernel data;
           timeline_fence_value := timeline_fence_value data;
           timeline_update_value := timeline_update_value data;
           refcount := n |} ;;
      (* Only free on the last reference *)
      if negb (n =? 0) then ret tt
      else
        (if (kernel data =? NULL)%N then ret tt
         else pvr_sync_defer_free (kernel data)) ;;
        kfree_sync_data sd
  | foreign_sync_pt _ => oops
  end.

(** [pvr_sync_dup(sync_pt)]: [sync_pt_create] may fail; otherwise the
    reference count of the shared data grows and the new point shares it. *)
Definition pvr_sync_dup (pt : sync_pt) : M (option sync_pt) :=
  match pt with
  | pvr_sync_pt parent _ sd =>
      let* b := kmalloc in
      if (b =? NULL)%N then
        pr_err "pvr_sync_dup: Failed to dup sync pt" ;; ret None
      else
        let* data := load_sync_data sd in
        store_sync_data sd
          {| kernel := kernel data;
             timeline_fence_value := timeline_fence_value data;
             timeline_update_value := timeline_update_value data;
             refcount := s32 (refcount data + 1) |} ;;
        ret (Some (pvr_sync_pt parent 0 sd))
  | foreign_sync_pt _ => oops
  end.

(** [pvr_sync_create_sync(timeline, sync_data)]: [sync_pt_create]
    allocates the point; [None] is the [NULL] result. *)
Definition pvr_sync_create_sync (timeline sync_data : N)
  : M (option sync_pt) :=
  let* pvr_pt := kmalloc in
  if (pvr_pt =? NULL)%N then
    pr_err "pvr_sync_create_sync: Failed to create sync pt" ;;
    let* data := load_sync_data sync_data in
    (if (kernel data =? NULL)%N then ret tt
     else
       (* Complete the sync taken on the TL sync and delete the new
          fence sync. *)
       let* tl := load_timeline timeline in
       complete_sync (timeline_sync tl) ;;
       let* k := load_kernel (kernel data) in
       sync_pool_put (fence_sync k)) ;;
    kfree_kernel (kernel data) ;;
    kfree_sync_data sync_data ;;
    ret None
  else ret (Some (pvr_sync_pt timeline 0 sync_data)).

(** ** Opening a timeline *)

(** [pvr_sync_open]: the result is the error and [file->private_data].
    [name] is the [char[32]] that [snprintf] filled from the task. *)
Definition pvr_sync_open (name : string) : M (Z * N) :=
  let* timeline := kmalloc in   (* sync_timeline_create *)
  if (timeline =? NULL)%N then
    pr_err "pvr_sync_open: sync_timeline_create failed" ;;
    ret (- ENOMEM, NULL)
  else
    store_timeline timeline
      {| obj_name := name; timeline_sync := NULL; fencing_enabled := false |} ;;
    let* r := sync_pool_get name SYNC_TL_TYPE in
    match r with
    | (PVRSRV_OK, sync) =>
        store_timeline timeline
          {| obj_name := name; timeline_sync := sync;
             fencing_enabled := true |} ;;
        modify (fun d => set_timeline_list (timeline_list d ++ [timeline]) d) ;;
        ret (0, timeline)
    | _ =>
        pr_err "pvr_sync_open: Failed to allocate sync prim" ;;
        (* timeline->timeline_sync = NULL; sync_timeline_destroy() runs
           pvr_sync_release_timeline, which does nothing for a NULL
           timeline sync, and frees the timeline. *)
        kfree_timeline timeline ;;
        ret (- ENOMEM, NULL)
    end.

(** ** Alloc syncs *)

(** [pvr_sync_alloc_release(inode, file)], on [file->private_data]. *)
Definition pvr_sync_alloc_release (alloc_sync_data : N) : M Z :=
  let* ad := load_alloc_data alloc_sync_data in
  (* the sync_data may be null if a sync has been created using this
     alloc_sync data *)
  (if (sync_data ad =? NULL)%N then ret tt
   else
     let* data := load_sync_data (sync_data ad) in
     let* k := load_kernel (kernel data) in
     let* fs := load_prim (fence_sync k) in
     (* If the alloc sync has not been created we need to rollback the
        timeline. *)
     if next_value fs =? 0 then
       let* tl := load_timeline (timeline ad) in
       let* ts := load_prim (timeline_sync tl) in
       store_prim (timeline_sync tl)
         (with_next_value (timeline_fence_value data) ts)
     else ret tt) ;;
  pvr_sync_free_sync_data (sync_data ad) ;;
  kfree_alloc_data alloc_sync_data ;;
  ret 0.

(** [pvr_sync_alloc_fence_fdget(fd)]; [NULL] unless the fd is an alloc
    sync. *)
Definition pvr_sync_alloc_fence_fdget (fd : Z) : M N :=
  let* f := get (fun d => files d !! fd) in
  match f with
  | Some (alloc_sync_file private_data) => ret private_data
  | _ => ret NULL
  end.

(** [sync_fence_fdget(fd)] *)
Definition sync_fence_fdget (fd : Z) : M (option sync_fence) :=
  let* f := get (fun d => files d !! fd) in
  match f with
  | Some (sync_fence_file fence) => ret (Some fence)
  | _ => ret None
  end.

(** [fd_install] and [sync_fence_install] *)
Definition fd_install (fd : Z) (f : file) : M unit :=
  modify (fun d => set_files (<[fd := f]> (files d)) d).

(** [struct pvr_sync_alloc_fence_ioctl_data], as copied to the user. *)
Record pvr_sync_alloc_fence_ioctl_data := {
  iFenceFd : Z;
  bTimelineIdle : bool
}.

Definition with_values (fv uv : Z) (data : pvr_sync_data) : pvr_sync_data :=
  {| kernel := kernel data; timeline_fence_value := fv;
     timeline_update_value := uv; refcount := refcount data |}.

(** The tail of [pvr_sync_ioctl_alloc_fence] from [err_rollback_timeline]
    and from [err_free_data]. *)
Definition alloc_fence_err_free_data (sync_data alloc_sync_data : N) : M unit :=
  pvr_sync_free_sync_data sync_data ;;
  kfree_alloc_data alloc_sync_data.

Definition alloc_fence_err_rollback_timeline
    (timeline sync_data alloc_sync_data : N) : M unit :=
  let* tl := load_timeline timeline in
  let* ts := load_prim (timeline_sync tl) in
  let* data := load_sync_data sync_data in
  store_prim (timeline_sync tl)
    (with_next_value (timeline_fence_value data) ts) ;;
  alloc_fence_err_free_data sync_data alloc_sync_data.

(** [pvr_sync_ioctl_alloc_fence(timeline, user_data)]: the error and,
    when [copy_to_user] succeeded, the data the user receives. *)
Definition pvr_sync_ioctl_alloc_fence (timeline : N)
  : M (Z * option pvr_sync_alloc_fence_ioctl_data) :=
  let* fd := reply in   (* get_unused_fd() *)
  if fd <? 0 then
    pr_err "pvr_sync_ioctl_alloc_fence: Failed to find unused fd" ;;
    ret (- EFAULT, None)
  else
  let* ok := reply in   (* access_ok(VERIFY_READ, ...) *)
  if ok =? 0 then ret (- EFAULT, None) else
  let* ok := reply in   (* access_ok(VERIFY_WRITE, ...) *)
  if ok =? 0 then ret (- EFAULT, None) else
  let* alloc_sync_data := kmalloc in
  if (alloc_sync_data =? NULL)%N then
    pr_err "pvr_sync_ioctl_alloc_fence: Failed to alloc sync data" ;;
    ret (- ENOMEM, None)
  else
  store_alloc_data alloc_sync_data {| sync_data := NULL; timeline := NULL |} ;;
  let* sync_data := pvr_sync_create_sync_data timeline in
  if (sync_data =? NULL)%N then
    pr_err "pvr_sync_ioctl_alloc_fence: Failed to create sync data" ;;
    kfree_alloc_data alloc_sync_data ;;
    ret (- ENOMEM, None)
  else
  let* file := reply in   (* anon_inode_getfile() *)
  if file =? 0 then
    pr_err "pvr_sync_ioctl_alloc_fence: Failed to create alloc inode" ;;
    alloc_fence_err_free_data sync_data alloc_sync_data ;;
    ret (- ENOMEM, None)
  else
  store_alloc_data alloc_sync_data
    {| sync_data := sync_data; timeline := timeline |} ;;
  let* tl := load_timeline timeline in
  let* met := is_sync_met (timeline_sync tl) in
  let idle := met && negb (fencing_enabled tl) in
  (* We have to reserve the op on the timeline at alloc time. *)
  let* ts := load_prim (timeline_sync tl) in
  let* data := load_sync_data sync_data in
  store_sync_data sync_data
    (with_values (next_value ts) (timeline_update_value data) data) ;;
  (if negb idle then
     let* ts := load_prim (timeline_sync tl) in
     store_prim (timeline_sync tl)
       (with_next_value (u32 (next_value ts + 1)) ts)
   else ret tt) ;;
  let* ts := load_prim (timeline_sync tl) in
  let* data := load_sync_data sync_data in
  store_sync_data sync_data
    (with_values (timeline_fence_value data) (next_value ts) data) ;;
  let* ok := reply in   (* access_ok(VERIFY_WRITE, ...) *)
  if ok =? 0 then
    alloc_fence_err_rollback_timeline timeline sync_data alloc_sync_data ;;
    ret (- EFAULT, None)
  else
  let* uncopied := reply in   (* copy_to_user() *)
  if negb (uncopied =? 0) then
    alloc_fence_err_rollback_timeline timeline sync_data alloc_sync_data ;;
    ret (- EFAULT, None)
  else
  fd_install fd (alloc_sync_file alloc_sync_data) ;;
  ret (0, Some {| iFenceFd := fd; bTimelineIdle := idle |}).

(** [pvr_sync_ioctl_enable_fencing(timeline, user_data)];
    [bFencingEnabled] is what [copy_from_user] reads. *)
Definition pvr_sync_ioctl_enable_fencing (timeline : N)
    (bFencingEnabled : bool) : M Z :=
  let* ok := reply in   (* access_ok(VERIFY_READ, ...) *)
  if ok =? 0 then ret (- EFAULT) else
  let* uncopied := reply in   (* copy_from_user() *)
  if negb (uncopied =? 0) then ret (- EFAULT) else
  let* tl := load_timeline timeline in
  store_timeline timeline
    {| obj_name := obj_name tl; timeline_sync := timeline_sync tl;
       fencing_enabled := bFencingEnabled |} ;;
  ret 0.

(** [pvr_sync_ioctl_create_fence(timeline, user_data)].
    [iAllocFenceFd] and [szName] are what [copy_from_user] reads; the
    result is the error and, on success, the fd of the new fence.  The
    last byte of [szName] is set to 0 before [sync_fence_create] reads
    the name.  When a fence that was never installed is put, the
    framework frees its points through [free_pt]. *)
Definition pvr_sync_ioctl_create_fence (timeline' : N) (iAllocFenceFd : Z)
    (szName : string) : M (Z * option Z) :=
  let* fd := reply in   (* get_unused_fd() *)
  if fd <? 0 then
    pr_err "pvr_sync_ioctl_create_fence: Failed to find unused fd" ;;
    ret (- EFAULT, None)
  else
  let* ok := reply in   (* access_ok(VERIFY_READ, ...) *)
  if ok =? 0 then ret (- EFAULT, None) else
  let* uncopied := reply in   (* copy_from_user() *)
  if negb (uncopied =? 0) then ret (- EFAULT, None) else
  let* alloc_sync_data := pvr_sync_alloc_fence_fdget iAllocFenceFd in
  if (alloc_sync_data =? NULL)%N then
    pr_err "pvr_sync_ioctl_create_fence: Invalid alloc sync fd" ;;
    ret (- EFAULT, None)
  else
  let* ad := load_alloc_data alloc_sync_data in
  if negb (timeline ad =? timeline')%N then
    pr_err "pvr_sync_ioctl_create_fence: Trying to create sync from alloc of another timeline" ;;
    ret (- EFAULT, None)
  else
  let sync_data' := sync_data ad in
  store_alloc_data alloc_sync_data
    {| sync_data := NULL; timeline := timeline ad |} ;;
  let* pt := pvr_sync_create_sync timeline' sync_data' in
  match pt with
  | None =>
      pr_err "pvr_sync_ioctl_create_fence: Failed to create a sync point" ;;
      pvr_sync_free_sync_data sync_data' ;;
      ret (- ENOMEM, None)
  | Some sync_pt =>
      let* fence := reply in   (* sync_fence_create() *)
      if fence =? 0 then
        pr_err "pvr_sync_ioctl_create_fence: Failed to create a fence" ;;
        pvr_sync_free_sync sync_pt ;;   (* sync_pt_free() *)
        pvr_sync_free_sync_data sync_data' ;;
        ret (- ENOMEM, None)
      else
        let* ok := reply in   (* access_ok(VERIFY_WRITE, ...) *)
        if ok =? 0 then
          pvr_sync_free_sync sync_pt ;;   (* sync_fence_put() *)
          pvr_sync_free_sync_data sync_data' ;;
          ret (- EFAULT, None)
        else
        let* uncopied := reply in   (* copy_to_user() *)
        if negb (uncopied =? 0) then
          pvr_sync_free_sync sync_pt ;;   (* sync_fence_put() *)
          pvr_sync_free_sync_data sync_data' ;;
          ret (- EFAULT, None)
        else
        (* sync_fence_install(fence, fd) *)
        fd_install fd
          (sync_fence_file {| name := terminated32 szName;
                              pt_list_head := [sync_pt] |}) ;;
        ret (0, Some fd)
  end.

(** ** Fence queries *)

(** The caller's four arrays and the two in/out counters.  An array is a
    map from indices to cells, so a write past the caller's bound is
    visible as a change at that index. *)
Record ufo_buffers := {
  fence_ufo_address : gmap Z Z;
  fence_value : gmap Z Z;
  fence_num : Z;
  update_ufo_address : gmap Z Z;
  update_value : gmap Z Z;
  update_num : Z
}.

(** [fence_ufo_address[*fence_num].ui32Addr = addr;
     fence_value[*fence_num] = value; ++*fence_num;] *)
Definition push_fence (addr value : Z) (q : ufo_buffers) : ufo_buffers :=
  {| fence_ufo_address := <[fence_num q := addr]> (fence_ufo_address q);
     fence_value := <[fence_num q := value]> (fence_value q);
     fence_num := u32 (fence_num q + 1);
     update_ufo_address := update_ufo_address q;
     update_value := update_value q;
     update_num := update_num q |}.

(** The same on the update arrays. *)
Definition push_update (addr value : Z) (q : ufo_buffers) : ufo_buffers :=
  {| fence_ufo_address := fence_ufo_address q;
     fence_value := fence_value q;
     fence_num := fence_num q;
     update_ufo_address := <[update_num q := addr]> (update_ufo_address q);
     update_value := <[update_num q := value]> (update_value q);
     update_num := u32 (update_num q + 1) |}.

(** [max_entries - *fence_num < nf || max_entries - *update_num < nu],
    in [u32] arithmetic. *)
Definition too_little_space (max_entries nf nu : Z) (q : ufo_buffers) : bool :=
  (u32 (max_entries - fence_num q) <? nf)
  || (u32 (max_entries - update_num q) <? nu).

Definition too_little_space_msg : string :=
  "Too little space on fence query for all the sync points in this fence".

(** [pvr_sync_query_sync_update] *)
Definition pvr_sync_query_sync_update (fd max_entries : Z) (q : ufo_buffers)
  : M (PVRSRV_ERROR * ufo_buffers) :=
  (* All updates /must/ be on alloc (non-created) syncs *)
  let* alloc_sync_data := pvr_sync_alloc_fence_fdget fd in
  if (alloc_sync_data =? NULL)%N then
    pr_err "pvr_sync_query_sync_update: Failed to read sync private data" ;;
    ret (PVRSRV_ERROR_HANDLE_NOT_FOUND, q)
  else
  let* ad := load_alloc_data alloc_sync_data in
  (* Updates may not be scheduled on alloc syncs that have already had
     CREATE called *)
  if (sync_data ad =? NULL)%N then
    pr_err "pvr_sync_query_sync_update: Failed to read alloc sync sync_data" ;;
    ret (PVRSRV_ERROR_RESOURCE_UNAVAILABLE, q)
  else
  let* data := load_sync_data (sync_data ad) in
  (* For update we need space for 1 fence and 2 updates *)
  if too_little_space max_entries 1 2 q then
    pr_warn too_little_space_msg ;;
    ret (PVRSRV_OK, q)
  else
  let* k := load_kernel (kernel data) in
  let* fs := load_prim (fence_sync k) in
  let nv := u32 (next_value fs + 1) in
  store_prim (fence_sync k) (with_next_value nv fs) ;;
  let q := push_update (vaddr fs) nv q in
  (* Timeline sync point *)
  let* tl := load_timeline (timeline ad) in
  let* ts := load_prim (timeline_sync tl) in
  let q := push_fence (vaddr ts) (timeline_fence_value data) q in
  let q := push_update (vaddr ts) (timeline_update_value data) q in
  (* Reset the fencing enabled flag. *)
  store_timeline (timeline ad)
    {| obj_name := obj_name tl; timeline_sync := timeline_sync tl;
       fencing_enabled := false |} ;;
  ret (PVRSRV_OK, q).

(** [pvr_sync_create_waiter_for_foreign_sync(fd)]; [NULL] when no shadow
    is needed or none could be made.  The reply to
    [sync_fence_wait_async] is [0] when the waiter was registered. *)
Definition pvr_sync_create_waiter_for_foreign_sync (fd : Z) : M N :=
  let* f := sync_fence_fdget fd in
  match f with
  | None =>
      pr_err "pvr_sync_create_waiter_for_foreign_sync: Failed to take reference on fence" ;;
      ret NULL
  | Some fence =>
  let* k := kmalloc in
  if (k =? NULL)%N then
    pr_err "pvr_sync_create_waiter_for_foreign_sync: Failed to allocate sync kernel" ;;
    ret NULL
  else
  let* sync_fence := kmalloc in
  if (sync_fence =? NULL)%N then
    pr_err "pvr_sync_create_waiter_for_foreign_sync: Failed to allocate pvr sync fence" ;;
    ret NULL
  else
  let* r := sync_pool_get (name fence) SYNC_PT_FOREIGN_FENCE_TYPE in
  match r with
  | (PVRSRV_OK, fsync) =>
      store_kernel k {| fence_sync := fsync; cleanup_sync := NULL |} ;;
      let* fs := load_prim fsync in
      store_prim fsync (with_next_value (u32 (next_value fs + 1)) fs) ;;
      let* r := sync_pool_get (name fence) SYNC_PT_FOREIGN_CLEANUP_TYPE in
      match r with
      | (PVRSRV_OK, csync) =>
          store_kernel k {| fence_sync := fsync; cleanup_sync := csync |} ;;
          let* cs := load_prim csync in
          store_prim csync (with_next_value (u32 (next_value cs + 1)) cs) ;;
          let* waiter := kmalloc in
          if (waiter =? NULL)%N then
            pr_err "pvr_sync_create_waiter_for_foreign_sync: Failed to allocate waiter" ;;
            sync_pool_put csync ;;
            sync_pool_put fsync ;;
            kfree_kernel k ;;
            ret NULL
          else
            let* err := reply in   (* sync_fence_wait_async() *)
            if negb (err =? 0) then
              (if err <? 0 then
                 pr_err "pvr_sync_create_waiter_for_foreign_sync: Fence was in error state"
               else ret tt) ;;
              sync_pool_put csync ;;
              sync_pool_put fsync ;;
              kfree_kernel k ;;
              ret NULL
            else
              modify (fun d => set_waiters (waiters d ++ [(k, fd)]) d) ;;
              ret k
      | _ =>
          pr_err "pvr_sync_create_waiter_for_foreign_sync: Failed to allocate cleanup sync prim" ;;
          sync_pool_put fsync ;;
          kfree_kernel k ;;
          ret NULL
      end
  | _ =>
      pr_err "pvr_sync_create_waiter_for_foreign_sync: Failed to allocate sync prim" ;;
      kfree_kernel k ;;
      ret NULL
  end
  end.

(** One iteration of the [list_for_each_entry] of
    [pvr_sync_query_sync_check].  The first component of the result is
    [Some error] when the iteration leaves the loop by [goto err_put];
    the second is [have_active_foreign_sync]. *)
Definition query_sync_check_pt (max_entries : Z) (pt : sync_pt)
    (have_active_foreign_sync : bool) (q : ufo_buffers)
  : M (option PVRSRV_ERROR * bool * ufo_buffers) :=
  match pt with
  | foreign_sync_pt status =>
      (* If there are foreign sync points in this fence which are still
         active we will add a shadow sync prim for them. *)
      ret (None, (if status =? 0 then true else have_active_foreign_sync), q)
  | pvr_sync_pt parent _ sd =>
      let* data := load_sync_data sd in
      let kernel := kernel data in
      if (kernel =? NULL)%N then ret (None, have_active_foreign_sync, q)
      else
      let* k := load_kernel kernel in
      let* met := is_sync_met (fence_sync k) in
      if met then ret (None, have_active_foreign_sync, q)
      else
      (* For check we need space for 1 element each *)
      if too_little_space max_entries 1 1 q then
        pr_warn too_little_space_msg ;;
        ret (Some PVRSRV_OK, have_active_foreign_sync, q)
      else
      let* error :=
        if (cleanup_sync k =? NULL)%N then
          let* tl := load_timeline parent in
          let* r := sync_pool_get (obj_name tl) SYNC_PT_CLEANUP_TYPE in
          match r with
          | (PVRSRV_OK, sync) =>
              store_kernel kernel
                {| fence_sync := fence_sync k; cleanup_sync := sync |} ;;
              ret PVRSRV_OK
          | (error, _) =>
              pr_err "pvr_sync_query_sync_check: Failed to allocate cleanup sync prim" ;;
              ret error
          end
        else ret PVRSRV_OK in
      match error with
      | PVRSRV_OK =>
          let* k := load_kernel kernel in
          let* fs := load_prim (fence_sync k) in
          let q := push_fence (vaddr fs) (next_value fs) q in
          let* cs := load_prim (cleanup_sync k) in
          let nv := u32 (next_value cs + 1) in
          store_prim (cleanup_sync k) (with_next_value nv cs) ;;
          let q := push_update (vaddr cs) nv q in
          ret (None, have_active_foreign_sync, q)
      | _ => ret (Some error, have_active_foreign_sync, q)
      end
  end.

(** The loop over [fence->pt_list_head]. *)
Fixpoint query_sync_check_pts (max_entries : Z) (pts : list sync_pt)
    (have_active_foreign_sync : bool) (q : ufo_buffers)
  : M (option PVRSRV_ERROR * bool * ufo_buffers) :=
  match pts with
  | [] => ret (None, have_active_foreign_sync, q)
  | pt :: rest =>
      let* r := query_sync_check_pt max_entries pt have_active_foreign_sync q in
      match r with
      | (None, have, q') => query_sync_check_pts max_entries rest have q'
      | _ => ret r
      end
  end.

(** [pvr_sync_query_sync_check] *)
Definition pvr_sync_query_sync_check (fd max_entries : Z) (q : ufo_buffers)
  : M (PVRSRV_ERROR * ufo_buffers) :=
  let* f := sync_fence_fdget fd in
  match f with
  | None =>
      (* All updates /must/ be on created (not just alloc'd) syncs *)
      pr_err "pvr_sync_query_sync_check: Failed to read sync private data" ;;
      ret (PVRSRV_ERROR_HANDLE_NOT_FOUND, q)
  | Some fence =>
      let* r := query_sync_check_pts max_entries (pt_list_head fence) false q in
      match r with
      | (Some error, _, q) => ret (error, q)
      | (None, false, q) => ret (PVRSRV_OK, q)
      | (None, true, q) =>
          (* Add one shadow sync prim for "all" foreign sync points. *)
          if too_little_space max_entries 1 1 q then
            pr_warn too_little_space_msg ;;
            ret (PVRSRV_OK, q)
          else
            let* kernel := pvr_sync_create_waiter_for_foreign_sync fd in
            (* This could be zero when the sync has signaled already. *)
            if (kernel =? NULL)%N then ret (PVRSRV_OK, q)
            else
              let* k := load_kernel kernel in
              let* fs := load_prim (fence_sync k) in
              let q := push_fence (vaddr fs) (next_value fs) q in
              let* cs := load_prim (cleanup_sync k) in
              let q := push_update (vaddr cs) (next_value cs) q in
              ret (PVRSRV_OK, q)
      end
  end.

(** [pvr_sync_query_fence] *)
Definition pvr_sync_query_fence (fd : Z) (update : bool) (max_entries : Z)
    (q : ufo_buffers) : M (PVRSRV_ERROR * ufo_buffers) :=
  if update then pvr_sync_query_sync_update fd max_entries q
  else pvr_sync_query_sync_check fd max_entries q.

(** [pvr_sync_query_fences]: the loop over [fds] stops at the first
    error. *)
Fixpoint pvr_sync_query_fences (fds : list Z) (update : bool)
    (max_entries : Z) (q : ufo_buffers) : M (PVRSRV_ERROR * ufo_buffers) :=
  match fds with
  | [] => ret (PVRSRV_OK, q)
  | fd :: rest =>
      let* r := pvr_sync_query_fence fd update max_entries q in
      match r with
      | (PVRSRV_OK, q') => pvr_sync_query_fences rest update max_entries q'
      | (error, q') =>
          pr_err "pvr_sync_query_fences: query fence failed" ;;
          ret (error, q')
      end
  end.

(** [pvr_sync_nohw_update_fence(fd)]: the fence prims behind an fd are
    completed without hardware. *)
Fixpoint nohw_complete_pts (pts : list sync_pt) : M unit :=
  match pts with
  | [] => ret tt
  | pvr_sync_pt _ _ sd :: rest =>
      let* data := load_sync_data sd in
      let* k := load_kernel (kernel data) in
      complete_sync (fence_sync k) ;;
      nohw_complete_pts rest
  | foreign_sync_pt _ :: rest => nohw_complete_pts rest
  end.

Definition pvr_sync_nohw_update_fence (fd : Z) : M PVRSRV_ERROR :=
  let* alloc_fence := pvr_sync_alloc_fence_fdget fd in
  if negb (alloc_fence =? NULL)%N then
    let* ad := load_alloc_data alloc_fence in
    (if (sync_data ad =? NULL)%N then
       pr_warn "pvr_sync_nohw_update_fence: Re-using created alloc sync"
     else
       let* data := load_sync_data (sync_data ad) in
       let* k := load_kernel (kernel data) in
       complete_sync (fence_sync k)) ;;
    ret PVRSRV_OK
  else
    let* f := sync_fence_fdget fd in
    match f with
    | Some fence => nohw_complete_pts (pt_list_head fence) ;; ret PVRSRV_OK
    | None =>
        pr_err "pvr_sync_nohw_update_fence: fence not found" ;;
        ret PVRSRV_ERROR_HANDLE_NOT_FOUND
    end.

(** [pvr_sync_init()] leaves the statics as the loader zeroed them and
    sets [sync_id] to 0; nothing has been allocated yet. *)
Definition pvr_sync_init (script : list Z) : driver :=
  {| prims := ∅; kernels := ∅; sync_datas := ∅; alloc_datas := ∅;
     timelines := ∅; files := ∅; sync_id := 0; timeline_list := [];
     sync_pool_free_list := []; sync_pool_active_list := [];
     sync_pool_size := 0; sync_pool_created := 0; sync_pool_reused := 0;
     sync_prim_free_list := []; waiters := []; brk := 0%N;
     replies := script; dmesg := [] |}.

(** ** A concrete run

    The states of one session, used where a statement is checked on a
    concrete input: the driver is initialised, a timeline is opened, a
    fence is allocated on it, queried for update, and created. *)

(** The state a computation leaves. *)
Definition exec {A} (m : M A) (d : driver) : driver :=
  match m d with Ok _ d' => d' | Oops => d end.

Definition empty_buffers : ufo_buffers :=
  {| fence_ufo_address := ∅; fence_value := ∅; fence_num := 0;
     update_ufo_address := ∅; update_value := ∅; update_num := 0 |}.

(** The replies: [pvr_sync_open] (the timeline, the prim, [SyncPrimAlloc],
    the firmware address), [pvr_sync_ioctl_alloc_fence] (fd 3, two
    [access_ok], four allocations, [SyncPrimAlloc], the firmware address,
    the file, [access_ok], [copy_to_user]), [pvr_sync_ioctl_create_fence]
    (fd 4, [access_ok], [copy_from_user], the point, the fence,
    [access_ok], [copy_to_user]). *)
Definition demo_script : list Z :=
  [1; 1; 0; 4096;
   3; 1; 1; 1; 1; 1; 1; 0; 8192; 1; 1; 0;
   4; 1; 0; 1; 1; 1; 0].

Definition demo_init : driver := pvr_sync_init demo_script.
Definition demo_open : driver := exec (pvr_sync_open "tl") demo_init.
Definition demo_alloc : driver := exec (pvr_sync_ioctl_alloc_fence 1) demo_open.
Definition demo_update : driver :=
  exec (pvr_sync_query_sync_update 3 8 empty_buffers) demo_alloc.
Definition demo_create : driver :=
  exec (pvr_sync_ioctl_create_fence 1 3 "fence") demo_update.


(** Two points whose update values are [0xFFFFFFF0] and [0x00000010]. *)
Definition rollover_driver : driver :=
  set_sync_datas
    (<[1%N := {| kernel := NULL; timeline_fence_value := 0xFFFFFFEF;
                 timeline_update_value := 0xFFFFFFF0; refcount := 1 |}]>
       (<[2%N := {| kernel := NULL; timeline_fence_value := 0x0000000F;
                    timeline_update_value := 0x00000010; refcount := 1 |}]> ∅))
    (pvr_sync_init []).

(** Two points whose update values are half the range apart: [0] and
    [0x80000000]. *)
Definition half_range_driver : driver :=
  set_sync_datas
    (<[1%N := {| kernel := NULL; timeline_fence_value := 0xFFFFFFFF;
                 timeline_update_value := 0; refcount := 1 |}]>
       (<[2%N := {| kernel := NULL; timeline_fence_value := 0x7FFFFFFF;
                    timeline_update_value := 0x80000000; refcount := 1 |}]> ∅))
    (pvr_sync_init []).

(** The concrete run without the update query: the fence is created
    right after the allocation. *)
Definition demo_create_unqueried : driver :=
  Eval vm_compute in exec (pvr_sync_ioctl_create_fence 1 3 "fence") demo_alloc.

(** What [pvr_sync_query_sync_update] leaves in the buffers when it has
    room: the fence prim [fs] of the alloc sync, the timeline prim [ts]
    and the two recorded timeline values of [data]. *)
Definition query_sync_update_buffers (q : ufo_buffers)
    (fs ts : pvr_sync_native_sync_prim) (data : pvr_sync_data) : ufo_buffers :=
  {| fence_ufo_address := <[fence_num q := vaddr ts]> (fence_ufo_address q);
     fence_value :=
       <[fence_num q := timeline_fence_value data]> (fence_value q);
     fence_num := fence_num q + 1;
     update_ufo_address :=
       <[update_num q + 1 := vaddr ts]>
         (<[update_num q := vaddr fs]> (update_ufo_address q));
     update_value :=
       <[update_num q + 1 := timeline_update_value data]>
         (<[update_num q := u32 (next_value fs + 1)]> (update_value q));
     update_num := update_num q + 2 |}.


(** The counters are within the bound of the caller's arrays. *)
Definition within (max_entries : Z) (q : ufo_buffers) : Prop :=
  0 <= fence_num q <= max_entries ∧ 0 <= update_num q <= max_entries.

(** No cell at or past index [max_entries] differs between [q] and [q']. *)
Definition same_beyond (max_entries : Z) (q q' : ufo_buffers) : Prop :=
  ∀ i, max_entries <= i ->
    fence_ufo_address q' !! i = fence_ufo_address q !! i ∧
    fence_value q' !! i = fence_value q !! i ∧
    update_ufo_address q' !! i = update_ufo_address q !! i ∧
    update_value q' !! i = update_value q !! i.

(** The state after the too-little-space warning. *)
Definition warned (d : driver) : driver :=
  set_dmesg (dmesg d ++ [(KERN_WARNING, too_little_space_msg)]) d.


(** [bounded max_entries q q']: going from [q] to [q'], the counters
    stayed within [max_entries] and no cell at or past [max_entries] was
    written. *)
Definition bounded (max_entries : Z) (q q' : ufo_buffers) : Prop :=
  within max_entries q' ∧ same_beyond max_entries q q'.

(** The fence prim behind a point of this driver, if it has one. *)
Definition fence_prim_of (d : driver) (pt : sync_pt)
  : option pvr_sync_native_sync_prim :=
  match pt with
  | pvr_sync_pt _ _ sd =>
      data ← sync_datas d !! sd;
      if (kernel data =? NULL)%N then None
      else k ← kernels d !! kernel data; prims d !! fence_sync k
  | foreign_sync_pt _ => None
  end.

(** A point of this driver that a check query has to wait for: it has a
    fence prim and the prim is not met. *)
Definition unsatisfied (d : driver) (pt : sync_pt) : bool :=
  match fence_prim_of d pt with
  | Some fs => negb (client_sync fs =? next_value fs)
  | None => false
  end.


(** ** Runs of the pool

    A sequence of acquisitions and releases, as the rest of the driver
    issues them. *)
Inductive pool_op :=
  | pool_get (class_name : string) (type_ : Z)
  | pool_put (sync : N).

(** The results of the acquisitions, in order. *)
Fixpoint pool_run (ops : list pool_op) : M (list (PVRSRV_ERROR * N)) :=
  match ops with
  | [] => ret []
  | pool_get class_name type_ :: rest =>
      let* r := sync_pool_get class_name type_ in
      let* rs := pool_run rest in
      ret (r :: rs)
  | pool_put sync :: rest => sync_pool_put sync ;; pool_run rest
  end.

(** The number of acquisitions in a run. *)
Fixpoint gets (ops : list pool_op) : nat :=
  match ops with
  | [] => 0%nat
  | pool_get _ _ :: rest => S (gets rest)
  | pool_put _ :: rest => gets rest
  end.

(** No two prims on the active list have the same id. *)
Definition unique_active_ids (d : driver) : Prop :=
  ∀ p1 p2 s1 s2,
    p1 ∈ sync_pool_active_list d -> p2 ∈ sync_pool_active_list d ->
    prims d !! p1 = Some s1 -> prims d !! p2 = Some s2 ->
    id s1 = id s2 -> p1 = p2.

(** The invariant of the pool: the active list has no repetition, every
    prim lies below [brk], the prims of the active list are allocated and
    have ids between 1 and the id counter, and these ids are unique. *)
Definition pool_inv (d : driver) : Prop :=
  NoDup (sync_pool_active_list d) ∧
  (∀ p s, prims d !! p = Some s -> (p <= brk d)%N) ∧
  (∀ p, p ∈ sync_pool_active_list d ->
     ∃ s, prims d !! p = Some s ∧ 1 <= id s <= u32 (sync_id d)) ∧
  unique_active_ids d.

(** The prim that [sync_pool_get class_name type_] hands out in state
    [d], at firmware address [v]. *)
Definition fresh_prim (class_name : string) (type_ : Z) (d : driver) (v : Z)
  : pvr_sync_native_sync_prim :=
  {| client_sync := 0; next_value := 0; id := u32 (s32 (sync_id d + 1));
     vaddr := v; type := u8 type_; class := strncpy32 class_name |}.


(** A long run of the pool: two prims are acquired from a fresh driver,
    then the second one is released and acquired again [2^32 - 1] times. *)
Definition wrap_script : list Z := [1; 0; 4096; 1; 0; 8192].

Definition wrap_cycle : list pool_op := [pool_put 2; pool_get "b" 1].

Definition wrap_cycles : nat := Z.to_nat (2 ^ 32 - 1).

Definition wrap_ops : list pool_op :=
  pool_get "a" 0 :: pool_get "b" 1 :: concat (repeat wrap_cycle wrap_cycles).

(** The states this run goes through after the two acquisitions: prim 1
    keeps id 1, prim 2 carries the id counter [sid]. *)
Definition wrap_state (sid reused : Z) : driver :=
  {| prims :=
       <[2%N := {| client_sync := 0; next_value := 0; id := u32 sid;
                   vaddr := 8192; type := 1; class := "b" |}]>
         (<[1%N := {| client_sync := 0; next_value := 0; id := 1;
                      vaddr := 4096; type := 0; class := "a" |}]> ∅);
     kernels := ∅; sync_datas := ∅; alloc_datas := ∅; timelines := ∅;
     files := ∅; sync_id := sid; timeline_list := [];
     sync_pool_free_list := []; sync_pool_active_list := [1%N; 2%N];
     sync_pool_size := 0; sync_pool_created := 2; sync_pool_reused := reused;
     sync_prim_free_list := []; waiters := []; brk := 2%N;
     replies := []; dmesg := [] |}.


(** The state after [sync_pool_get class_name type_] took [p], with
    record [s], from the head of the free list. *)
Definition reused (class_name : string) (type_ : Z) (p : N)
    (s : pvr_sync_native_sync_prim) (d : driver) : driver :=
  set_prims (<[p := fresh_prim class_name type_ d (vaddr s)]> (prims d))
    (set_sync_id (s32 (sync_id d + 1))
       (set_sync_pool_reused (u32 (sync_pool_reused d + 1))
          (set_sync_pool_size (s32 (sync_pool_size d - 1))
             (set_sync_pool_active_list
                (list_del p (sync_pool_active_list d) ++ [p])
                (set_sync_pool_free_list
                   (list_del p (sync_pool_free_list d)) d))))).


(** The state after [sync_pool_get class_name type_] allocated a new
    prim: the three replies ([kmalloc], [SyncPrimAlloc], the firmware
    address) are consumed and the prim is at the new [brk]. *)
Definition allocated (class_name : string) (type_ : Z) (d : driver) : driver :=
  set_prims
    (<[N.succ (brk d) :=
         fresh_prim class_name type_ d (u32 (hd 0 (tail (tail (replies d)))))]>
       (prims d))
    (set_sync_id (s32 (sync_id d + 1))
       (set_sync_pool_created (u32 (sync_pool_created d + 1))
          (set_sync_pool_active_list
             (sync_pool_active_list d ++ [N.succ (brk d)])
             (set_brk (N.succ (brk d))
                (set_replies (tail (tail (tail (replies d)))) d))))).

(** A place where a prim pointer is kept, other than a timeline: the
    pointer is [NULL], or it is below [brk], off the free list and not
    the prim of any timeline. *)
Definition slot (d : driver) (p : N) : Prop :=
  p = NULL ∨
  ((p <= brk d)%N ∧ (p ∉ sync_pool_free_list d) ∧
   ∀ T tl, timelines d !! T = Some tl -> timeline_sync tl ≠ p).

(** The invariant of the driver between two operations: who holds which
    prim.  Prims and timelines lie below [brk]; the prim of a timeline is
    allocated, off the free list and the prim of no other timeline; the
    prims of a kernel pair are in [slot]s, no fence prim is a cleanup
    prim, and no sync data lives at [NULL]. *)
Definition driver_inv (d : driver) : Prop :=
  (∀ p s, prims d !! p = Some s -> p ≠ NULL ∧ (p <= brk d)%N) ∧
  (∀ T tl, timelines d !! T = Some tl ->
     (T <= brk d)%N ∧ is_Some (prims d !! timeline_sync tl) ∧
     timeline_sync tl ∉ sync_pool_free_list d) ∧
  (∀ T1 T2 tl1 tl2,
     timelines d !! T1 = Some tl1 -> timelines d !! T2 = Some tl2 ->
     timeline_sync tl1 = timeline_sync tl2 -> T1 = T2) ∧
  (∀ k kp, kernels d !! k = Some kp ->
     slot d (fence_sync kp) ∧ slot d (cleanup_sync kp)) ∧
  (∀ k1 k2 kp1 kp2,
     kernels d !! k1 = Some kp1 -> kernels d !! k2 = Some kp2 ->
     cleanup_sync kp2 ≠ NULL -> fence_sync kp1 ≠ cleanup_sync kp2) ∧
  sync_datas d !! NULL = None.

(** A prim that nobody holds: no timeline and no kernel pair points to
    it. *)
Definition unowned (d : driver) (p : N) : Prop :=
  p ≠ NULL ∧
  (∀ T tl, timelines d !! T = Some tl -> timeline_sync tl ≠ p) ∧
  (∀ k kp, kernels d !! k = Some kp ->
     fence_sync kp ≠ p ∧ cleanup_sync kp ≠ p).

(** What [sync_pool_get] leaves behind when it hands out [p] in state
    [d], as seen in a later state [d1]: [p] came from the free list, or
    it is a new address. *)
Definition taken (d d1 : driver) (p : N) : Prop :=
  (is_Some (prims d !! p) ∧ p ∈ sync_pool_free_list d ∧
   sync_pool_free_list d1 = list_del p (sync_pool_free_list d))
  ∨ (sync_pool_free_list d = [] ∧ sync_pool_free_list d1 = [] ∧
     (brk d < p)%N).


(** [is_sync_met(timeline->timeline_sync) && timeline->fencing_enabled ==
    false], on the records of the timeline and of its prim. *)
Definition timeline_idle (tl : pvr_sync_timeline)
    (ts : pvr_sync_native_sync_prim) : bool :=
  (client_sync ts =? next_value ts) && negb (fencing_enabled tl).

(** The [next_value] that an allocation leaves in the timeline prim. *)
Definition reserved_value (tl : pvr_sync_timeline)
    (ts : pvr_sync_native_sync_prim) : Z :=
  if timeline_idle tl ts then next_value ts else u32 (next_value ts + 1).


(** ** Runs of the driver

    The operations that user space and the hardware perform on the driver
    while a timeline lives, one after the other: the four entry points of
    the control channel, update queries, closing an fd, and the hardware
    writing the value of a prim. *)
Inductive op :=
  | op_open (name : string)
  | op_alloc_fence (timeline : N)
  | op_create_fence (timeline : N) (iAllocFenceFd : Z) (szName : string)
  | op_enable_fencing (timeline : N) (bFencingEnabled : bool)
  | op_query_update (fd max_entries : Z) (q : ufo_buffers)
  | op_close (fd : Z)
  | op_hw_write (sync : N) (value : Z).

(** What a run records of each operation: a successful allocation on a
    timeline with its idle flag, a release that rolled a timeline back,
    or nothing of interest. *)
Inductive event :=
  | ev_alloc (timeline : N) (idle : bool)
  | ev_rollback (timeline : N)
  | ev_other.

#[global] Instance event_eq_dec : EqDecision event.
Proof. solve_decision. Defined.

(** The timeline that [pvr_sync_alloc_release] is about to roll back:
    the alloc sync still has its sync data and the [next_value] of its
    fence prim is 0. *)
Definition rollback_target (d : driver) (alloc_sync_data : N) : option N :=
  ad ← alloc_datas d !! alloc_sync_data;
  if (sync_data ad =? NULL)%N then None
  else
    data ← sync_datas d !! sync_data ad;
    k ← kernels d !! kernel data;
    fs ← prims d !! fence_sync k;
    if next_value fs =? 0 then Some (timeline ad) else None.

(** The last [fput] of a file: [close(fd)] on an fd whose file has no
    other reference.  An alloc sync is released through
    [pvr_alloc_sync_fops.release]; the points of a fence are freed by the
    framework through [free_pt].  References are not counted in the
    state: [pvr_sync_query_sync_update] leaves without [fput] when it
    returns [PVRSRV_ERROR_RESOURCE_UNAVAILABLE], so the file of such an
    alloc sync keeps a reference and its [close] is not this last
    [fput]; its [sync_data] is [NULL] then, and the release that does not
    run would have written no prim and no timeline. *)
Fixpoint free_pts (pts : list sync_pt) : M unit :=
  match pts with
  | [] => ret tt
  | foreign_sync_pt _ :: rest => free_pts rest
  | pt :: rest => pvr_sync_free_sync pt ;; free_pts rest
  end.

Definition sys_close (fd : Z) : M event :=
  let* f := get (fun d => files d !! fd) in
  match f with
  | Some (alloc_sync_file private_data) =>
      let* target := get (fun d => rollback_target d private_data) in
      pvr_sync_alloc_release private_data ;;
      modify (fun d => set_files (delete fd (files d)) d) ;;
      ret (match target with Some T => ev_rollback T | None => ev_other end)
  | Some (sync_fence_file fence) =>
      free_pts (pt_list_head fence) ;;
      modify (fun d => set_files (delete fd (files d)) d) ;;
      ret ev_other
  | Some other_file =>
      modify (fun d => set_files (delete fd (files d)) d) ;;
      ret ev_other
  | None => ret ev_other
  end.

(** The event of an allocation: it succeeded when the ioctl returns 0
    and the user received the data. *)
Definition alloc_event (timeline : N)
    (r : Z * option pvr_sync_alloc_fence_ioctl_data) : event :=
  match r with
  | (0, Some data) => ev_alloc timeline (bTimelineIdle data)
  | _ => ev_other
  end.

Definition step (o : op) : M event :=
  match o with
  | op_open name => pvr_sync_open name ;; ret ev_other
  | op_alloc_fence timeline =>
      let* r := pvr_sync_ioctl_alloc_fence timeline in
      ret (alloc_event timeline r)
  | op_create_fence timeline iAllocFenceFd szName =>
      pvr_sync_ioctl_create_fence timeline iAllocFenceFd szName ;;
      ret ev_other
  | op_enable_fencing timeline bFencingEnabled =>
      pvr_sync_ioctl_enable_fencing timeline bFencingEnabled ;; ret ev_other
  | op_query_update fd max_entries q =>
      pvr_sync_query_sync_update fd max_entries q ;; ret ev_other
  | op_close fd => sys_close fd
  | op_hw_write sync value => set_sync_value sync value ;; ret ev_other
  end.

Fixpoint run (ops : list op) : M (list event) :=
  match ops with
  | [] => ret []
  | o :: rest =>
      let* e := step o in
      let* es := run rest in
      ret (e :: es)
  end.

(** The number of allocations on timeline [T] that were not idle. *)
Definition busy_allocs (T : N) (evs : list event) : nat :=
  length (filter (fun e => e = ev_alloc T false) evs).


(** What one operation does to the timelines that exist: they keep their
    prim, and the [next_value] of the prim of [T] grows by one when the
    event is an allocation on [T] that was not idle, and stays otherwise,
    unless the event is a rollback of [T]. *)
Definition keeps_timelines (d d' : driver) (e : event) : Prop :=
  ∀ T tl ts,
    timelines d !! T = Some tl -> prims d !! timeline_sync tl = Some ts ->
    ∃ tl' ts',
      timelines d' !! T = Some tl' ∧ timeline_sync tl' = timeline_sync tl ∧
      prims d' !! timeline_sync tl = Some ts' ∧
      ((e = ev_rollback T -> False) ->
       next_value ts' =
         if decide (e = ev_alloc T false) then u32 (next_value ts + 1)
         else next_value ts).

(** Code that leaves the prims, the timelines, the kernel pairs and the
    pool alone. *)
Definition same_core (d d' : driver) : Prop :=
  prims d' = prims d ∧ timelines d' = timelines d ∧
  (∀ k kp, kernels d' !! k = Some kp -> kernels d !! k = Some kp) ∧
  sync_pool_free_list d' = sync_pool_free_list d ∧
  (brk d <= brk d')%N ∧
  (sync_datas d !! NULL = None -> sync_datas d' !! NULL = None).

(** The event of closing the fd of alloc sync [a]. *)
Definition release_event (d : driver) (a : N) : event :=
  match rollback_target d a with
  | Some T => ev_rollback T
  | None => ev_other
  end.

(** An alloc sync [a] that is still unused: create has not been called
    on it and the [next_value] of its fence prim is 0. *)
Definition unused (d : driver) (a : N) (ad : pvr_sync_alloc_data)
    (sd : pvr_sync_data) : Prop :=
  alloc_datas d !! a = Some ad ∧ sync_data ad ≠ NULL ∧
  sync_datas d !! sync_data ad = Some sd ∧
  ∃ k fs, kernels d !! kernel sd = Some k ∧
          prims d !! fence_sync k = Some fs ∧ next_value fs = 0.

(** The timeline of the concrete run and its prim, as [pvr_sync_open]
    leaves them, and the state after the alloc sync of the run is closed
    unused. *)
Definition demo_timeline : pvr_sync_timeline :=
  {| obj_name := "tl"; timeline_sync := 2%N; fencing_enabled := true |}.

Definition demo_timeline_prim : pvr_sync_native_sync_prim :=
  {| client_sync := 0; next_value := 0; id := 1; vaddr := 4096;
     type := 0; class := "tl" |}.

Definition demo_release : driver := exec (sys_close 3) demo_alloc.


(** ** Check queries, in the words of the specification *)






(** ** A concrete check query *)

Definition check_script : list Z :=
  demo_script ++
  [5; 1; 1; 1; 1; 1; 1; 0; 12288; 1; 1; 0;
   6; 1; 0; 1; 1; 1; 0;
   1; 0; 16384].

Definition check_ops : list op :=
  [op_alloc_fence 1; op_query_update 3 8 empty_buffers;
   op_create_fence 1 3 "fence"; op_alloc_fence 1;
   op_create_fence 1 5 "fence2"].

Definition check_opened : driver :=
  Eval vm_compute in exec (pvr_sync_open "tl") (pvr_sync_init check_script).
Definition check_created : driver :=
  Eval vm_compute in exec (run check_ops) check_opened.


(** The fence that [sync_fence_merge] makes of the two created fences:
    the point of the second one was never queried for update and is met,
    the point of the first one is not. *)
Definition check_fence : sync_fence :=
  {| name := "merged";
     pt_list_head := [pvr_sync_pt 1 0 9; pvr_sync_pt 1 0 4] |}.

Definition check_merged : driver :=
  Eval vm_compute in
  set_files (<[7 := sync_fence_file check_fence]> (files check_created))
    check_created.








(** ** The cache of the pool *)

(** The invariant of the cache of the pool: the free list has no
    repetition and shares no prim with the active list, every prim on it
    is allocated and holds the mark [0xffffffff], and [sync_pool_size]
    accounts for at least its length and is at most
    [SYNC_MAX_POOL_SIZE]. *)
Definition cache_inv (d : driver) : Prop :=
  NoDup (sync_pool_free_list d) ∧
  (∀ p, p ∈ sync_pool_free_list d -> p ∉ sync_pool_active_list d) ∧
  (∀ p, p ∈ sync_pool_free_list d ->
     ∃ s, prims d !! p = Some s ∧ client_sync s = 0xffffffff) ∧
  Z.of_nat (length (sync_pool_free_list d)) <= sync_pool_size d
    <= SYNC_MAX_POOL_SIZE.

(** Two prims are acquired and released: both are cached. *)
Definition cache_ops : list pool_op :=
  [pool_get "a" 0; pool_get "b" 1; pool_put 1; pool_put 2].

Definition cache_demo : driver :=
  Eval vm_compute in exec (pool_run cache_ops) (pvr_sync_init wrap_script).

(** ** The order of points *)

(** Three points whose update values are [0], [0x60000000] and
    [0xC0000000]. *)
Definition cycle_driver : driver :=
  set_sync_datas
    (<[1%N := {| kernel := NULL; timeline_fence_value := 0;
                 timeline_update_value := 0; refcount := 1 |}]>
       (<[2%N := {| kernel := NULL; timeline_fence_value := 0;
                    timeline_update_value := 0x60000000; refcount := 1 |}]>
          (<[3%N := {| kernel := NULL; timeline_fence_value := 0;
                       timeline_update_value := 0xC0000000; refcount := 1 |}]>
             ∅)))
    (pvr_sync_init []).

(** ** Shared sync data *)

Definition with_refcount (n : Z) (data : pvr_sync_data) : pvr_sync_data :=
  {| kernel := kernel data;
     timeline_fence_value := timeline_fence_value data;
     timeline_update_value := timeline_update_value data;
     refcount := n |}.

(** The kernel pair that [pvr_sync_free_sync_data] hands to the
    defer-free list. *)
Definition deferred_pair (d : driver) (sync_data : N) : list N :=
  if (sync_data =? NULL)%N then []
  else match sync_datas d !! sync_data with
       | Some data => if (kernel data =? NULL)%N then [] else [kernel data]
       | None => []
       end.

(** The concrete run with one reply left, for [sync_pt_create]. *)
Definition demo_dup : driver :=
  Eval vm_compute in set_replies [1] demo_create.

(** ** Batches of queries *)

(** The log line of [pvr_sync_query_fences] for a failed fd. *)
Definition query_failed (d : driver) : driver :=
  set_dmesg (dmesg d ++ [(KERN_ERR, "pvr_sync_query_fences: query fence failed")]) d.

(** The file behind [fd] is of the kind that a query in the given mode
    works on: an alloc sync in update mode, a fence in check mode. *)
Definition queryable (d : driver) (fd : Z) (update : bool) : Prop :=
  if update then
    ∃ a, a ≠ NULL ∧ files d !! fd = Some (alloc_sync_file a)
  else ∃ fence, files d !! fd = Some (sync_fence_file fence).

(** The log line of a query on an fd of the wrong kind. *)
Definition not_queryable_msg (update : bool) : string :=
  if update then "pvr_sync_query_sync_update: Failed to read sync private data"
  else "pvr_sync_query_sync_check: Failed to read sync private data".

(** ** Refused and failed ioctls *)

(** Two states with the same objects: they differ at most in the log,
    the replies left and the allocation counter. *)
Definition same_objects (d d' : driver) : Prop :=
  prims d' = prims d ∧ kernels d' = kernels d ∧
  sync_datas d' = sync_datas d ∧ alloc_datas d' = alloc_datas d ∧
  timelines d' = timelines d ∧ files d' = files d ∧
  timeline_list d' = timeline_list d ∧
  sync_pool_free_list d' = sync_pool_free_list d ∧
  sync_pool_active_list d' = sync_pool_active_list d ∧
  sync_pool_size d' = sync_pool_size d ∧
  sync_prim_free_list d' = sync_prim_free_list d ∧
  waiters d' = waiters d ∧ sync_id d' = sync_id d.

(** The state after the allocation of the concrete run, with the replies
    of a create-fence in which [sync_pt_create] fails: the fd,
    [access_ok], [copy_from_user], the point. *)
Definition create_fails : driver :=
  Eval vm_compute in
  set_replies [4; 1; 0; 0] demo_alloc.

(** The state after the open of the concrete run, with the replies of an
    allocation in which the last [copy_to_user] fails. *)
Definition alloc_fails : driver :=
  Eval vm_compute in
  set_replies [3; 1; 1; 1; 1; 1; 1; 0; 8192; 1; 1; 1] demo_open.

(** The same state with the replies of an enable-fencing ioctl
    ([access_ok], [copy_from_user]) and of a successful allocation. *)
Definition fencing_off : driver :=
  Eval vm_compute in
  set_replies [1; 0; 3; 1; 1; 1; 1; 1; 1; 0; 8192; 1; 1; 0] demo_open.

(** ** Completion without hardware *)

(** A prim that is met: the value the device reached is the value it was
    asked to reach. *)
Definition met (d : driver) (p : N) : Prop :=
  ∃ s, prims d !! p = Some s ∧ client_sync s = next_value s.

(** ** Shadows *)

(** The merged fence of the concrete check query, with the replies of a
    shadow: the kernel pair, the [pvr_sync_fence], two prims, the waiter,
    [sync_fence_wait_async]. *)
Definition check_shadow : driver :=
  Eval vm_compute in
  set_replies [1; 1; 1; 0; 20480; 1; 0; 24576; 1; 0] check_merged.

(** ** The debug request *)

(** A line that [pvr_sync_debug_request] hands to [PVR_DUMPDEBUG_LOG],
    as the arguments of its format. *)
Inductive debug_line :=
  | pool_usage_line (usage created reused : Z)
  | pending_sync_line (id vaddr current next : Z) (class type_name : string).

Definition type_names : list string :=
  ["Timeline"; "Fence"; "Cleanup"; "Foreign Fence"; "Foreign Cleanup"].

(** [sync_pool_reused ? (10000 / ((sync_pool_created + sync_pool_reused)
    * 100 / sync_pool_reused)) : 0] on two [u32]s; [None] is the divide
    error of a zero divisor. *)
Definition pool_usage (created reused : Z) : option Z :=
  if reused =? 0 then Some 0
  else
    let divisor := u32 (u32 (created + reused) * 100) / reused in
    if divisor =? 0 then None else Some (10000 / divisor).

(** The [list_for_each_entry] over [sync_pool_active_list]. *)
Fixpoint debug_request_syncs (l : list N) : M (list debug_line) :=
  match l with
  | [] => ret []
  | sync :: rest =>
      let* met := is_sync_met sync in
      if met then debug_request_syncs rest
      else
        let* s := load_prim sync in
        (* BUG_ON(sync->type >= ARRAY_SIZE(type_names)) *)
        if Z.of_nat (length type_names) <=? type s then oops
        else
          let* current := get_sync_value sync in
          let line :=
            pending_sync_line (id s) (vaddr s) current (next_value s)
              (class s) (nth (Z.to_nat (type s)) type_names "") in
          let* lines := debug_request_syncs rest in
          ret (line :: lines)
  end.

(** [pvr_sync_debug_request(hDebugRequestHandle, ui32VerbLevel)]: the
    lines it prints.  [DEBUG_REQUEST_VERBOSITY_HIGH] comes from a header
    of the services layer. *)
Definition pvr_sync_debug_request (DEBUG_REQUEST_VERBOSITY_HIGH : Z)
    (ui32VerbLevel : Z) : M (list debug_line) :=
  if ui32VerbLevel =? DEBUG_REQUEST_VERBOSITY_HIGH then
    let* created := get sync_pool_created in
    let* reused := get sync_pool_reused in
    match pool_usage created reused with
    | None => oops
    | Some usage =>
        let* active := get sync_pool_active_list in
        let* lines := debug_request_syncs active in
        ret (pool_usage_line usage created reused :: lines)
    end
  else ret [].

(** The line of a prim that is not met. *)
Definition pending (d : driver) (sync : N) : option debug_line :=
  match prims d !! sync with
  | Some s =>
      if client_sync s =? next_value s then None
      else Some (pending_sync_line (id s) (vaddr s) (client_sync s)
                   (next_value s) (class s)
                   (nth (Z.to_nat (type s)) type_names ""))
  | None => None
  end.

(** The number of rounds of release and reuse after which the usage of
    the pool of [wrap_script] can no longer be computed. *)
Definition usage_cycles : nat := Z.to_nat 42949671.


(** * Properties *)

(** ** Machine integers *)

Lemma u32_range z : 0 <= u32 z < 2 ^ 32.
Proof. unfold u32. apply Z.mod_pos_bound. lia. Qed.

Lemma u32_id z : is_u32 z -> u32 z = z.
Proof. unfold is_u32, u32. intros. apply Z.mod_small. lia. Qed.

Lemma s32_range z : - 2 ^ 31 <= s32 z < 2 ^ 31.
Proof.
  unfold s32. pose proof (Z.mod_pos_bound z (2 ^ 32) ltac:(lia)).
  cbv zeta. destruct (Z.ltb_spec (z mod 2 ^ 32) (2 ^ 31)); lia.
Qed.

Lemma u32_s32 z : u32 (s32 z) = u32 z.
Proof.
  unfold u32, s32. cbv zeta.
  destruct (Z.ltb_spec (z mod 2 ^ 32) (2 ^ 31)).
  - apply Z.mod_mod. lia.
  - rewrite <- (Z.mod_mod z (2 ^ 32)) at 2 by lia.
    replace (z mod 2 ^ 32 - 2 ^ 32) with (z mod 2 ^ 32 + (-1) * 2 ^ 32) by lia.
    apply Z.mod_add. lia.
Qed.

Lemma s32_congr a b : a mod 2 ^ 32 = b mod 2 ^ 32 -> s32 a = s32 b.
Proof. unfold s32. intros ->. reflexivity. Qed.

Lemma s32_sub a b : s32 (s32 a - s32 b) = s32 (a - b).
Proof.
  apply s32_congr.
  rewrite Zminus_mod. fold (u32 (s32 a)). fold (u32 (s32 b)).
  rewrite !u32_s32. unfold u32. rewrite <- Zminus_mod. reflexivity.
Qed.

(** The result of the comparison in terms of the distance from [b1] to
    [a1] around the 32-bit circle. *)
Lemma compare_values_sign a1 b1 :
  compare_values a1 b1 =
    if a1 =? b1 then 0 else if 2 ^ 31 <=? (a1 - b1) mod 2 ^ 32 then -1 else 1.
Proof.
  unfold compare_values. destruct (a1 =? b1); [reflexivity|].
  rewrite s32_sub. unfold s32. cbv zeta.
  pose proof (Z.mod_pos_bound (a1 - b1) (2 ^ 32) ltac:(lia)).
  destruct (Z.ltb_spec ((a1 - b1) mod 2 ^ 32) (2 ^ 31));
  destruct (Z.leb_spec (2 ^ 31) ((a1 - b1) mod 2 ^ 32)); try lia.
  - destruct (Z.ltb_spec ((a1 - b1) mod 2 ^ 32) 0); lia.
  - destruct (Z.ltb_spec ((a1 - b1) mod 2 ^ 32 - 2 ^ 32) 0); lia.
Qed.

Lemma compare_values_eq a1 b1 : compare_values a1 b1 = 0 <-> a1 = b1.
Proof.
  rewrite compare_values_sign. destruct (Z.eqb_spec a1 b1).
  - tauto.
  - destruct (2 ^ 31 <=? (a1 - b1) mod 2 ^ 32); split; intros; try lia; done.
Qed.

Lemma compare_values_lt a1 b1 :
  compare_values a1 b1 = -1 <-> a1 ≠ b1 ∧ s32 (a1 - b1) < 0.
Proof.
  unfold compare_values. rewrite s32_sub. destruct (Z.eqb_spec a1 b1).
  - split; [discriminate|]. intros [? _]. done.
  - destruct (Z.ltb_spec (s32 (a1 - b1)) 0); split; try done; try lia.
Qed.

(** Two distinct [u32] values have a non-zero signed difference. *)
Lemma s32_sub_nonzero a1 b1 :
  is_u32 a1 -> is_u32 b1 -> a1 ≠ b1 -> s32 (a1 - b1) ≠ 0.
Proof.
  unfold is_u32, s32. intros Ha Hb Hne. cbv zeta.
  destruct (Z.ltb_spec ((a1 - b1) mod 2 ^ 32) (2 ^ 31)) as [Hlt|Hge].
  - intros E. apply Hne.
    destruct (Z.le_gt_cases b1 a1).
    + rewrite Z.mod_small in E by lia. lia.
    + replace (a1 - b1) with (a1 - b1 + 2 ^ 32 + (-1) * 2 ^ 32) in E by lia.
      rewrite Z.mod_add in E by lia. rewrite Z.mod_small in E by lia. lia.
  - pose proof (Z.mod_pos_bound (a1 - b1) (2 ^ 32) ltac:(lia)). lia.
Qed.

Lemma compare_values_gt a1 b1 :
  is_u32 a1 -> is_u32 b1 ->
  compare_values a1 b1 = 1 <-> a1 ≠ b1 ∧ 0 < s32 (a1 - b1).
Proof.
  intros Ha Hb. unfold compare_values. rewrite s32_sub.
  destruct (Z.eqb_spec a1 b1).
  - split; [discriminate|]. intros [? _]. done.
  - pose proof (s32_sub_nonzero a1 b1 Ha Hb n).
    destruct (Z.ltb_spec (s32 (a1 - b1)) 0); split; try done; try lia.
Qed.

(** A value [n] increments later, [0 < n < 2^31], orders after, whether
    or not the counter rolled over in between. *)
Lemma compare_values_ahead a1 n :
  is_u32 a1 -> 0 < n < 2 ^ 31 ->
  compare_values a1 (u32 (a1 + n)) = -1 ∧ compare_values (u32 (a1 + n)) a1 = 1.
Proof.
  unfold is_u32. intros Ha Hn. rewrite !compare_values_sign. unfold u32.
  assert (E1 : (a1 - (a1 + n) mod 2 ^ 32) mod 2 ^ 32 = 2 ^ 32 - n).
  { rewrite Zminus_mod_idemp_r. replace (a1 - (a1 + n)) with (2 ^ 32 - n + (-1) * 2 ^ 32) by lia.
    rewrite Z.mod_add by lia. apply Z.mod_small. lia. }
  assert (E2 : ((a1 + n) mod 2 ^ 32 - a1) mod 2 ^ 32 = n).
  { rewrite Zminus_mod_idemp_l. replace (a1 + n - a1) with n by lia.
    apply Z.mod_small. lia. }
  assert (Hne : a1 ≠ (a1 + n) mod 2 ^ 32).
  { intros E. rewrite <- E in E2. rewrite Z.sub_diag in E2.
    rewrite Z.mod_0_l in E2 by lia. lia. }
  rewrite E1, E2.
  destruct (Z.eqb_spec a1 ((a1 + n) mod 2 ^ 32)); [done|].
  destruct (Z.eqb_spec ((a1 + n) mod 2 ^ 32) a1); [done|].
  destruct (Z.leb_spec (2 ^ 31) (2 ^ 32 - n)); [|lia].
  destruct (Z.leb_spec (2 ^ 31) n); [lia|]. done.
Qed.

(** ** Tactics for running the monad *)

Ltac munfold :=
  unfold store_prim, store_kernel, store_sync_data, store_alloc_data,
    store_timeline, kfree_prim, kfree_kernel, kfree_sync_data,
    kfree_alloc_data, kfree_timeline, fd_install, pr_err, pr_warn, printk,
    load_prim, load_kernel, load_sync_data, load_alloc_data, load_timeline,
    load, get, modify, oops, ret, bind in *.

Ltac dsimpl :=
  cbn [prims kernels sync_datas alloc_datas timelines files sync_id
       timeline_list sync_pool_free_list sync_pool_active_list sync_pool_size
       sync_pool_created sync_pool_reused sync_prim_free_list waiters brk
       replies dmesg
       set_prims set_kernels set_sync_datas set_alloc_datas set_timelines
       set_files set_sync_id set_timeline_list set_sync_pool_free_list
       set_sync_pool_active_list set_sync_pool_size set_sync_pool_created
       set_sync_pool_reused set_sync_prim_free_list set_waiters set_brk
       set_replies set_dmesg] in *.

Ltac mnorm := munfold; cbv beta iota zeta; dsimpl.

(** Rewrite with a lookup and reduce what it unblocks. *)
Tactic Notation "mrw" constr(H) := rewrite H; cbv beta iota zeta; dsimpl.

(** Inversion of a run that returned. *)

Lemma bind_inv {A B} (m : M A) (k : A -> M B) d b d' :
  bind m k d = Ok b d' -> ∃ a d1, m d = Ok a d1 ∧ k a d1 = Ok b d'.
Proof. unfold bind. destruct (m d) as [a d1|]; [eauto | discriminate]. Qed.

Lemma ret_inv {A} (a b : A) d d' : ret a d = Ok b d' -> b = a ∧ d' = d.
Proof. unfold ret. intros [= -> ->]. done. Qed.

Lemma get_inv {A} (f : driver -> A) d b d' :
  get f d = Ok b d' -> b = f d ∧ d' = d.
Proof. unfold get. intros [= <- <-]. done. Qed.

Lemma modify_inv f d (b : unit) d' : modify f d = Ok b d' -> d' = f d.
Proof. unfold modify. intros [= _ <-]. done. Qed.

Lemma oops_inv {A} d (b : A) d' : oops d = Ok b d' -> False.
Proof. discriminate. Qed.

Lemma load_inv {A} (heap : driver -> gmap N A) p d b d' :
  load heap p d = Ok b d' -> heap d !! p = Some b ∧ d' = d.
Proof.
  unfold load. destruct (heap d !! p); [|discriminate].
  intros [= -> ->]. done.
Qed.

Lemma reply_eq d :
  reply d = Ok (hd 0 (replies d)) (set_replies (tail (replies d)) d).
Proof.
  unfold reply. destruct d as [? ? ? ? ? ? ? ? ? ? ? ? ? ? ? ? r ?].
  destruct r; reflexivity.
Qed.

Lemma reply_inv d r d' :
  reply d = Ok r d' ->
  r = hd 0 (replies d) ∧ d' = set_replies (tail (replies d)) d.
Proof. rewrite reply_eq. intros [= <- <-]. done. Qed.

Ltac munfold_in H :=
  unfold store_prim, store_kernel, store_sync_data, store_alloc_data,
    store_timeline, kfree_prim, kfree_kernel, kfree_sync_data,
    kfree_alloc_data, kfree_timeline, fd_install, pr_err, pr_warn, printk,
    load_prim, load_kernel, load_sync_data, load_alloc_data, load_timeline
    in H.

(** [minv H] takes [H : m d = Ok r d'] apart along the structure of [m];
    calls of named functions are left as hypotheses. *)
Ltac minv H :=
  cbv beta zeta in H;
  lazymatch type of H with
  | bind _ _ _ = Ok _ _ =>
      let a := fresh "a" in let d1 := fresh "d" in
      let H1 := fresh "H" in let H2 := fresh "H" in
      apply bind_inv in H; destruct H as (a & d1 & H1 & H2);
      cbv beta in H2; minv H1; minv H2
  | ret _ _ = Ok _ _ =>
      apply ret_inv in H; destruct H as [? ?]; simplify_eq
  | get _ _ = Ok _ _ =>
      apply get_inv in H; destruct H as [? ?]; subst
  | modify _ _ = Ok _ _ =>
      apply modify_inv in H; subst
  | oops _ = Ok _ _ => destruct (oops_inv _ _ _ H)
  | load _ _ _ = Ok _ _ =>
      let E := fresh "Hld" in
      apply load_inv in H; destruct H as [E ?]; subst
  | reply _ = Ok _ _ =>
      apply reply_inv in H; destruct H as [? ?]; subst
  | (if ?c then _ else _) _ = Ok _ _ =>
      let E := fresh "Hc" in destruct c eqn:E; minv H
  | (match ?x with _ => _ end) _ = Ok _ _ =>
      let E := fresh "Hm" in destruct x eqn:E; minv H
  | Oops = Ok _ _ => discriminate H
  | Ok _ _ = Ok _ _ => simplify_eq
  | _ => idtac
  end.

(** ** Prim values *)

Lemma is_sync_met_eq d sync s :
  prims d !! sync = Some s ->
  is_sync_met sync d = Ok (client_sync s =? next_value s) d.
Proof. intros H. unfold is_sync_met. mnorm. mrw H. reflexivity. Qed.

Lemma complete_sync_eq d sync s :
  prims d !! sync = Some s ->
  complete_sync sync d =
    Ok tt (set_prims (<[sync := with_client_sync (next_value s) s]> (prims d)) d).
Proof. intros H. unfold complete_sync. mnorm. mrw H. reflexivity. Qed.

Lemma set_sync_value_eq d sync s v :
  prims d !! sync = Some s ->
  set_sync_value sync v d =
    Ok tt (set_prims (<[sync := with_client_sync v s]> (prims d)) d).
Proof. intros H. unfold set_sync_value. mnorm. mrw H. reflexivity. Qed.

(** ** Ordering of points *)

Lemma timeline_update_value_of_eq d parent status sd data :
  sync_datas d !! sd = Some data ->
  timeline_update_value_of (pvr_sync_pt parent status sd) d =
    Ok (timeline_update_value data) d.
Proof. intros H. unfold timeline_update_value_of. mnorm. mrw H. reflexivity. Qed.

Lemma compare_values_swap a b :
  is_u32 a -> is_u32 b ->
  (u32 (a - b) = 2 ^ 31 ->
   compare_values a b = -1 ∧ compare_values b a = -1) ∧
  (u32 (a - b) ≠ 2 ^ 31 -> compare_values b a = - compare_values a b).
Proof.
  unfold is_u32, u32. intros Ha Hb. rewrite !compare_values_sign.
  destruct (Z.eqb_spec a b) as [->|Hne].
  - rewrite Z.eqb_refl, Z.sub_diag. cbn. split; [discriminate|reflexivity].
  - destruct (Z.eqb_spec b a) as [E|_]; [congruence|].
    assert (Hab : (a - b) mod 2 ^ 32 = if a <? b then a - b + 2 ^ 32 else a - b).
    { destruct (Z.ltb_spec a b).
      - symmetry. apply (Z.mod_unique_pos _ _ (-1)); lia.
      - apply Z.mod_small. lia. }
    assert (Hba : (b - a) mod 2 ^ 32 = if b <? a then b - a + 2 ^ 32 else b - a).
    { destruct (Z.ltb_spec b a).
      - symmetry. apply (Z.mod_unique_pos _ _ (-1)); lia.
      - apply Z.mod_small. lia. }
    rewrite Hab, Hba.
    destruct (Z.ltb_spec a b); destruct (Z.ltb_spec b a); try lia.
    + split; intros H1;
        destruct (Z.leb_spec (2 ^ 31) (a - b + 2 ^ 32));
        destruct (Z.leb_spec (2 ^ 31) (b - a)); try reflexivity; try lia; auto.
    + split; intros H1;
        destruct (Z.leb_spec (2 ^ 31) (a - b));
        destruct (Z.leb_spec (2 ^ 31) (b - a + 2 ^ 32)); try reflexivity; try lia; auto.
Qed.

(** C4, amended.  [pvr_sync_compare] returns 0 exactly when the two
    [timeline_update_value]s are equal; otherwise it returns -1 or 1 by
    the sign of their difference read as a signed 32-bit number.  A
    point whose value is [n] increments later, [0 < n < 2^31], orders
    after, also across the rollover of the counter, and the comparison
    in the other direction says the same; [0xFFFFFFF0] orders before
    [0x00000010].  The two directions agree for every pair of values
    except those exactly [2^31] apart: for these the signed difference
    is [-2^31] either way and each point orders before the other. *)
Theorem pvr_sync_compare_wraparound d pa sa sda pb sb sdb da db :
  sync_datas d !! sda = Some da ->
  sync_datas d !! sdb = Some db ->
  is_u32 (timeline_update_value da) ->
  is_u32 (timeline_update_value db) ->
  ∃ c c',
    pvr_sync_compare (pvr_sync_pt pa sa sda) (pvr_sync_pt pb sb sdb) d = Ok c d ∧
    pvr_sync_compare (pvr_sync_pt pb sb sdb) (pvr_sync_pt pa sa sda) d = Ok c' d ∧
    (c = 0 <-> timeline_update_value da = timeline_update_value db) ∧
    (c = -1 <-> timeline_update_value da ≠ timeline_update_value db ∧
                s32 (timeline_update_value da - timeline_update_value db) < 0) ∧
    (c = 1 <-> timeline_update_value da ≠ timeline_update_value db ∧
               0 < s32 (timeline_update_value da - timeline_update_value db)) ∧
    (∀ n, 0 < n < 2 ^ 31 ->
       timeline_update_value db = u32 (timeline_update_value da + n) ->
       c = -1 ∧ c' = 1) ∧
    (∀ n, 0 < n < 2 ^ 31 ->
       timeline_update_value da = u32 (timeline_update_value db + n) ->
       c = 1 ∧ c' = -1) ∧
    (timeline_update_value da = 0xFFFFFFF0 ->
       timeline_update_value db = 0x00000010 -> c = -1 ∧ c' = 1) ∧
    (u32 (timeline_update_value da - timeline_update_value db) ≠ 2 ^ 31 ->
       c' = - c) ∧
    (u32 (timeline_update_value da - timeline_update_value db) = 2 ^ 31 ->
       c = -1 ∧ c' = -1).
Proof.
  intros Ha Hb Ua Ub.
  exists (compare_values (timeline_update_value da) (timeline_update_value db)),
         (compare_values (timeline_update_value db) (timeline_update_value da)).
  destruct (compare_values_swap _ _ Ua Ub) as [Hhalf Hswap].
  assert (Hahead : ∀ x y n, is_u32 x -> is_u32 y -> 0 < n < 2 ^ 31 ->
            y = u32 (x + n) ->
            compare_values x y = -1 ∧ compare_values y x = 1).
  { intros x y n Ux Uy Hn ->.
    pose proof (compare_values_ahead x n Ux Hn) as [H1 H2]. auto. }
  split; [|split; [|split; [|split; [|split; [|split; [|split; [|split;
    [|split]]]]]]]].
  - unfold pvr_sync_compare. mnorm.
    rewrite (timeline_update_value_of_eq _ _ _ _ _ Ha). cbv beta iota.
    rewrite (timeline_update_value_of_eq _ _ _ _ _ Hb). reflexivity.
  - unfold pvr_sync_compare. mnorm.
    rewrite (timeline_update_value_of_eq _ _ _ _ _ Hb). cbv beta iota.
    rewrite (timeline_update_value_of_eq _ _ _ _ _ Ha). reflexivity.
  - apply compare_values_eq.
  - apply compare_values_lt.
  - apply compare_values_gt; assumption.
  - intros n Hn E. exact (Hahead _ _ n Ua Ub Hn E).
  - intros n Hn E. destruct (Hahead _ _ n Ub Ua Hn E). auto.
  - intros -> ->. split; reflexivity.
  - exact Hswap.
  - exact Hhalf.
Qed.

Lemma pvr_sync_compare_rollover :
  pvr_sync_compare (pvr_sync_pt 1 0 1) (pvr_sync_pt 1 0 2) rollover_driver
  = Ok (-1) rollover_driver ∧
  pvr_sync_compare (pvr_sync_pt 1 0 2) (pvr_sync_pt 1 0 1) rollover_driver
  = Ok 1 rollover_driver.
Proof.
  destruct (pvr_sync_compare_wraparound rollover_driver 1 0 1 1 0 2
              {| kernel := NULL; timeline_fence_value := 0xFFFFFFEF;
                 timeline_update_value := 0xFFFFFFF0; refcount := 1 |}
              {| kernel := NULL; timeline_fence_value := 0x0000000F;
                 timeline_update_value := 0x00000010; refcount := 1 |})
    as (c & c' & Hc & Hc' & _ & _ & _ & _ & _ & Hex & _).
  - vm_compute; reflexivity.
  - vm_compute; reflexivity.
  - vm_compute. split; [discriminate | reflexivity].
  - vm_compute. split; [discriminate | reflexivity].
  - destruct Hex as [-> ->]; [reflexivity..|]. split; assumption.
Defined.

(** C4, as it is stated, fails for two values half the range apart: the
    point with value [0] orders before the point with value
    [0x80000000], and that one orders before the point with value [0]. *)
Lemma pvr_sync_compare_half_range :
  pvr_sync_compare (pvr_sync_pt 1 0 1) (pvr_sync_pt 1 0 2) half_range_driver
  = Ok (-1) half_range_driver ∧
  pvr_sync_compare (pvr_sync_pt 1 0 2) (pvr_sync_pt 1 0 1) half_range_driver
  = Ok (-1) half_range_driver.
Proof. split; vm_compute; reflexivity. Qed.

(** ** Queries in update mode *)

Lemma fdget_alloc d fd a :
  files d !! fd = Some (alloc_sync_file a) ->
  pvr_sync_alloc_fence_fdget fd d = Ok a d.
Proof.
  intros H. unfold pvr_sync_alloc_fence_fdget. mnorm. mrw H. reflexivity.
Qed.

Lemma enough_space max_entries nf nu q :
  is_u32 max_entries -> 0 <= fence_num q -> 0 <= update_num q ->
  0 <= nf -> 0 <= nu ->
  fence_num q + nf <= max_entries -> update_num q + nu <= max_entries ->
  too_little_space max_entries nf nu q = false.
Proof.
  unfold is_u32, too_little_space. intros.
  rewrite !u32_id by (unfold is_u32; lia).
  apply orb_false_intro; apply Z.ltb_ge; lia.
Qed.

(** C1.  A query in update mode on an fd that is an alloc sync still
    carrying its sync data, with room for one more fence entry and two
    more update entries, returns [PVRSRV_OK] and appends: to the update
    arrays the address of the alloc sync's fence prim with that prim's
    [next_value] plus one (and the prim's [next_value] becomes that
    value); to the fence arrays the address of the timeline prim with the
    recorded [timeline_fence_value]; to the update arrays the address of
    the timeline prim with the recorded [timeline_update_value].  The
    fence count grows by 1, the update count by 2, the timeline's
    [fencing_enabled] becomes false, and nothing else changes. *)
Theorem pvr_sync_query_sync_update_appends
    d fd max_entries q a ad data k fs tl ts :
  files d !! fd = Some (alloc_sync_file a) ->
  a ≠ NULL ->
  alloc_datas d !! a = Some ad ->
  sync_data ad ≠ NULL ->
  sync_datas d !! sync_data ad = Some data ->
  kernels d !! kernel data = Some k ->
  prims d !! fence_sync k = Some fs ->
  timelines d !! timeline ad = Some tl ->
  prims d !! timeline_sync tl = Some ts ->
  is_u32 max_entries -> 0 <= fence_num q -> 0 <= update_num q ->
  fence_num q + 1 <= max_entries ->
  update_num q + 2 <= max_entries ->
  pvr_sync_query_sync_update fd max_entries q d =
    Ok (PVRSRV_OK, query_sync_update_buffers q fs ts data)
       (set_timelines
          (<[timeline ad := {| obj_name := obj_name tl;
                               timeline_sync := timeline_sync tl;
                               fencing_enabled := false |}]> (timelines d))
          (set_prims
             (<[fence_sync k := with_next_value (u32 (next_value fs + 1)) fs]>
                (prims d)) d)).
Proof.
  intros Hf Ha Had Hsd Hdata Hk Hfs Htl Hts Hmax Hfn Hun Hf1 Hu2.
  unfold pvr_sync_query_sync_update. mnorm.
  rewrite (fdget_alloc _ _ _ Hf). cbv beta iota.
  apply N.eqb_neq in Ha. apply N.eqb_neq in Hsd.
  mrw Ha. mrw Had. mrw Hsd. mrw Hdata.
  rewrite (enough_space max_entries 1 2 q) by (assumption || lia).
  cbv beta iota. mrw Hk. mrw Hfs. mrw Htl.
  assert (Hts' : ∃ ts',
             <[fence_sync k := with_next_value (u32 (next_value fs + 1)) fs]>
               (prims d) !! timeline_sync tl = Some ts' ∧ vaddr ts' = vaddr ts).
  { destruct (decide (fence_sync k = timeline_sync tl)) as [E|E].
    - rewrite E. rewrite lookup_insert_eq. eexists; split; [reflexivity|].
      rewrite E in Hfs. rewrite Hfs in Hts. injection Hts as ->. reflexivity.
    - rewrite lookup_insert_ne by exact E. eauto. }
  destruct Hts' as (ts' & Hts' & Hv). mrw Hts'.
  unfold query_sync_update_buffers, push_update, push_fence.
  cbn [fence_ufo_address fence_value fence_num update_ufo_address
       update_value update_num].
  rewrite Hv. unfold is_u32 in Hmax.
  rewrite (u32_id (fence_num q + 1)) by (unfold is_u32; lia).
  rewrite (u32_id (update_num q + 1)) by (unfold is_u32; lia).
  rewrite (u32_id (update_num q + 1 + 1)) by (unfold is_u32; lia).
  replace (update_num q + 1 + 1) with (update_num q + 2) by lia.
  reflexivity.
Qed.

(** On the concrete run: the alloc sync behind fd 3, empty buffers of
    eight entries. *)
Lemma pvr_sync_query_sync_update_demo :
  pvr_sync_query_sync_update 3 8 empty_buffers demo_alloc =
    Ok (PVRSRV_OK,
        {| fence_ufo_address := {[ 0 := 4096 ]};
           fence_value := {[ 0 := 0 ]};
           fence_num := 1;
           update_ufo_address := <[ 1 := 4096 ]> {[ 0 := 8192 ]};
           update_value := <[ 1 := 1 ]> {[ 0 := 1 ]};
           update_num := 2 |})
       demo_update.
Proof.
  rewrite (pvr_sync_query_sync_update_appends demo_alloc 3 8 empty_buffers 3
             {| sync_data := 4; timeline := 1 |}
             {| kernel := 5; timeline_fence_value := 0;
                timeline_update_value := 1; refcount := 1 |}
             {| fence_sync := 6; cleanup_sync := 0 |}
             {| client_sync := 0; next_value := 0; id := 2; vaddr := 8192;
                type := 1; class := "tl" |}
             {| obj_name := "tl"; timeline_sync := 2; fencing_enabled := true |}
             {| client_sync := 0; next_value := 1; id := 1; vaddr := 4096;
                type := 0; class := "tl" |});
    try (vm_compute; reflexivity); try discriminate.
  - vm_compute. split; [discriminate | reflexivity].
Defined.

Lemma fdget_alloc_inv d fd a d' :
  pvr_sync_alloc_fence_fdget fd d = Ok a d' ->
  d' = d ∧ (a = NULL ∨ files d !! fd = Some (alloc_sync_file a)).
Proof.
  intros H. unfold pvr_sync_alloc_fence_fdget in H. minv H; eauto.
Qed.

Lemma kmalloc_inv d p d' :
  kmalloc d = Ok p d' ->
  (p = NULL ∧ d' = set_replies (tail (replies d)) d) ∨
  (p = N.succ (brk d) ∧
   d' = set_brk (N.succ (brk d)) (set_replies (tail (replies d)) d)).
Proof.
  intros H. unfold kmalloc in H. minv H.
  - left. done.
  - right. done.
Qed.

Lemma pvr_sync_create_sync_some d tl sd pt d' :
  pvr_sync_create_sync tl sd d = Ok (Some pt) d' ->
  pt = pvr_sync_pt tl 0 sd ∧
  d' = set_brk (N.succ (brk d)) (set_replies (tail (replies d)) d).
Proof.
  intros H. unfold pvr_sync_create_sync in H. munfold_in H.
  apply bind_inv in H. destruct H as (p & d1 & Hk & H).
  apply kmalloc_inv in Hk. destruct Hk as [[-> ->]|[-> ->]].
  - rewrite N.eqb_refl in H. minv H.
  - replace (N.succ (brk d) =? NULL)%N with false in H
      by (symmetry; apply N.eqb_neq; unfold NULL; lia).
    minv H. done.
Qed.

(** A successful create-fence leaves the alloc sync it was given without
    sync data. *)
Lemma pvr_sync_ioctl_create_fence_converts d tl fd nm a ad fd' d' :
  files d !! fd = Some (alloc_sync_file a) ->
  alloc_datas d !! a = Some ad ->
  pvr_sync_ioctl_create_fence tl fd nm d = Ok (0, Some fd') d' ->
  alloc_datas d' !! a = Some {| sync_data := NULL; timeline := timeline ad |} ∧
  (fd' ≠ fd -> files d' !! fd = Some (alloc_sync_file a)).
Proof.
  intros Hf Ha H. unfold pvr_sync_ioctl_create_fence in H. munfold_in H.
  minv H. dsimpl.
  apply fdget_alloc_inv in H. destruct H as [-> Hfd]. dsimpl.
  destruct Hfd as [->|Hfd]; [rewrite N.eqb_refl in Hc2; discriminate|].
  rewrite Hf in Hfd. injection Hfd as <-.
  rewrite Ha in Hld. injection Hld as <-.
  apply pvr_sync_create_sync_some in H0. destruct H0 as [-> ->]. dsimpl.
  split.
  - apply lookup_insert_eq.
  - intros Hne. rewrite lookup_insert_ne by exact Hne. exact Hf.
Qed.

(** C10.  A query in update mode on an alloc sync whose [sync_data] is
    [NULL], as create-fence leaves it, returns
    [PVRSRV_ERROR_RESOURCE_UNAVAILABLE]; the counters and the arrays of
    the caller are as they were, and so is every object of the driver,
    the timeline and its prim among them (the message of [pr_err] is the
    only change of the state). *)
Theorem pvr_sync_query_sync_update_created d fd max_entries q a ad :
  files d !! fd = Some (alloc_sync_file a) ->
  a ≠ NULL ->
  alloc_datas d !! a = Some ad ->
  sync_data ad = NULL ->
  ∃ d',
    pvr_sync_query_sync_update fd max_entries q d =
      Ok (PVRSRV_ERROR_RESOURCE_UNAVAILABLE, q) d' ∧
    prims d' = prims d ∧ timelines d' = timelines d ∧
    sync_datas d' = sync_datas d ∧ kernels d' = kernels d ∧
    alloc_datas d' = alloc_datas d ∧ files d' = files d.
Proof.
  intros Hf Ha Had Hsd. eexists. split.
  - unfold pvr_sync_query_sync_update. mnorm.
    rewrite (fdget_alloc _ _ _ Hf). cbv beta iota.
    apply N.eqb_neq in Ha. mrw Ha. mrw Had. rewrite Hsd.
    rewrite N.eqb_refl. reflexivity.
  - dsimpl. done.
Qed.

(** On the concrete run: fd 3 after the fence was created from it. *)
Lemma pvr_sync_query_sync_update_created_demo :
  ∃ d',
    pvr_sync_query_sync_update 3 8 empty_buffers demo_create =
      Ok (PVRSRV_ERROR_RESOURCE_UNAVAILABLE, empty_buffers) d' ∧
    prims d' = prims demo_create ∧ timelines d' = timelines demo_create ∧
    sync_datas d' = sync_datas demo_create ∧
    kernels d' = kernels demo_create ∧
    alloc_datas d' = alloc_datas demo_create ∧ files d' = files demo_create.
Proof.
  apply (pvr_sync_query_sync_update_created demo_create 3 8 empty_buffers 3
           {| sync_data := NULL; timeline := 1 |}).
  - vm_compute; reflexivity.
  - discriminate.
  - vm_compute; reflexivity.
  - reflexivity.
Defined.

(** ** Room in the caller's buffers *)

Lemma same_beyond_refl max_entries q : same_beyond max_entries q q.
Proof. intros i _. done. Qed.

Lemma same_beyond_trans max_entries q1 q2 q3 :
  same_beyond max_entries q1 q2 -> same_beyond max_entries q2 q3 ->
  same_beyond max_entries q1 q3.
Proof.
  intros H12 H23 i Hi. destruct (H12 i Hi) as (?&?&?&?).
  destruct (H23 i Hi) as (?&?&?&?). repeat split; congruence.
Qed.

Lemma space_left max_entries nf nu q :
  is_u32 max_entries -> within max_entries q ->
  too_little_space max_entries nf nu q = false ->
  fence_num q + nf <= max_entries ∧ update_num q + nu <= max_entries.
Proof.
  unfold is_u32, within, too_little_space. intros Hm [Hf Hu] H.
  apply orb_false_elim in H. destruct H as [H1 H2].
  rewrite u32_id in H1 by (unfold is_u32; lia).
  rewrite u32_id in H2 by (unfold is_u32; lia).
  apply Z.ltb_ge in H1. apply Z.ltb_ge in H2. lia.
Qed.

Lemma no_space_left max_entries nf nu q :
  is_u32 max_entries -> within max_entries q ->
  max_entries - fence_num q < nf ∨ max_entries - update_num q < nu ->
  too_little_space max_entries nf nu q = true.
Proof.
  unfold is_u32, within, too_little_space. intros Hm [Hf Hu] H.
  rewrite !u32_id by (unfold is_u32; lia).
  apply orb_true_iff. destruct H; [left|right]; apply Z.ltb_lt; lia.
Qed.

Lemma push_fence_within max_entries addr v q :
  is_u32 max_entries -> within max_entries q ->
  fence_num q + 1 <= max_entries ->
  within max_entries (push_fence addr v q) ∧
  same_beyond max_entries q (push_fence addr v q).
Proof.
  unfold is_u32, within. intros Hm [Hf Hu] H. split.
  - unfold push_fence. cbn. rewrite u32_id by (unfold is_u32; lia). lia.
  - intros i Hi. unfold push_fence. cbn.
    rewrite !lookup_insert_ne by lia. done.
Qed.

Lemma push_update_within max_entries addr v q :
  is_u32 max_entries -> within max_entries q ->
  update_num q + 1 <= max_entries ->
  within max_entries (push_update addr v q) ∧
  same_beyond max_entries q (push_update addr v q).
Proof.
  unfold is_u32, within. intros Hm [Hf Hu] H. split.
  - unfold push_update. cbn. rewrite u32_id by (unfold is_u32; lia). lia.
  - intros i Hi. unfold push_update. cbn.
    rewrite !lookup_insert_ne by lia. done.
Qed.

Lemma bounded_refl max_entries q : within max_entries q -> bounded max_entries q q.
Proof. intros. split; [assumption | apply same_beyond_refl]. Qed.

Lemma bounded_trans max_entries q1 q2 q3 :
  bounded max_entries q1 q2 -> bounded max_entries q2 q3 ->
  bounded max_entries q1 q3.
Proof.
  intros [_ B1] [W2 B2]. split; [assumption|].
  eapply same_beyond_trans; eassumption.
Qed.

Lemma bounded_push_fence max_entries addr v q0 q :
  is_u32 max_entries -> bounded max_entries q0 q ->
  fence_num q + 1 <= max_entries ->
  bounded max_entries q0 (push_fence addr v q).
Proof.
  intros Hm [W B] H.
  destruct (push_fence_within max_entries addr v q Hm W H) as [W' B'].
  split; [assumption|]. eapply same_beyond_trans; eassumption.
Qed.

Lemma bounded_push_update max_entries addr v q0 q :
  is_u32 max_entries -> bounded max_entries q0 q ->
  update_num q + 1 <= max_entries ->
  bounded max_entries q0 (push_update addr v q).
Proof.
  intros Hm [W B] H.
  destruct (push_update_within max_entries addr v q Hm W H) as [W' B'].
  split; [assumption|]. eapply same_beyond_trans; eassumption.
Qed.

Ltac push_bounds Hm Hq :=
  repeat first
    [ apply bounded_refl; assumption
    | apply bounded_push_fence; [exact Hm | | ]
    | apply bounded_push_update; [exact Hm | | ] ];
  try (cbn [fence_num update_num push_fence push_update];
       unfold is_u32, within in *;
       rewrite ?u32_id by (unfold is_u32; lia); lia).

Lemma query_sync_update_bounded max_entries fd q d e q' d' :
  is_u32 max_entries -> within max_entries q ->
  pvr_sync_query_sync_update fd max_entries q d = Ok (e, q') d' ->
  bounded max_entries q q'.
Proof.
  intros Hm Hq H. unfold pvr_sync_query_sync_update in H. munfold_in H.
  minv H; try (apply bounded_refl; assumption).
  apply (space_left _ _ _ _ Hm Hq) in Hc1. destruct Hc1 as [Hf Hu].
  push_bounds Hm Hq.
Qed.

Lemma query_sync_check_pt_bounded max_entries pt have q d r have' q' d' :
  is_u32 max_entries -> within max_entries q ->
  query_sync_check_pt max_entries pt have q d = Ok (r, have', q') d' ->
  bounded max_entries q q'.
Proof.
  intros Hm Hq H. unfold query_sync_check_pt in H. munfold_in H.
  minv H; try (apply bounded_refl; assumption).
  all: match goal with
       | Hs : too_little_space _ _ _ _ = false |- _ =>
           apply (space_left _ _ _ _ Hm Hq) in Hs; destruct Hs as [Hf Hu]
       end.
  all: push_bounds Hm Hq.
Qed.

Lemma query_sync_check_pts_bounded max_entries pts : ∀ have q d r have' q' d',
  is_u32 max_entries -> within max_entries q ->
  query_sync_check_pts max_entries pts have q d = Ok (r, have', q') d' ->
  bounded max_entries q q'.
Proof.
  induction pts as [|pt rest IH]; intros have q d r have' q' d' Hm Hq H.
  - cbn in H. minv H. apply bounded_refl; assumption.
  - cbn [query_sync_check_pts] in H.
    apply bind_inv in H. destruct H as ([[r1 h1] q1] & d1 & H1 & H2).
    apply query_sync_check_pt_bounded in H1; [|assumption..].
    destruct r1 as [e|].
    + minv H2. assumption.
    + eapply bounded_trans; [exact H1|].
      eapply IH; [exact Hm | apply H1 | exact H2].
Qed.

Lemma query_sync_check_bounded max_entries fd q d e q' d' :
  is_u32 max_entries -> within max_entries q ->
  pvr_sync_query_sync_check fd max_entries q d = Ok (e, q') d' ->
  bounded max_entries q q'.
Proof.
  intros Hm Hq H. unfold pvr_sync_query_sync_check in H. munfold_in H.
  apply bind_inv in H. destruct H as (f & d1 & _ & H).
  destruct f as [fence|]; [|minv H; apply bounded_refl; assumption].
  apply bind_inv in H. destruct H as ([[r1 h1] q1] & d2 & H1 & H2).
  apply query_sync_check_pts_bounded in H1; [|assumption..].
  destruct r1 as [e1|]; [minv H2; assumption|].
  destruct h1; [|minv H2; assumption].
  minv H2; try assumption.
  match goal with
  | Hs : too_little_space _ _ _ _ = false |- _ =>
      apply (space_left _ _ _ _ Hm (proj1 H1)) in Hs; destruct Hs as [Hf Hu]
  end.
  destruct H1 as [W1 B1].
  repeat first
    [ assumption
    | split; assumption
    | apply bounded_push_fence; [exact Hm | | ]
    | apply bounded_push_update; [exact Hm | | ] ];
  try (cbn [fence_num update_num push_fence push_update];
       unfold is_u32, within in *;
       rewrite ?u32_id by (unfold is_u32; lia); lia).
Qed.

Lemma query_fences_bounded max_entries update fds : ∀ q d e q' d',
  is_u32 max_entries -> within max_entries q ->
  pvr_sync_query_fences fds update max_entries q d = Ok (e, q') d' ->
  bounded max_entries q q'.
Proof.
  induction fds as [|fd rest IH]; intros q d e q' d' Hm Hq H.
  - cbn in H. minv H. apply bounded_refl; assumption.
  - cbn [pvr_sync_query_fences] in H.
    apply bind_inv in H. destruct H as ([e1 q1] & d1 & H1 & H2).
    assert (B1 : bounded max_entries q q1).
    { unfold pvr_sync_query_fence in H1. destruct update.
      - eapply query_sync_update_bounded; eassumption.
      - eapply query_sync_check_bounded; eassumption. }
    destruct e1; try (munfold_in H2; minv H2; assumption).
    eapply bounded_trans; [exact B1|].
    eapply IH; [exact Hm | apply B1 | exact H2].
Qed.

Lemma query_sync_update_no_space d fd max_entries q a ad data :
  is_u32 max_entries -> within max_entries q ->
  files d !! fd = Some (alloc_sync_file a) ->
  a ≠ NULL ->
  alloc_datas d !! a = Some ad ->
  sync_data ad ≠ NULL ->
  sync_datas d !! sync_data ad = Some data ->
  max_entries - fence_num q < 1 ∨ max_entries - update_num q < 2 ->
  pvr_sync_query_sync_update fd max_entries q d = Ok (PVRSRV_OK, q) (warned d).
Proof.
  intros Hm Hq Hf Ha Had Hsd Hdata Hno.
  unfold pvr_sync_query_sync_update. mnorm.
  rewrite (fdget_alloc _ _ _ Hf). cbv beta iota.
  apply N.eqb_neq in Ha. apply N.eqb_neq in Hsd.
  mrw Ha. mrw Had. mrw Hsd. mrw Hdata.
  rewrite (no_space_left _ _ _ _ Hm Hq Hno). reflexivity.
Qed.

Lemma unsatisfied_inv d pt :
  unsatisfied d pt = true ->
  ∃ parent status sd data k fs,
    pt = pvr_sync_pt parent status sd ∧
    sync_datas d !! sd = Some data ∧ (kernel data =? NULL)%N = false ∧
    kernels d !! kernel data = Some k ∧ prims d !! fence_sync k = Some fs ∧
    (client_sync fs =? next_value fs) = false.
Proof.
  unfold unsatisfied, fence_prim_of. destruct pt as [parent status sd|]; [|discriminate].
  destruct (sync_datas d !! sd) as [data|] eqn:Hd; [|discriminate]. cbn.
  destruct (kernel data =? NULL)%N eqn:Hk; [discriminate|].
  destruct (kernels d !! kernel data) as [k|] eqn:Hkp; [|discriminate]. cbn.
  destruct (prims d !! fence_sync k) as [fs|] eqn:Hfs; [|discriminate].
  intros H. apply negb_true_iff in H. eauto 12.
Qed.

Lemma query_sync_check_pt_no_space d max_entries pt have q :
  is_u32 max_entries -> within max_entries q ->
  unsatisfied d pt = true ->
  max_entries - fence_num q < 1 ∨ max_entries - update_num q < 1 ->
  query_sync_check_pt max_entries pt have q d =
    Ok (Some PVRSRV_OK, have, q) (warned d).
Proof.
  intros Hm Hq Hu Hno.
  apply unsatisfied_inv in Hu.
  destruct Hu as (parent & status & sd & data & k & fs & -> & Hd & Hk & Hkp & Hfs & Hne).
  unfold query_sync_check_pt. mnorm. mrw Hd. mrw Hk. mrw Hkp.
  rewrite (is_sync_met_eq _ _ _ Hfs). cbv beta iota. rewrite Hne.
  rewrite (no_space_left _ _ _ _ Hm Hq Hno). reflexivity.
Qed.

Lemma query_sync_check_pts_app max_entries pre : ∀ l have q d have1 q1 d1,
  query_sync_check_pts max_entries pre have q d = Ok (None, have1, q1) d1 ->
  query_sync_check_pts max_entries (pre ++ l) have q d =
    query_sync_check_pts max_entries l have1 q1 d1.
Proof.
  induction pre as [|pt pre IH]; intros l have q d have1 q1 d1 H.
  - cbn in H. minv H. reflexivity.
  - cbn [query_sync_check_pts app] in *.
    apply bind_inv in H. destruct H as ([[r h] q2] & d2 & H1 & H2).
    unfold bind at 1. rewrite H1.
    destruct r as [e|].
    + minv H2.
    + eapply IH. exact H2.
Qed.

Lemma sync_fence_fdget_eq d fd fence :
  files d !! fd = Some (sync_fence_file fence) ->
  sync_fence_fdget fd d = Ok (Some fence) d.
Proof. intros H. unfold sync_fence_fdget. mnorm. mrw H. reflexivity. Qed.

(** C9.  With the counters within [max_entries]: a query in update mode
    that finds room for fewer than one fence entry or two update entries,
    and a query in check mode that reaches an unsatisfied point (or the
    shadow of the foreign points) with room for fewer than one entry of
    either kind, stops there, logs the warning and nothing else, and
    returns [PVRSRV_OK] with the buffers as accumulated so far; and no
    run of [pvr_sync_query_fences] moves a counter past [max_entries] or
    writes a cell at or past index [max_entries]. *)
Theorem pvr_sync_query_soft_overflow max_entries q :
  is_u32 max_entries ->
  within max_entries q ->
  (∀ d fd a ad data,
     files d !! fd = Some (alloc_sync_file a) ->
     a ≠ NULL ->
     alloc_datas d !! a = Some ad ->
     sync_data ad ≠ NULL ->
     sync_datas d !! sync_data ad = Some data ->
     max_entries - fence_num q < 1 ∨ max_entries - update_num q < 2 ->
     pvr_sync_query_fence fd true max_entries q d =
       Ok (PVRSRV_OK, q) (warned d)) ∧
  (∀ d fd fence pre pt post have q1 d1,
     files d !! fd = Some (sync_fence_file fence) ->
     pt_list_head fence = pre ++ pt :: post ->
     query_sync_check_pts max_entries pre false q d = Ok (None, have, q1) d1 ->
     unsatisfied d1 pt = true ->
     max_entries - fence_num q1 < 1 ∨ max_entries - update_num q1 < 1 ->
     pvr_sync_query_fence fd false max_entries q d =
       Ok (PVRSRV_OK, q1) (warned d1)) ∧
  (∀ d fd fence q1 d1,
     files d !! fd = Some (sync_fence_file fence) ->
     query_sync_check_pts max_entries (pt_list_head fence) false q d =
       Ok (None, true, q1) d1 ->
     max_entries - fence_num q1 < 1 ∨ max_entries - update_num q1 < 1 ->
     pvr_sync_query_fence fd false max_entries q d =
       Ok (PVRSRV_OK, q1) (warned d1)) ∧
  (∀ fds update d e q' d',
     pvr_sync_query_fences fds update max_entries q d = Ok (e, q') d' ->
     bounded max_entries q q').
Proof.
  intros Hm Hq. split; [|split; [|split]].
  - intros d fd a ad data Hf Ha Had Hsd Hdata Hno.
    unfold pvr_sync_query_fence.
    eapply query_sync_update_no_space; eassumption.
  - intros d fd fence pre pt post have q1 d1 Hf Hpts Hpre Hu Hno.
    assert (W1 : within max_entries q1)
      by (eapply query_sync_check_pts_bounded; eassumption).
    unfold pvr_sync_query_fence, pvr_sync_query_sync_check. unfold bind at 1.
    rewrite (sync_fence_fdget_eq _ _ _ Hf). rewrite Hpts.
    unfold bind at 1.
    rewrite (query_sync_check_pts_app _ _ _ _ _ _ _ _ _ Hpre).
    cbn [query_sync_check_pts]. unfold bind at 1.
    rewrite (query_sync_check_pt_no_space _ _ _ _ _ Hm W1 Hu Hno).
    reflexivity.
  - intros d fd fence q1 d1 Hf Hpts Hno.
    assert (W1 : within max_entries q1)
      by (eapply query_sync_check_pts_bounded; eassumption).
    unfold pvr_sync_query_fence, pvr_sync_query_sync_check. unfold bind at 1.
    rewrite (sync_fence_fdget_eq _ _ _ Hf). unfold bind at 1. rewrite Hpts.
    rewrite (no_space_left _ _ _ _ Hm W1 Hno). reflexivity.
  - intros fds update d e q' d' H.
    eapply query_fences_bounded; eassumption.
Qed.

(** On the concrete run: the alloc sync behind fd 3 and buffers of one
    entry, where an update query needs two update entries. *)
Lemma pvr_sync_query_soft_overflow_demo :
  pvr_sync_query_fence 3 true 1 empty_buffers demo_alloc =
    Ok (PVRSRV_OK, empty_buffers) (warned demo_alloc).
Proof.
  assert (Hm : is_u32 1) by (vm_compute; split; [discriminate | reflexivity]).
  assert (Hq : within 1 empty_buffers) by (vm_compute; intuition discriminate).
  destruct (pvr_sync_query_soft_overflow 1 empty_buffers Hm Hq) as [H _].
  apply (H demo_alloc 3 3%N {| sync_data := 4; timeline := 1 |}
           {| kernel := 5; timeline_fence_value := 0;
              timeline_update_value := 1; refcount := 1 |}).
  - vm_compute; reflexivity.
  - discriminate.
  - vm_compute; reflexivity.
  - discriminate.
  - vm_compute; reflexivity.
  - right. vm_compute. reflexivity.
Defined.

(** ** The sync pool *)

Lemma succ_not_null p : (N.succ p =? NULL)%N = false.
Proof. apply N.eqb_neq. unfold NULL. lia. Qed.

Lemma sync_pool_get_ok c t d p d' :
  sync_pool_get c t d = Ok (PVRSRV_OK, p) d' ->
  ∃ v,
    prims d' = <[p := fresh_prim c t d v]> (prims d) ∧
    sync_id d' = s32 (sync_id d + 1) ∧
    ((∃ rest s, sync_pool_free_list d = p :: rest ∧ prims d !! p = Some s ∧
        v = vaddr s ∧
        sync_pool_active_list d' = list_del p (sync_pool_active_list d) ++ [p] ∧
        sync_pool_free_list d' = list_del p (sync_pool_free_list d) ∧
        brk d' = brk d ∧ replies d' = replies d ∧
        sync_pool_size d' = s32 (sync_pool_size d - 1))
     ∨ (sync_pool_free_list d = [] ∧ p = N.succ (brk d) ∧
        sync_pool_active_list d' = sync_pool_active_list d ++ [p] ∧
        sync_pool_free_list d' = [] ∧ brk d' = p ∧
        sync_pool_size d' = sync_pool_size d)).
Proof.
  intros H. unfold sync_pool_get in H.
  apply bind_inv in H. destruct H as (free & d0 & Hg & H). minv Hg.
  apply bind_inv in H. destruct H as ([e p0] & d1 & H1 & H2).
  destruct e; try (minv H2; fail).
  unfold atomic_inc_return_sync_id in H2. munfold_in H2.
  apply bind_inv in H2. destruct H2 as (n & d2 & Hn & H2).
  injection Hn as <- <-.
  minv H2. dsimpl.
  destruct (sync_pool_free_list d) as [|q rest] eqn:Hfree.
  - (* fresh *)
    unfold sync_pool_get_new in H1. munfold_in H1.
    apply bind_inv in H1. destruct H1 as (p1 & d3 & Hk & H1).
    apply kmalloc_inv in Hk. destruct Hk as [[-> ->]|[-> ->]].
    + rewrite N.eqb_refl in H1. minv H1.
    + rewrite succ_not_null in H1. minv H1. dsimpl.
      rewrite lookup_insert_eq in Hld. injection Hld as <-. cbn [vaddr].
      eexists. split; [|split; [reflexivity|]].
      * unfold fresh_prim. rewrite insert_insert_eq. reflexivity.
      * right. done.
  - (* reuse *)
    unfold sync_pool_get_reuse in H1. minv H1. dsimpl.
    eexists. split; [|split; [reflexivity|]].
    + reflexivity.
    + left. exists rest, a. rewrite Hfree. done.
Qed.

Lemma sync_pool_get_err c t d e p d' :
  sync_pool_get c t d = Ok (e, p) d' -> e ≠ PVRSRV_OK ->
  p = NULL ∧ prims d' = prims d ∧ sync_id d' = sync_id d ∧
  sync_pool_active_list d' = sync_pool_active_list d ∧
  sync_pool_free_list d' = sync_pool_free_list d ∧
  sync_pool_size d' = sync_pool_size d ∧
  (brk d <= brk d')%N ∧
  kernels d' = kernels d ∧ sync_datas d' = sync_datas d ∧
  alloc_datas d' = alloc_datas d ∧ timelines d' = timelines d ∧
  files d' = files d.
Proof.
  intros H He. unfold sync_pool_get in H.
  apply bind_inv in H. destruct H as (free & d0 & Hg & H). minv Hg.
  apply bind_inv in H. destruct H as ([e1 p0] & d1 & H1 & H2).
  destruct e1; minv H2; try congruence.
  all: destruct (sync_pool_free_list d) as [|q rest] eqn:Hfree;
    [| unfold sync_pool_get_reuse in H1; minv H1].
  all: unfold sync_pool_get_new in H1; munfold_in H1;
    apply bind_inv in H1; destruct H1 as (p1 & d3 & Hk & H1);
    apply kmalloc_inv in Hk; destruct Hk as [[-> ->]|[-> ->]];
    [ rewrite N.eqb_refl in H1 | rewrite succ_not_null in H1 ];
    minv H1; dsimpl; repeat split; try reflexivity; try lia; try assumption.
Qed.

Lemma sync_pool_put_ok p d (u : unit) d' :
  sync_pool_put p d = Ok u d' ->
  ∃ s, prims d !! p = Some s ∧
    sync_id d' = sync_id d ∧ brk d' = brk d ∧ replies d' = replies d ∧
    sync_pool_active_list d' = list_del p (sync_pool_active_list d) ∧
    ((sync_pool_size d < SYNC_MAX_POOL_SIZE ∧
      prims d' = <[p := with_client_sync 0xffffffff s]> (prims d) ∧
      sync_pool_free_list d' = p :: list_del p (sync_pool_free_list d) ∧
      sync_pool_size d' = s32 (sync_pool_size d + 1))
     ∨ (SYNC_MAX_POOL_SIZE <= sync_pool_size d ∧
        prims d' = delete p (prims d) ∧
        sync_pool_free_list d' = list_del p (sync_pool_free_list d) ∧
        sync_pool_size d' = sync_pool_size d)).
Proof.
  intros H. unfold sync_pool_put, set_sync_value in H. munfold_in H.
  minv H; dsimpl.
  - eexists. split; [eassumption|]. repeat split.
    left. apply Z.ltb_lt in Hc. done.
  - eexists. split; [eassumption|]. repeat split.
    right. apply Z.ltb_ge in Hc. rewrite delete_insert_eq. done.
Qed.

Lemma u32_succ x : u32 x + 1 < 2 ^ 32 -> u32 (s32 (x + 1)) = u32 x + 1.
Proof.
  intros H. rewrite u32_s32. unfold u32 in *.
  rewrite <- Zplus_mod_idemp_l. apply Z.mod_small.
  pose proof (Z.mod_pos_bound x (2 ^ 32) ltac:(lia)). lia.
Qed.

Lemma list_del_elem p q l : q ∈ list_del p l <-> q ≠ p ∧ q ∈ l.
Proof. unfold list_del. rewrite list_elem_of_filter. tauto. Qed.

Lemma pool_inv_get c t d e p d' :
  pool_inv d -> u32 (sync_id d) + 1 < 2 ^ 32 ->
  sync_pool_get c t d = Ok (e, p) d' ->
  pool_inv d' ∧ u32 (sync_id d') <= u32 (sync_id d) + 1 ∧
  u32 (sync_id d) <= u32 (sync_id d').
Proof.
  intros (Hnd & Hbelow & Hact & Huniq) Hc H.
  destruct (decide (e = PVRSRV_OK)) as [->|He].
  - apply sync_pool_get_ok in H.
    destruct H as (v & Hprims & Hid & Hcase).
    assert (Hc' : u32 (sync_id d') = u32 (sync_id d) + 1)
      by (rewrite Hid; apply u32_succ; exact Hc).
    assert (Hlists : (∀ q, q ∈ sync_pool_active_list d' <->
                           q = p ∨ (q ≠ p ∧ q ∈ sync_pool_active_list d)) ∧
                     NoDup (sync_pool_active_list d') ∧ (brk d <= brk d')%N ∧
                     (p <= brk d')%N).
    { destruct Hcase as [(rest & s & Hfree & Hs & _ & Ha & _ & Hb & _)
                        |(Hfree & Hp & Ha & _ & Hb & _)].
      - rewrite Ha, Hb. split; [|split; [|split; [lia|eauto]]].
        + intros q. rewrite elem_of_app, list_elem_of_singleton, list_del_elem. tauto.
        + apply NoDup_app. split; [apply NoDup_filter; exact Hnd|].
          split; [|apply NoDup_singleton].
          intros x Hx. apply list_del_elem in Hx.
          rewrite list_elem_of_singleton. tauto.
      - assert (Hnew : p ∉ sync_pool_active_list d).
        { intros Hin. destruct (Hact p Hin) as (s & Hs & _).
          apply Hbelow in Hs. lia. }
        rewrite Ha, Hb. split; [|split; [|split; lia]].
        + intros q. rewrite elem_of_app, list_elem_of_singleton.
          split; [intros [?|?]|intros [?|[? ?]]]; auto.
          destruct (decide (q = p)); auto.
        + apply NoDup_app. split; [exact Hnd|].
          split; [|apply NoDup_singleton].
          intros x Hx. rewrite list_elem_of_singleton. intros ->. done. }
    destruct Hlists as (Hmem & Hnd' & Hbrk & Hp).
    split; [|lia]. split; [exact Hnd'|]. split; [|split].
    + intros q s. rewrite Hprims. destruct (decide (q = p)) as [->|Hne].
      * intros _. exact Hp.
      * rewrite lookup_insert_ne by done. intros Hs. apply Hbelow in Hs. lia.
    + intros q Hq. apply Hmem in Hq. destruct Hq as [->|[Hne Hq]].
      * rewrite Hprims, lookup_insert_eq. eexists; split; [reflexivity|].
        cbn [id fresh_prim]. rewrite u32_succ by exact Hc. rewrite Hc'.
        pose proof (u32_range (sync_id d)). lia.
      * destruct (Hact q Hq) as (s & Hs & Hids).
        rewrite Hprims, lookup_insert_ne by done. exists s. split; [exact Hs|lia].
    + intros p1 p2 s1 s2 H1 H2 Hs1 Hs2 Heq.
      apply Hmem in H1. apply Hmem in H2.
      rewrite Hprims in Hs1, Hs2.
      destruct H1 as [->|[Hne1 H1]], H2 as [->|[Hne2 H2]]; try done.
      * rewrite lookup_insert_eq in Hs1. injection Hs1 as <-.
        rewrite lookup_insert_ne in Hs2 by done.
        destruct (Hact p2 H2) as (s & Hs & Hids).
        rewrite Hs in Hs2. injection Hs2 as <-.
        cbn [id fresh_prim] in Heq. rewrite u32_succ in Heq by exact Hc. lia.
      * rewrite lookup_insert_eq in Hs2. injection Hs2 as <-.
        rewrite lookup_insert_ne in Hs1 by done.
        destruct (Hact p1 H1) as (s & Hs & Hids).
        rewrite Hs in Hs1. injection Hs1 as <-.
        cbn [id fresh_prim] in Heq. rewrite u32_succ in Heq by exact Hc. lia.
      * rewrite lookup_insert_ne in Hs1, Hs2 by done. eauto.
  - apply sync_pool_get_err in H; [|exact He].
    destruct H as (_ & Hprims & Hid & Ha & _ & _ & Hb & _).
    split; [|rewrite Hid; lia].
    unfold pool_inv, unique_active_ids. rewrite Ha, Hprims, Hid.
    split; [exact Hnd|]. split; [|split; [exact Hact|exact Huniq]].
    intros q s Hs. apply Hbelow in Hs. lia.
Qed.

Lemma pool_inv_put p d u d' :
  pool_inv d -> sync_pool_put p d = Ok u d' ->
  pool_inv d' ∧ sync_id d' = sync_id d.
Proof.
  intros (Hnd & Hbelow & Hact & Huniq) H.
  apply sync_pool_put_ok in H.
  destruct H as (s & Hs & Hid & Hb & _ & Ha & Hcase).
  split; [|exact Hid].
  assert (Hprims : ∀ q, q ≠ p -> prims d' !! q = prims d !! q).
  { intros q Hne.
    destruct Hcase as [(_ & -> & _)|(_ & -> & _)].
    - apply lookup_insert_ne. done.
    - apply lookup_delete_ne. done. }
  assert (Hdom : ∀ q s', prims d' !! q = Some s' -> is_Some (prims d !! q)).
  { intros q s' Hq. destruct (decide (q = p)) as [->|Hne]; [eauto|].
    rewrite Hprims in Hq by done. eauto. }
  unfold pool_inv, unique_active_ids. rewrite Ha, Hid, Hb.
  split; [apply NoDup_filter; exact Hnd|]. split; [|split].
  - intros q s' Hq. destruct (Hdom q s' Hq) as [s0 Hs0]. eauto.
  - intros q Hq. apply list_del_elem in Hq. destruct Hq as [Hne Hq].
    rewrite Hprims by done. auto.
  - intros p1 p2 s1 s2 H1 H2 Hs1 Hs2 Heq.
    apply list_del_elem in H1. apply list_del_elem in H2.
    destruct H1 as [Hne1 H1], H2 as [Hne2 H2].
    rewrite Hprims in Hs1, Hs2 by done. eauto.
Qed.

Lemma pool_inv_init script : pool_inv (pvr_sync_init script).
Proof.
  unfold pool_inv, unique_active_ids, pvr_sync_init. dsimpl.
  split; [apply NoDup_nil_2|]. split; [|split].
  - intros p s H. rewrite lookup_empty in H. discriminate.
  - intros p H. apply elem_of_nil in H. done.
  - intros p1 p2 s1 s2 H. apply elem_of_nil in H. done.
Qed.

Lemma pool_run_inv ops : ∀ d rs d',
  pool_inv d ->
  u32 (sync_id d) + Z.of_nat (gets ops) < 2 ^ 32 ->
  pool_run ops d = Ok rs d' ->
  pool_inv d'.
Proof.
  induction ops as [|[c t|p] ops IH]; intros d rs d' Hinv Hc H.
  - cbn in H. minv H. exact Hinv.
  - cbn [pool_run gets] in *.
    apply bind_inv in H. destruct H as ([e p] & d1 & H1 & H).
    apply bind_inv in H. destruct H as (rs1 & d2 & H2 & H). minv H.
    destruct (pool_inv_get c t d e p d1 Hinv ltac:(lia) H1) as (Hinv1 & Hle & _).
    eapply IH; [exact Hinv1 | lia | exact H2].
  - cbn [pool_run gets] in *.
    apply bind_inv in H. destruct H as (u & d1 & H1 & H).
    destruct (pool_inv_put p d u d1 Hinv H1) as (Hinv1 & Hid).
    eapply IH; [exact Hinv1 | rewrite Hid; exact Hc | exact H].
Qed.

Lemma list_del_head p l : p ∉ l -> list_del p (p :: l) = l.
Proof.
  intros H. unfold list_del. rewrite filter_cons_False by tauto.
  induction l as [|x l IH]; [reflexivity|].
  apply not_elem_of_cons in H. destruct H as [Hx Hl].
  rewrite filter_cons_True by done. f_equal. apply IH. exact Hl.
Qed.

Lemma list_del_not_in p l : p ∉ list_del p l.
Proof. rewrite list_del_elem. tauto. Qed.

Lemma sync_pool_get_reuses c t d p rest s :
  sync_pool_free_list d = p :: rest ->
  prims d !! p = Some s ->
  sync_pool_get c t d = Ok (PVRSRV_OK, p) (reused c t p s d).
Proof.
  intros Hfree Hs. unfold sync_pool_get, sync_pool_get_reuse,
    atomic_inc_return_sync_id. mnorm. rewrite Hfree. cbv beta iota. dsimpl.
  mrw Hs. unfold reused. rewrite Hfree. reflexivity.
Qed.

Lemma sync_pool_put_pools p d s :
  prims d !! p = Some s ->
  sync_pool_size d < SYNC_MAX_POOL_SIZE ->
  sync_pool_put p d =
    Ok tt (set_sync_pool_size (s32 (sync_pool_size d + 1))
             (set_sync_pool_free_list (p :: list_del p (sync_pool_free_list d))
                (set_sync_pool_active_list (list_del p (sync_pool_active_list d))
                   (set_prims (<[p := with_client_sync 0xffffffff s]> (prims d)) d)))).
Proof.
  intros Hs Hsz. unfold sync_pool_put. mnorm.
  apply Z.ltb_lt in Hsz. rewrite Hsz.
  rewrite (set_sync_value_eq _ _ _ _ Hs). reflexivity.
Qed.

Lemma sync_pool_lifo d p1 p2 s1 s2 c t c' t' :
  p1 ≠ p2 ->
  prims d !! p1 = Some s1 -> prims d !! p2 = Some s2 ->
  0 <= sync_pool_size d -> sync_pool_size d + 1 < SYNC_MAX_POOL_SIZE ->
  ∃ d1 d2 d3 d4,
    sync_pool_put p1 d = Ok tt d1 ∧ sync_pool_put p2 d1 = Ok tt d2 ∧
    sync_pool_get c t d2 = Ok (PVRSRV_OK, p2) d3 ∧
    sync_pool_get c' t' d3 = Ok (PVRSRV_OK, p1) d4 ∧
    brk d4 = brk d ∧ replies d4 = replies d ∧
    sync_pool_created d4 = sync_pool_created d.
Proof.
  intros Hne Hs1 Hs2 Hsz0 Hsz. unfold SYNC_MAX_POOL_SIZE in *.
  eexists _, _, _, _. split; [|split; [|split; [|split]]].
  - apply (sync_pool_put_pools _ _ _ Hs1). unfold SYNC_MAX_POOL_SIZE. lia.
  - eapply sync_pool_put_pools.
    + dsimpl. rewrite lookup_insert_ne by done. exact Hs2.
    + dsimpl. unfold SYNC_MAX_POOL_SIZE.
      pose proof (s32_range (sync_pool_size d + 1)).
      assert (s32 (sync_pool_size d + 1) = sync_pool_size d + 1); [|lia].
      unfold s32. rewrite Z.mod_small by lia. cbv zeta.
      destruct (Z.ltb_spec (sync_pool_size d + 1) (2 ^ 31)); lia.
  - eapply sync_pool_get_reuses.
    + dsimpl. reflexivity.
    + dsimpl. apply lookup_insert_eq.
  - eapply sync_pool_get_reuses.
    + unfold reused. dsimpl.
      rewrite list_del_head by apply list_del_not_in.
      unfold list_del at 1. rewrite filter_cons_True by done. reflexivity.
    + unfold reused. dsimpl. rewrite lookup_insert_ne by done.
      rewrite lookup_insert_ne by done. apply lookup_insert_eq.
  - split; [|split]; reflexivity.
Qed.

Lemma pool_run_app l1 : ∀ l2 d rs1 d1,
  pool_run l1 d = Ok rs1 d1 ->
  pool_run (l1 ++ l2) d =
    match pool_run l2 d1 with
    | Ok rs2 d2 => Ok (rs1 ++ rs2) d2
    | Oops => Oops
    end.
Proof.
  induction l1 as [|[c t|p] l1 IH]; intros l2 d rs1 d1 H.
  - cbn in H. apply ret_inv in H. destruct H as [-> ->].
    cbn. destruct (pool_run l2 d); reflexivity.
  - cbn [pool_run app] in *.
    apply bind_inv in H. destruct H as (r & d0 & H1 & H).
    apply bind_inv in H. destruct H as (rs & d2 & H2 & H).
    apply ret_inv in H. destruct H as [-> ->].
    unfold bind at 1. rewrite H1. unfold bind at 1.
    rewrite (IH l2 _ _ _ H2). destruct (pool_run l2 d2); reflexivity.
  - cbn [pool_run app] in *.
    apply bind_inv in H. destruct H as (u & d0 & H1 & H).
    unfold bind at 1. rewrite H1. apply IH. exact H.
Qed.

Lemma wrap_start :
  pool_run [pool_get "a" 0; pool_get "b" 1] (pvr_sync_init wrap_script) =
    Ok [(PVRSRV_OK, 1%N); (PVRSRV_OK, 2%N)] (wrap_state 2 0).
Proof. vm_compute. reflexivity. Qed.

Lemma wrap_cycle_step sid reused :
  pool_run wrap_cycle (wrap_state sid reused) =
    Ok [(PVRSRV_OK, 2%N)] (wrap_state (s32 (sid + 1)) (u32 (reused + 1))).
Proof.
  unfold wrap_cycle. cbn [pool_run].
  unfold bind at 1.
  rewrite (sync_pool_put_pools 2 (wrap_state sid reused)
             {| client_sync := 0; next_value := 0; id := u32 sid;
                vaddr := 8192; type := 1; class := "b" |})
    by reflexivity.
  unfold bind at 1.
  erewrite sync_pool_get_reuses; try reflexivity.
  unfold bind, ret. f_equal.
Qed.

Lemma wrap_cycles_run n : ∀ sid reused,
  ∃ rs sid' reused',
    pool_run (concat (repeat wrap_cycle n)) (wrap_state sid reused) =
      Ok rs (wrap_state sid' reused') ∧
    u32 sid' = u32 (sid + Z.of_nat n).
Proof.
  induction n as [|n IH]; intros sid reused.
  - exists [], sid, reused. split; [reflexivity|].
    f_equal. cbn. lia.
  - destruct (IH (s32 (sid + 1)) (u32 (reused + 1))) as (rs & sid' & reused' & Hrun & Hsid).
    exists ([(PVRSRV_OK, 2%N)] ++ rs), sid', reused'. split.
    + change (repeat wrap_cycle (S n)) with (wrap_cycle :: repeat wrap_cycle n).
      change (concat (wrap_cycle :: repeat wrap_cycle n))
        with (wrap_cycle ++ concat (repeat wrap_cycle n)).
      rewrite (pool_run_app _ _ _ _ _ (wrap_cycle_step sid reused)).
      rewrite Hrun. reflexivity.
    + rewrite Hsid. unfold u32.
      rewrite <- Zplus_mod_idemp_l. fold (u32 (s32 (sid + 1))).
      rewrite u32_s32. unfold u32. rewrite Zplus_mod_idemp_l.
      f_equal. lia.
Qed.

Lemma wrap_cycles_eq : Z.of_nat wrap_cycles = 2 ^ 32 - 1.
Proof. unfold wrap_cycles. apply Z2Nat.id. discriminate. Qed.

(** C8, as it is stated, fails on a long run: the id counter is an
    [atomic_t] and an id a [u32], so after [2^32] acquisitions the ids
    come round.  On [wrap_ops] the prims 1 and 2 are both active at the
    end and both carry id 1. *)
Lemma sync_id_wraps :
  ∃ rs d',
    pool_run wrap_ops (pvr_sync_init wrap_script) = Ok rs d' ∧
    sync_pool_active_list d' = [1%N; 2%N] ∧
    id <$> prims d' !! 1%N = Some 1 ∧
    id <$> prims d' !! 2%N = Some 1 ∧
    ¬ unique_active_ids d'.
Proof.
  destruct (wrap_cycles_run wrap_cycles 2 0)
    as (rs & sid' & reused' & Hrun & Hsid).
  assert (H2 : id <$> prims (wrap_state sid' reused') !! 2%N = Some 1).
  { change (id <$> prims (wrap_state sid' reused') !! 2%N)
      with (Some (u32 sid')).
    rewrite Hsid, wrap_cycles_eq. reflexivity. }
  exists ([(PVRSRV_OK, 1%N); (PVRSRV_OK, 2%N)] ++ rs),
    (wrap_state sid' reused').
  split; [|split; [|split; [|split]]].
  - change wrap_ops
      with ([pool_get "a" 0; pool_get "b" 1] ++
            concat (repeat wrap_cycle wrap_cycles)).
    rewrite (pool_run_app _ _ _ _ _ wrap_start). rewrite Hrun. reflexivity.
  - reflexivity.
  - reflexivity.
  - exact H2.
  - intros Hu.
    destruct (prims (wrap_state sid' reused') !! 2%N) as [s2|] eqn:E2;
      [|discriminate].
    cbn in H2. injection H2 as H2.
    assert (E : 1%N = 2%N); [|discriminate].
    eapply (Hu 1%N 2%N _ s2); [| | reflexivity | exact E2 | ].
    + apply list_elem_of_here.
    + apply list_elem_of_further, list_elem_of_here.
    + rewrite H2. reflexivity.
Qed.

Lemma u8_id t : 0 <= t < 256 -> u8 t = t.
Proof. intros. unfold u8. apply Z.mod_small. lia. Qed.

Lemma substring_all (s : string) : ∀ n,
  (String.length s <= n)%nat -> String.substring 0 n s = s.
Proof.
  induction s as [|a s IH]; intros n Hn.
  - destruct n; reflexivity.
  - destruct n as [|n]; [cbn in Hn; lia|].
    cbn. f_equal. apply IH. cbn in Hn. lia.
Qed.

Lemma strncpy32_fits (s : string) :
  (String.length s <= 32)%nat -> strncpy32 s = s.
Proof. apply substring_all. Qed.

(** C8, amended.  Over every run of acquisitions and releases from a
    state that satisfies the invariant of the pool (the state after
    [pvr_sync_init] does), as long as the id counter does not pass
    [2^32], no two prims of the active list share an id.  Every
    successful [sync_pool_get] returns a prim of the active list whose
    current value and [next_value] are 0, whose id is the new value of
    the id counter and whose type and class are the requested ones (the
    class cut to the 32 bytes of the field).  When the free list is not
    empty its head is reused and nothing is allocated; the list is last
    in, first out: of two prims released one after the other the second
    is acquired first. *)
Theorem sync_pool_contract :
  (∀ script, pool_inv (pvr_sync_init script)) ∧
  (∀ ops d rs d',
     pool_inv d ->
     u32 (sync_id d) + Z.of_nat (gets ops) < 2 ^ 32 ->
     pool_run ops d = Ok rs d' ->
     pool_inv d' ∧ unique_active_ids d') ∧
  (∀ class_name type_ d p d',
     sync_pool_get class_name type_ d = Ok (PVRSRV_OK, p) d' ->
     p ∈ sync_pool_active_list d' ∧
     ∃ s, prims d' !! p = Some s ∧
          client_sync s = 0 ∧ next_value s = 0 ∧
          id s = u32 (sync_id d') ∧
          type s = u8 type_ ∧ (0 <= type_ < 256 -> type s = type_) ∧
          class s = strncpy32 class_name ∧
          ((String.length class_name <= 32)%nat -> class s = class_name)) ∧
  (∀ class_name type_ d p rest s,
     sync_pool_free_list d = p :: rest ->
     prims d !! p = Some s ->
     sync_pool_get class_name type_ d =
       Ok (PVRSRV_OK, p) (reused class_name type_ p s d)) ∧
  (∀ d p1 p2 s1 s2 c t c' t',
     p1 ≠ p2 ->
     prims d !! p1 = Some s1 -> prims d !! p2 = Some s2 ->
     0 <= sync_pool_size d -> sync_pool_size d + 1 < SYNC_MAX_POOL_SIZE ->
     ∃ d1 d2 d3 d4,
       sync_pool_put p1 d = Ok tt d1 ∧ sync_pool_put p2 d1 = Ok tt d2 ∧
       sync_pool_get c t d2 = Ok (PVRSRV_OK, p2) d3 ∧
       sync_pool_get c' t' d3 = Ok (PVRSRV_OK, p1) d4 ∧
       brk d4 = brk d ∧ replies d4 = replies d ∧
       sync_pool_created d4 = sync_pool_created d).
Proof.
  split; [exact pool_inv_init|]. split; [|split; [|split]].
  - intros ops d rs d' Hinv Hc H.
    assert (Hinv' : pool_inv d') by (eapply pool_run_inv; eassumption).
    split; [exact Hinv' | apply Hinv'].
  - intros c t d p d' H. apply sync_pool_get_ok in H.
    destruct H as (v & Hprims & Hid & Hcase). split.
    + destruct Hcase as [(rest & s & _ & _ & _ & -> & _)|(_ & _ & -> & _)];
        apply elem_of_app; right; apply list_elem_of_here.
    + exists (fresh_prim c t d v). rewrite Hprims, lookup_insert_eq.
      cbn [fresh_prim client_sync next_value id type class]. rewrite Hid.
      repeat split.
      * apply u8_id.
      * apply strncpy32_fits.
  - exact sync_pool_get_reuses.
  - exact sync_pool_lifo.
Qed.

(** On the run [wrap_ops] cut after its first cycle: the two prims
    acquired from a fresh driver, the second released and acquired again,
    have distinct ids. *)
Lemma sync_pool_contract_demo :
  pool_inv
    (exec (pool_run (pool_get "a" 0 :: pool_get "b" 1 :: wrap_cycle))
       (pvr_sync_init wrap_script)) ∧
  unique_active_ids
    (exec (pool_run (pool_get "a" 0 :: pool_get "b" 1 :: wrap_cycle))
       (pvr_sync_init wrap_script)).
Proof.
  apply (proj1 (proj2 sync_pool_contract)
           (pool_get "a" 0 :: pool_get "b" 1 :: wrap_cycle)
           (pvr_sync_init wrap_script)
           [(PVRSRV_OK, 1%N); (PVRSRV_OK, 2%N); (PVRSRV_OK, 2%N)]).
  - apply (proj1 sync_pool_contract).
  - vm_compute. reflexivity.
  - vm_compute. reflexivity.
Defined.

(** ** The driver between operations *)

Lemma sync_pool_get_cases c t d p d' :
  sync_pool_get c t d = Ok (PVRSRV_OK, p) d' ->
  (∃ rest s, sync_pool_free_list d = p :: rest ∧ prims d !! p = Some s ∧
             d' = reused c t p s d) ∨
  (sync_pool_free_list d = [] ∧ p = N.succ (brk d) ∧ d' = allocated c t d).
Proof.
  intros H. unfold sync_pool_get in H.
  apply bind_inv in H. destruct H as (free & d0 & Hg & H). minv Hg.
  apply bind_inv in H. destruct H as ([e p0] & d1 & H1 & H2).
  destruct e; try (minv H2; fail).
  unfold atomic_inc_return_sync_id in H2. munfold_in H2.
  apply bind_inv in H2. destruct H2 as (n & d2 & Hn & H2).
  injection Hn as <- <-.
  minv H2. dsimpl.
  destruct (sync_pool_free_list d) as [|q rest] eqn:Hfree.
  - right.
    unfold sync_pool_get_new in H1. munfold_in H1.
    apply bind_inv in H1. destruct H1 as (p1 & d3 & Hk & H1).
    apply kmalloc_inv in Hk. destruct Hk as [[-> ->]|[-> ->]].
    + rewrite N.eqb_refl in H1. minv H1.
    + rewrite succ_not_null in H1. minv H1. dsimpl.
      rewrite lookup_insert_eq in Hld. injection Hld as <-. cbn [vaddr].
      split; [reflexivity|]. split; [reflexivity|].
      unfold allocated, fresh_prim. dsimpl. rewrite insert_insert_eq.
      reflexivity.
  - left. unfold sync_pool_get_reuse in H1. minv H1. dsimpl.
    exists rest, a. split; [reflexivity|]. split; [exact Hld|].
    unfold reused. rewrite Hfree. reflexivity.
Qed.

Lemma reused_free_list c t p s d :
  sync_pool_free_list (reused c t p s d) = list_del p (sync_pool_free_list d).
Proof. reflexivity. Qed.

(** What a successful [pvr_sync_create_sync_data] does: the sync data and
    the pair are new, the fence prim comes from the pool. *)
Lemma pvr_sync_create_sync_data_ok T d sdp d' :
  pvr_sync_create_sync_data T d = Ok sdp d' -> sdp ≠ NULL ->
  ∃ tlrec k p v,
    timelines d !! T = Some tlrec ∧
    sdp = N.succ (brk d) ∧ k = N.succ sdp ∧
    timelines d' = timelines d ∧ alloc_datas d' = alloc_datas d ∧
    files d' = files d ∧
    sync_datas d' =
      <[sdp := {| kernel := k; timeline_fence_value := 0;
                  timeline_update_value := 0; refcount := 1 |}]> (sync_datas d) ∧
    kernels d' =
      <[k := {| fence_sync := p; cleanup_sync := NULL |}]> (kernels d) ∧
    prims d' =
      <[p := fresh_prim (obj_name tlrec) SYNC_PT_FENCE_TYPE d v]> (prims d) ∧
    ((is_Some (prims d !! p) ∧ p ∈ sync_pool_free_list d ∧
      sync_pool_free_list d' = list_del p (sync_pool_free_list d) ∧
      brk d' = k)
     ∨ (sync_pool_free_list d = [] ∧ sync_pool_free_list d' = [] ∧
        p = N.succ k ∧ brk d' = p)).
Proof.
  intros H Hnn. unfold pvr_sync_create_sync_data in H. munfold_in H.
  apply bind_inv in H. destruct H as (sd & d1 & Hk1 & H).
  apply kmalloc_inv in Hk1. destruct Hk1 as [[-> ->]|[-> ->]].
  { rewrite N.eqb_refl in H. minv H; done. }
  rewrite succ_not_null in H.
  apply bind_inv in H. destruct H as (u & d2 & Hst & H). minv Hst. dsimpl.
  apply bind_inv in H. destruct H as (k & d3 & Hk2 & H).
  apply kmalloc_inv in Hk2. destruct Hk2 as [[-> ->]|[-> ->]].
  { rewrite N.eqb_refl in H. minv H; done. }
  rewrite succ_not_null in H. dsimpl.
  minv H; try done. dsimpl.
  all: match goal with
       | Hg : sync_pool_get _ _ _ = Ok (PVRSRV_OK, _) _ |- _ =>
           apply sync_pool_get_cases in Hg;
           destruct Hg as [(rest & s & Hfree & Hs & ->)|(Hfree & -> & ->)]
       end.
  - dsimpl. eexists _, _, _, (vaddr s).
    split; [eassumption|]. split; [reflexivity|]. split; [reflexivity|].
    unfold reused. dsimpl.
    repeat split.
    + rewrite insert_insert_eq. reflexivity.
    + rewrite insert_insert_eq. reflexivity.
    + left. repeat split; eauto. rewrite Hfree. apply list_elem_of_here.
  - dsimpl. eexists _, _, _, _.
    split; [eassumption|]. split; [reflexivity|]. split; [reflexivity|].
    unfold allocated. dsimpl.
    repeat split.
    + rewrite insert_insert_eq. reflexivity.
    + rewrite insert_insert_eq. reflexivity.
    + right. repeat split; eauto.
Qed.

(** The fence prim that an allocation takes from the pool is not the
    prim of the timeline. *)
Lemma taken_not_timeline d T tl (p k : N) d1 :
  driver_inv d -> timelines d !! T = Some tl ->
  (is_Some (prims d !! p) ∧ p ∈ sync_pool_free_list d ∧
   sync_pool_free_list d1 = list_del p (sync_pool_free_list d) ∧ brk d1 = k)
  ∨ (sync_pool_free_list d = [] ∧ sync_pool_free_list d1 = [] ∧
     (brk d < p)%N ∧ brk d1 = p) ->
  p ≠ timeline_sync tl.
Proof.
  intros (HA & HB & _) Htl Hcase.
  destruct (HB _ _ Htl) as (_ & [ts Hts] & Hnf).
  destruct (HA _ _ Hts) as (_ & Hle).
  destruct Hcase as [(_ & Hin & _)|(_ & _ & Hlt & _)].
  - intros ->. done.
  - lia.
Qed.


(** ** The invariant along a run *)

Lemma taken_unowned d d1 p :
  driver_inv d -> taken d d1 p -> unowned d p.
Proof.
  intros (HA & HB & _ & HD & _) Ht.
  assert (Hown : p ≠ NULL ∧ ∀ q, slot d q -> q ≠ NULL -> q ≠ p).
  { destruct Ht as [([s Hs] & Hin & _)|(_ & _ & Hlt)].
    - split; [exact (proj1 (HA _ _ Hs))|].
      intros q [->|(_ & Hnf & _)] Hq; [done|]. intros ->. done.
    - split; [intros ->; unfold NULL in Hlt; lia|].
      intros q [->|(Hle & _)] Hq; [done|]. lia. }
  destruct Hown as [Hnn Hown]. split; [exact Hnn|]. split.
  - intros T tl Htl Heq. destruct (HB _ _ Htl) as (_ & [ts Hts] & Hnf).
    destruct (HA _ _ Hts) as [_ Hle].
    destruct Ht as [(_ & Hin & _)|(_ & _ & Hlt)]; [rewrite Heq in Hnf; done|lia].
  - intros k kp Hk. destruct (HD _ _ Hk) as [Hf Hc].
    split; intros Heq.
    + apply (Hown _ Hf); [rewrite Heq; exact Hnn|exact Heq].
    + apply (Hown _ Hc); [rewrite Heq; exact Hnn|exact Heq].
Qed.

(** The invariant survives a change that keeps every prim and every
    timeline, frees no prim, and adds at most kernel pairs whose fence
    prim [p] is unowned (or [NULL]) and whose cleanup prim is [NULL]. *)
Lemma driver_inv_pair d d' p :
  driver_inv d ->
  (brk d <= brk d')%N ->
  (∀ q, q ∈ sync_pool_free_list d' -> q ∈ sync_pool_free_list d) ->
  (∀ q, is_Some (prims d' !! q) -> q ≠ NULL ∧ (q <= brk d')%N) ->
  (∀ q, is_Some (prims d !! q) -> is_Some (prims d' !! q)) ->
  (∀ T tl', timelines d' !! T = Some tl' ->
     ∃ tl, timelines d !! T = Some tl ∧ timeline_sync tl' = timeline_sync tl) ->
  (∀ k kp, kernels d' !! k = Some kp ->
     kernels d !! k = Some kp ∨
     kp = {| fence_sync := p; cleanup_sync := NULL |}) ->
  (p = NULL ∨ (unowned d p ∧ (p <= brk d')%N ∧ p ∉ sync_pool_free_list d')) ->
  sync_datas d' !! NULL = None ->
  driver_inv d'.
Proof.
  intros (HA & HB & HC & HD & HE & HF) Hbrk Hfree HA' Hmono Htl Hk Hp HF'.
  assert (Hslot : ∀ q, slot d q -> slot d' q).
  { intros q [->|(Hle & Hnf & Hnt)]; [left; reflexivity|right].
    split; [lia|]. split; [intros Hin; apply Hnf, Hfree, Hin|].
    intros T tl' Htl'. destruct (Htl _ _ Htl') as (tl & Htl0 & ->).
    eapply Hnt; eassumption. }
  assert (Hslotp : slot d' p).
  { destruct Hp as [->|((Hnn & Hnt & _) & Hle & Hnf)]; [left; reflexivity|right].
    split; [exact Hle|]. split; [exact Hnf|].
    intros T tl' Htl'. destruct (Htl _ _ Htl') as (tl & Htl0 & ->).
    eapply Hnt; eassumption. }
  split; [intros q s Hq; apply HA'; eauto|].
  split.
  { intros T tl' Htl'. destruct (Htl _ _ Htl') as (tl & Htl0 & ->).
    destruct (HB _ _ Htl0) as (Hle & Hs & Hnf).
    split; [lia|]. split; [apply Hmono, Hs|].
    intros Hin; apply Hnf, Hfree, Hin. }
  split.
  { intros T1 T2 tl1 tl2 H1 H2.
    destruct (Htl _ _ H1) as (tl1' & H1' & ->).
    destruct (Htl _ _ H2) as (tl2' & H2' & ->).
    eapply HC; eassumption. }
  split.
  { intros k kp Hkp. destruct (Hk _ _ Hkp) as [Hold| ->].
    - destruct (HD _ _ Hold). split; apply Hslot; assumption.
    - cbn. split; [exact Hslotp|left; reflexivity]. }
  split; [|exact HF'].
  intros k1 k2 kp1 kp2 H1 H2 Hnn.
  destruct (Hk _ _ H2) as [Hold2| ->]; [|done].
  destruct (Hk _ _ H1) as [Hold1| ->].
  - eapply HE; eassumption.
  - cbn. destruct Hp as [->|((_ & _ & Hnk) & _)].
    + intros Heq. apply Hnn. symmetry. exact Heq.
    + intros Heq. destruct (Hnk _ _ Hold2) as [_ Hc]. apply Hc. symmetry. exact Heq.
Qed.

(** The invariant survives the arrival of one timeline [Tn] whose prim
    [p] is unowned. *)
Lemma driver_inv_timeline d d' Tn p :
  driver_inv d ->
  (brk d <= brk d')%N ->
  (∀ q, q ∈ sync_pool_free_list d' -> q ∈ sync_pool_free_list d) ->
  (∀ q, is_Some (prims d' !! q) -> q ≠ NULL ∧ (q <= brk d')%N) ->
  (∀ q, is_Some (prims d !! q) -> is_Some (prims d' !! q)) ->
  (∀ T tl', timelines d' !! T = Some tl' ->
     (∃ tl, timelines d !! T = Some tl ∧ timeline_sync tl' = timeline_sync tl)
     ∨ (T = Tn ∧ timeline_sync tl' = p)) ->
  kernels d' = kernels d ->
  unowned d p -> (Tn <= brk d')%N -> is_Some (prims d' !! p) ->
  p ∉ sync_pool_free_list d' ->
  sync_datas d' !! NULL = None ->
  driver_inv d'.
Proof.
  intros (HA & HB & HC & HD & HE & HF) Hbrk Hfree HA' Hmono Htl Hk
    (Hnn & Hnt & Hnk) HTn Hps Hpf HF'.
  split; [intros q s Hq; apply HA'; eauto|].
  split.
  { intros T tl' Htl'. destruct (Htl _ _ Htl') as [(tl & Htl0 & ->)|[-> ->]].
    - destruct (HB _ _ Htl0) as (Hle & Hs & Hnf).
      split; [lia|]. split; [apply Hmono, Hs|].
      intros Hin; apply Hnf, Hfree, Hin.
    - done. }
  split.
  { intros T1 T2 tl1 tl2 H1 H2 Heq.
    destruct (Htl _ _ H1) as [(tl1' & H1' & E1)|[-> E1]];
    destruct (Htl _ _ H2) as [(tl2' & H2' & E2)|[-> E2]].
    - eapply HC; try eassumption. congruence.
    - exfalso. eapply Hnt; [exact H1'|]. congruence.
    - exfalso. eapply Hnt; [exact H2'|]. congruence.
    - reflexivity. }
  rewrite Hk. split; [|split; [exact HE|exact HF']].
  intros k kp Hkp. destruct (HD _ _ Hkp) as [Hf Hc].
  destruct (Hnk _ _ Hkp) as [Hfp Hcp].
  assert (Hslot : ∀ q, q ≠ p -> slot d q -> slot d' q).
  { intros q Hqp [->|(Hle & Hnf & Hnt')]; [left; reflexivity|right].
    split; [lia|]. split; [intros Hin; apply Hnf, Hfree, Hin|].
    intros T tl' Htl'. destruct (Htl _ _ Htl') as [(tl & Htl0 & ->)|[-> ->]].
    - eapply Hnt'; eassumption.
    - intros Heq. apply Hqp. symmetry. exact Heq. }
  split; apply Hslot; assumption.
Qed.

Lemma is_Some_insert_existing {A} (m : gmap N A) k v q :
  is_Some (m !! k) -> is_Some (<[k := v]> m !! q) <-> is_Some (m !! q).
Proof.
  intros Hk. rewrite lookup_insert_is_Some. split.
  - intros [<-|[_ H]]; assumption.
  - intros H. destruct (decide (k = q)); [left|right]; auto.
Qed.

Lemma is_Some_insert_new {A} (m : gmap N A) k v q :
  is_Some (<[k := v]> m !! q) <-> q = k ∨ is_Some (m !! q).
Proof.
  rewrite lookup_insert_is_Some. split.
  - intros [<-|[_ H]]; auto.
  - intros [->|H]; [left; reflexivity|].
    destruct (decide (k = q)); [left|right]; auto.
Qed.

Lemma timelines_insert_same d T0 tl0 tl1 :
  timelines d !! T0 = Some tl0 -> timeline_sync tl1 = timeline_sync tl0 ->
  ∀ T tl', <[T0 := tl1]> (timelines d) !! T = Some tl' ->
    ∃ tl, timelines d !! T = Some tl ∧ timeline_sync tl' = timeline_sync tl.
Proof.
  intros H0 Heq T tl' H. apply lookup_insert_Some in H.
  destruct H as [[<- <-]|[_ H]]; eauto.
Qed.

Lemma timelines_same d :
  ∀ T tl', timelines d !! T = Some tl' ->
    ∃ tl, timelines d !! T = Some tl ∧ timeline_sync tl' = timeline_sync tl.
Proof. eauto. Qed.

(** The frame case: no prim is handed out. *)
Lemma driver_inv_frame d d' :
  driver_inv d ->
  (brk d <= brk d')%N ->
  sync_pool_free_list d' = sync_pool_free_list d ->
  (∀ q, is_Some (prims d' !! q) <-> is_Some (prims d !! q)) ->
  (∀ T tl', timelines d' !! T = Some tl' ->
     ∃ tl, timelines d !! T = Some tl ∧ timeline_sync tl' = timeline_sync tl) ->
  (∀ k kp, kernels d' !! k = Some kp -> kernels d !! k = Some kp) ->
  sync_datas d' !! NULL = None ->
  driver_inv d'.
Proof.
  intros Hinv Hbrk Hfree Hp Htl Hk HF.
  apply (driver_inv_pair d d' NULL); auto.
  - rewrite Hfree. auto.
  - intros q Hq. apply Hp in Hq. destruct Hq as [s Hs].
    destruct Hinv as (HA & _). destruct (HA _ _ Hs). split; [assumption|lia].
  - intros q Hq. apply Hp, Hq.
Qed.

(** A timeline that keeps its prim, when the prim is untouched. *)
Lemma keeps_untouched d d' e :
  timelines d' = timelines d -> prims d' = prims d ->
  (∀ T, e ≠ ev_alloc T false) ->
  keeps_timelines d d' e.
Proof.
  intros Ht Hp He T tl ts Htl Hts. exists tl, ts. rewrite Ht, Hp.
  repeat split; auto. intros _. destruct (decide _) as [E|_]; [|reflexivity].
  destruct (He _ E).
Qed.

Ltac frame Hinv :=
  apply (driver_inv_frame _ _ Hinv); dsimpl;
  [ try lia
  | try reflexivity
  | try (intros ?q; rewrite ?is_Some_insert_existing by eauto; reflexivity)
  | try (first [ apply timelines_same
               | eapply timelines_insert_same; [eassumption|reflexivity] ])
  | try (intros; assumption)
  | try apply Hinv ].

Lemma hw_write_inv sync value d u d' :
  driver_inv d -> set_sync_value sync value d = Ok u d' ->
  driver_inv d' ∧ keeps_timelines d d' ev_other.
Proof.
  intros Hinv H. unfold set_sync_value in H. munfold_in H. minv H.
  split; [frame Hinv|].
  intros T tl ts Htl Hts. dsimpl.
  destruct (decide (sync = timeline_sync tl)) as [->|Hne].
  - rewrite Hts in Hld. injection Hld as <-.
    eexists tl, _. rewrite lookup_insert_eq. repeat split; eauto.
  - exists tl, ts. rewrite lookup_insert_ne by exact Hne.
    repeat split; eauto.
Qed.

Lemma enable_fencing_inv T0 b d r d' :
  driver_inv d -> pvr_sync_ioctl_enable_fencing T0 b d = Ok r d' ->
  driver_inv d' ∧ keeps_timelines d d' ev_other.
Proof.
  intros Hinv H. unfold pvr_sync_ioctl_enable_fencing in H. munfold_in H.
  minv H; dsimpl.
  1,2: split; [frame Hinv|apply keeps_untouched; done].
  split; [frame Hinv|].
  intros T tl ts Htl Hts. dsimpl.
  destruct (decide (T0 = T)) as [->|Hne].
  - rewrite Htl in Hld. injection Hld as <-.
    eexists _, ts. rewrite lookup_insert_eq. repeat split; eauto.
  - exists tl, ts. rewrite lookup_insert_ne by exact Hne.
    repeat split; eauto.
Qed.

(** The fence prim of a kernel pair, once it is read, is the prim of no
    timeline. *)
Lemma fence_not_timeline d k kp s T tl :
  driver_inv d -> kernels d !! k = Some kp ->
  prims d !! fence_sync kp = Some s -> timelines d !! T = Some tl ->
  fence_sync kp ≠ timeline_sync tl.
Proof.
  intros (HA & _ & _ & HD & _) Hk Hs Htl.
  destruct (HD _ _ Hk) as [[E|(_ & _ & Hnt)] _].
  - destruct (HA _ _ Hs) as [Hnn _]. done.
  - intros Heq. eapply Hnt; [exact Htl|]. symmetry. exact Heq.
Qed.

Lemma keeps_other d d' e :
  (∀ T tl, timelines d !! T = Some tl ->
     ∃ tl', timelines d' !! T = Some tl' ∧
            timeline_sync tl' = timeline_sync tl) ->
  (∀ T tl ts, timelines d !! T = Some tl ->
     prims d !! timeline_sync tl = Some ts ->
     ∃ ts', prims d' !! timeline_sync tl = Some ts' ∧
            next_value ts' = next_value ts) ->
  (∀ T, e ≠ ev_alloc T false) ->
  keeps_timelines d d' e.
Proof.
  intros Ht Hp He T tl ts Htl Hts.
  destruct (Ht _ _ Htl) as (tl' & Htl' & Heq).
  destruct (Hp _ _ _ Htl Hts) as (ts' & Hts' & Hnv).
  exists tl', ts'. repeat split; auto.
  intros _. destruct (decide _) as [E|_]; [destruct (He _ E)|exact Hnv].
Qed.

Lemma timelines_insert_fwd d T0 tl0 tl1 :
  timelines d !! T0 = Some tl0 -> timeline_sync tl1 = timeline_sync tl0 ->
  ∀ T tl, timelines d !! T = Some tl ->
    ∃ tl', <[T0 := tl1]> (timelines d) !! T = Some tl' ∧
           timeline_sync tl' = timeline_sync tl.
Proof.
  intros H0 Heq T tl H. destruct (decide (T0 = T)) as [<-|Hne].
  - rewrite lookup_insert_eq. eexists; split; [reflexivity|]. congruence.
  - rewrite lookup_insert_ne by exact Hne. eauto.
Qed.

Lemma timelines_fwd d :
  ∀ T tl, timelines d !! T = Some tl ->
    ∃ tl', timelines d !! T = Some tl' ∧ timeline_sync tl' = timeline_sync tl.
Proof. eauto. Qed.

Lemma query_sync_update_inv fd m q d r d' :
  driver_inv d -> pvr_sync_query_sync_update fd m q d = Ok r d' ->
  driver_inv d' ∧ keeps_timelines d d' ev_other.
Proof.
  intros Hinv H. unfold pvr_sync_query_sync_update in H.
  apply bind_inv in H. destruct H as (a & d1 & Hfd & H).
  apply fdget_alloc_inv in Hfd. destruct Hfd as [-> _].
  munfold_in H. minv H; dsimpl.
  1-3: split; [frame Hinv|apply keeps_untouched; done].
  split; [frame Hinv|].
  apply keeps_other; dsimpl; [|intros T tl ts Htl Hts|done].
  - eapply timelines_insert_fwd; [eassumption|reflexivity].
  - rewrite lookup_insert_ne
      by (eapply fence_not_timeline; eassumption).
    eauto.
Qed.

Lemma sync_pool_put_sync_datas p d (u : unit) d' :
  sync_pool_put p d = Ok u d' -> sync_datas d' = sync_datas d.
Proof.
  intros H. unfold sync_pool_put, set_sync_value in H. munfold_in H.
  minv H; reflexivity.
Qed.

(** When [sync_pt_create] fails, [pvr_sync_create_sync] frees the sync
    data it was given. *)
Lemma pvr_sync_create_sync_none d T sd d' :
  sync_datas d !! NULL = None ->
  pvr_sync_create_sync T sd d = Ok None d' ->
  sd ≠ NULL ∧ sync_datas d' !! sd = None.
Proof.
  intros HF H. unfold pvr_sync_create_sync, complete_sync in H.
  munfold_in H.
  apply bind_inv in H. destruct H as (p & d1 & Hk & H).
  apply kmalloc_inv in Hk. destruct Hk as [[-> ->]|[-> ->]].
  2: { rewrite succ_not_null in H. minv H. }
  rewrite N.eqb_refl in H. minv H; dsimpl.
  all: assert (sd ≠ NULL) by (intros ->; congruence).
  all: split; [assumption|].
  all: try match goal with
       | Hp : sync_pool_put _ _ = Ok _ _ |- _ =>
           apply sync_pool_put_sync_datas in Hp; dsimpl
       end.
  all: dsimpl; apply lookup_delete_eq.
Qed.

Lemma null_insert {A} (m : gmap N A) k v :
  k ≠ NULL -> m !! NULL = None -> <[k := v]> m !! NULL = None.
Proof. intros Hk Hm. rewrite lookup_insert_ne by exact Hk. exact Hm. Qed.

Lemma null_delete {A} (m : gmap N A) k :
  m !! NULL = None -> delete k m !! NULL = None.
Proof. intros Hm. apply lookup_delete_None. right. exact Hm. Qed.

Lemma same_core_refl d : same_core d d.
Proof. unfold same_core. repeat split; auto; lia. Qed.

Lemma same_core_trans d1 d2 d3 :
  same_core d1 d2 -> same_core d2 d3 -> same_core d1 d3.
Proof.
  intros (A1 & B1 & C1 & D1 & E1 & F1) (A2 & B2 & C2 & D2 & E2 & F2).
  unfold same_core. repeat split; try congruence; try lia; auto.
Qed.

Lemma same_core_inv d d' e :
  driver_inv d -> same_core d d' -> (∀ T, e ≠ ev_alloc T false) ->
  driver_inv d' ∧ keeps_timelines d d' e.
Proof.
  intros Hinv (A & B & C & D & E & F) He. split.
  - apply (driver_inv_frame _ _ Hinv); auto.
    + intros q. rewrite A. reflexivity.
    + rewrite B. apply timelines_same.
    + apply F, Hinv.
  - apply keeps_untouched; auto.
Qed.

Ltac core :=
  unfold same_core; dsimpl;
  repeat match goal with |- _ ∧ _ => split end;
  try reflexivity; try lia;
  try (intros; assumption);
  try (intros; repeat first [ assumption | apply null_delete ]).

Lemma pvr_sync_free_sync_data_core sd d u d' :
  pvr_sync_free_sync_data sd d = Ok u d' -> same_core d d'.
Proof.
  intros H. unfold pvr_sync_free_sync_data, pvr_sync_defer_free in H.
  munfold_in H. minv H; core.
Qed.

Lemma pvr_sync_free_sync_core pt d u d' :
  pvr_sync_free_sync pt d = Ok u d' -> same_core d d'.
Proof.
  intros H. destruct pt as [T st sd|st]; [|discriminate H].
  unfold pvr_sync_free_sync, pvr_sync_defer_free in H.
  munfold_in H. minv H; core.
  all: apply null_insert; [intros ->; congruence|assumption].
Qed.

Lemma free_pts_core pts : ∀ d u d',
  free_pts pts d = Ok u d' -> same_core d d'.
Proof.
  induction pts as [|pt pts IH]; intros d u d' H.
  - injection H as _ <-. apply same_core_refl.
  - destruct pt as [T st sd|st]; [|exact (IH _ _ _ H)].
    cbn [free_pts] in H. apply bind_inv in H.
    destruct H as (v & d1 & H1 & H2).
    eapply same_core_trans; [eapply pvr_sync_free_sync_core; exact H1|].
    exact (IH _ _ _ H2).
Qed.
Lemma create_fence_inv T0 fd name d r d' :
  driver_inv d -> pvr_sync_ioctl_create_fence T0 fd name d = Ok r d' ->
  driver_inv d' ∧ keeps_timelines d d' ev_other.
Proof.
  intros Hinv H. unfold pvr_sync_ioctl_create_fence in H.
  assert (HF : sync_datas d !! NULL = None) by apply Hinv.
  do 3 (apply bind_inv in H; destruct H as (? & ? & Hr & H);
        apply reply_inv in Hr; destruct Hr as [-> ->];
        match type of H with
        | (if ?c then _ else _) _ = _ => destruct c eqn:?
        end;
        [munfold_in H; minv H; dsimpl;
         (split; [frame Hinv|apply keeps_untouched; done])|]).
  apply bind_inv in H. destruct H as (a & d1 & Hfd & H).
  apply fdget_alloc_inv in Hfd. destruct Hfd as [-> _].
  destruct (a =? NULL)%N eqn:Ha in H.
  { munfold_in H; minv H; dsimpl.
    split; [frame Hinv|apply keeps_untouched; done]. }
  apply bind_inv in H. destruct H as (ad & d1 & Hld & H).
  unfold load_alloc_data in Hld. apply load_inv in Hld.
  destruct Hld as [Had ->].
  match type of H with
  | (if ?c then _ else _) _ = _ => destruct c eqn:HT
  end.
  { munfold_in H; minv H; dsimpl.
    split; [frame Hinv|apply keeps_untouched; done]. }
  cbv zeta in H. dsimpl.
  apply bind_inv in H. destruct H as (u & d1 & Hst & H).
  munfold_in Hst. minv Hst.
  apply bind_inv in H. destruct H as ([pt|] & d1 & Hcs & H).
  - apply pvr_sync_create_sync_some in Hcs. destruct Hcs as [-> ->]. dsimpl.
    munfold_in H. minv H; dsimpl.
    all: repeat match goal with
         | Hx : pvr_sync_free_sync _ _ = Ok _ _ |- _ =>
             apply pvr_sync_free_sync_core in Hx
         | Hx : pvr_sync_free_sync_data _ _ = Ok _ _ |- _ =>
             apply pvr_sync_free_sync_data_core in Hx
         end.
    all: apply (same_core_inv _ _ _ Hinv); [|done].
    all: try (eapply same_core_trans; [|eassumption]).
    all: try (eapply same_core_trans; [|eassumption]).
    all: core.
  - apply pvr_sync_create_sync_none in Hcs; [|dsimpl; exact HF].
    destruct Hcs as [Hnn Hnone].
    apply N.eqb_neq in Hnn.
    unfold pvr_sync_free_sync_data in H. munfold_in H.
    rewrite Hnn in H. minv H; dsimpl; congruence.
Qed.

Lemma keeps_same_core d1 d2 d3 e :
  keeps_timelines d1 d2 e -> same_core d2 d3 -> keeps_timelines d1 d3 e.
Proof.
  intros Hk (A & B & _) T tl ts Htl Hts.
  destruct (Hk _ _ _ Htl Hts) as (tl' & ts' & H1 & H2 & H3 & H4).
  exists tl', ts'. rewrite A, B. auto.
Qed.

Lemma pvr_sync_alloc_release_inv a d r d' :
  driver_inv d -> pvr_sync_alloc_release a d = Ok r d' ->
  driver_inv d' ∧ keeps_timelines d d' (release_event d a).
Proof.
  intros Hinv H. unfold pvr_sync_alloc_release in H.
  apply bind_inv in H. destruct H as (ad & d1 & Hld & H).
  unfold load_alloc_data in Hld. apply load_inv in Hld.
  destruct Hld as [Had ->].
  apply bind_inv in H. destruct H as (u & d1 & H1 & H).
  apply bind_inv in H. destruct H as (u2 & d2 & H2 & H).
  apply pvr_sync_free_sync_data_core in H2.
  assert (H3 : same_core d1 d').
  { eapply same_core_trans; [exact H2|]. munfold_in H. minv H. core. }
  clear H H2.
  assert (Hev : ∀ T, release_event d a ≠ ev_alloc T false).
  { intros T. unfold release_event. destruct (rollback_target d a); done. }
  munfold_in H1. minv H1.
  - apply (same_core_inv _ _ _ Hinv H3 Hev).
  - assert (Hinv1 : driver_inv
      (set_prims (<[timeline_sync a3 :=
                    with_next_value (timeline_fence_value a0) a4]> (prims d)) d)).
    { frame Hinv. }
    split; [apply (same_core_inv _ _ ev_other Hinv1 H3); done|].
    eapply keeps_same_core; [|exact H3].
    intros T tl ts Htl Hts. dsimpl.
    destruct (decide (timeline_sync a3 = timeline_sync tl)) as [E|Hne].
    + assert (T = timeline ad) as ->.
      { destruct Hinv as (_ & _ & HC & _). eapply HC; eauto. }
      rewrite E. eexists tl, _. rewrite lookup_insert_eq.
      repeat split; eauto. intros Hno. exfalso. apply Hno.
      unfold release_event, rollback_target.
      rewrite Had. cbn. rewrite Hc. rewrite Hld. cbn. rewrite Hld0. cbn.
      rewrite Hld1. cbn. rewrite Hc0. reflexivity.
    + exists tl, ts. rewrite lookup_insert_ne by exact Hne.
      repeat split; eauto. intros _.
      destruct (decide _) as [E|_]; [destruct (Hev _ E)|reflexivity].
  - apply (same_core_inv _ _ _ Hinv H3 Hev).
Qed.

Lemma sys_close_inv fd d e d' :
  driver_inv d -> sys_close fd d = Ok e d' ->
  driver_inv d' ∧ keeps_timelines d d' e.
Proof.
  intros Hinv H. unfold sys_close in H.
  apply bind_inv in H. destruct H as (f & d1 & Hg & H). minv Hg.
  destruct (files d !! fd) as [[a|fence|]|] eqn:Hf.
  - apply bind_inv in H. destruct H as (t & d1 & Hg & H). minv Hg.
    apply bind_inv in H. destruct H as (r & d1 & Hr & H).
    apply pvr_sync_alloc_release_inv in Hr; [|exact Hinv].
    destruct Hr as [Hinv1 Hk]. unfold release_event in Hk.
    minv H.
    assert (Hc : same_core d1 (set_files (delete fd (files d1)) d1)) by core.
    split; [apply (same_core_inv _ _ ev_other Hinv1 Hc); done|].
    eapply keeps_same_core; [exact Hk|exact Hc].
  - apply bind_inv in H. destruct H as (r & d1 & Hr & H).
    apply free_pts_core in Hr. minv H.
    apply (same_core_inv _ _ _ Hinv); [|done].
    eapply same_core_trans; [exact Hr|]. core.
  - minv H. apply (same_core_inv _ _ _ Hinv); [|done]. core.
  - minv H. apply (same_core_inv _ _ _ Hinv); [|done]. core.
Qed.

(** A successful [sync_pool_get], field by field. *)
Lemma sync_pool_get_fields c t d p d' :
  sync_pool_get c t d = Ok (PVRSRV_OK, p) d' ->
  (∃ v, prims d' = <[p := fresh_prim c t d v]> (prims d)) ∧
  timelines d' = timelines d ∧ kernels d' = kernels d ∧
  sync_datas d' = sync_datas d ∧ taken d d' p ∧
  ((is_Some (prims d !! p) ∧ brk d' = brk d) ∨
   (p = N.succ (brk d) ∧ brk d' = p)).
Proof.
  intros H. apply sync_pool_get_cases in H.
  destruct H as [(rest & s & Hfree & Hs & ->)|(Hfree & -> & ->)].
  - unfold reused, taken. dsimpl. repeat split; eauto.
    + left. rewrite Hfree. repeat split; eauto. apply list_elem_of_here.
  - unfold allocated, taken. dsimpl. repeat split; eauto.
    + right. repeat split; auto. lia.
Qed.

Lemma taken_bounds d d1 p :
  driver_inv d -> taken d d1 p ->
  ((is_Some (prims d !! p) ∧ brk d1 = brk d) ∨
   (p = N.succ (brk d) ∧ brk d1 = p)) ->
  (p <= brk d1)%N ∧ (p ∉ sync_pool_free_list d1) ∧
  ∀ q, q ∈ sync_pool_free_list d1 -> q ∈ sync_pool_free_list d.
Proof.
  intros (HA & _) Ht Hb. split; [|split].
  - destruct Hb as [([s Hs] & ->)|(-> & ->)]; [|lia].
    apply (HA _ _ Hs).
  - destruct Ht as [(_ & _ & ->)|(_ & -> & _)]; [apply list_del_not_in|].
    apply not_elem_of_nil.
  - intros q. destruct Ht as [(_ & _ & ->)|(-> & -> & _)]; [|done].
    rewrite list_del_elem. tauto.
Qed.

Lemma open_inv name d r d' :
  driver_inv d -> pvr_sync_open name d = Ok r d' ->
  driver_inv d' ∧ keeps_timelines d d' ev_other.
Proof.
  intros Hinv H. unfold pvr_sync_open in H.
  apply bind_inv in H. destruct H as (T & d1 & Hk & H).
  apply kmalloc_inv in Hk. destruct Hk as [[-> ->]|[-> ->]].
  { rewrite N.eqb_refl in H. munfold_in H. minv H.
    apply (same_core_inv _ _ _ Hinv); [core|done]. }
  rewrite succ_not_null in H.
  apply bind_inv in H. destruct H as (u & d1 & Hst & H).
  munfold_in Hst. minv Hst.
  apply bind_inv in H. destruct H as ([e p] & d1 & Hg & H).
  destruct (decide (e = PVRSRV_OK)) as [->|He].
  - apply sync_pool_get_fields in Hg. dsimpl.
    destruct Hg as ([v Hp] & Ht & Hk & Hsd & Htk & Hb).
    assert (Htk' : taken d d1 p).
    { unfold taken in *. dsimpl.
      destruct Htk as [?|(? & ? & ?)]; [left; assumption|right].
      repeat split; auto. lia. }
    assert (Hb' : (is_Some (prims d !! p) ∧ (brk d < brk d1)%N ∧
                   (p <= brk d1)%N) ∨ (brk d < p ∧ brk d1 = p)%N).
    { destruct Hb as [([s Hs] & ->)|(-> & ->)].
      - left. split; [eauto|]. split; [lia|].
        destruct Hinv as (HA & _). destruct (HA _ _ Hs). lia.
      - right. lia. }
    pose proof (taken_unowned _ _ _ Hinv Htk') as Hun.
    assert (Hfree : (p ∉ sync_pool_free_list d1) ∧
       ∀ q, q ∈ sync_pool_free_list d1 -> q ∈ sync_pool_free_list d).
    { destruct Htk' as [(_ & _ & ->)|(-> & -> & _)].
      - split; [apply list_del_not_in|]. intros q.
        rewrite list_del_elem. tauto.
      - split; [apply not_elem_of_nil|done]. }
    destruct Hfree as [Hpf Hsub].
    munfold_in H. minv H. dsimpl.
    assert (Hnew : ∀ T tl, timelines d !! T = Some tl -> T ≠ N.succ (brk d)).
    { intros T tl Htl ->. destruct Hinv as (_ & HB & _).
      destruct (HB _ _ Htl) as [Hle _]. lia. }
    split.
    + apply (driver_inv_timeline d _ (N.succ (brk d)) p Hinv); dsimpl.
      * destruct Hb' as [(_ & ? & _)|[? ?]]; lia.
      * exact Hsub.
      * intros q Hq. rewrite Hp in Hq. apply is_Some_insert_new in Hq.
        destruct Hq as [->|[s Hs]].
        -- split; [apply Hun|]. destruct Hb' as [(_ & _ & ?)|[? ?]]; lia.
        -- destruct Hinv as (HA & _). destruct (HA _ _ Hs).
           split; [assumption|]. destruct Hb' as [(_ & ? & _)|[? ?]]; lia.
      * intros q Hq. rewrite Hp. apply is_Some_insert_new. auto.
      * intros T tl' Htl'. rewrite Ht in Htl'. dsimpl.
        apply lookup_insert_Some in Htl'.
        destruct Htl' as [[<- <-]|[Hne Htl']]; [right; done|left].
        rewrite lookup_insert_ne in Htl' by exact Hne. eauto.
      * exact Hk.
      * exact Hun.
      * destruct Hb' as [(_ & ? & _)|[? ?]]; lia.
      * rewrite Hp. apply is_Some_insert_new. auto.
      * exact Hpf.
      * rewrite Hsd. apply Hinv.
    + apply keeps_other; dsimpl; [| |done].
      * intros T tl Htl. rewrite Ht. dsimpl.
        rewrite !lookup_insert_ne
          by (intros E; apply (Hnew _ _ Htl); symmetry; exact E).
        eauto.
      * intros T tl ts Htl Hts. rewrite Hp.
        rewrite lookup_insert_ne; [eauto|].
        intros E. destruct Hun as (_ & Hnt & _).
        apply (Hnt _ _ Htl). symmetry. exact E.
  - destruct e; try done.
    all: apply sync_pool_get_err in Hg; [|done].
    all: destruct Hg as (-> & Hp & _ & _ & Hf & _ & Hb & Hk & Hsd & _ & Ht & _).
    all: munfold_in H; minv H; dsimpl.
    all: apply (same_core_inv _ _ _ Hinv); [|done].
    all: unfold same_core; dsimpl; rewrite Hp, Hf, Hk, Hsd, Ht; dsimpl.
    all: repeat match goal with |- _ ∧ _ => split end; auto; try lia.
    all: rewrite delete_insert_eq.
    all: apply delete_id.
    all: destruct (timelines d !! N.succ (brk d)) as [tl|] eqn:Htl; [|done].
    all: destruct Hinv as (_ & HB & _); destruct (HB _ _ Htl); lia.
Qed.

Lemma succ_neq_null p : N.succ p ≠ NULL.
Proof. unfold NULL. lia. Qed.

(** A failed [pvr_sync_create_sync_data] leaves nothing behind. *)
Lemma pvr_sync_create_sync_data_null T d d' :
  pvr_sync_create_sync_data T d = Ok NULL d' -> same_core d d'.
Proof.
  intros H. unfold pvr_sync_create_sync_data in H. munfold_in H.
  apply bind_inv in H. destruct H as (sd & d1 & Hk1 & H).
  apply kmalloc_inv in Hk1. destruct Hk1 as [[-> ->]|[-> ->]].
  { rewrite N.eqb_refl in H. minv H. core. }
  rewrite succ_not_null in H.
  apply bind_inv in H. destruct H as (u & d2 & Hst & H). minv Hst. dsimpl.
  apply bind_inv in H. destruct H as (k & d3 & Hk2 & H).
  apply kmalloc_inv in Hk2. destruct Hk2 as [[-> ->]|[-> ->]].
  { rewrite N.eqb_refl in H. minv H. core.
    apply null_insert; [apply succ_neq_null|assumption]. }
  rewrite succ_not_null in H. dsimpl.
  apply bind_inv in H. destruct H as (u2 & d2 & Hst & H). minv Hst. dsimpl.
  apply bind_inv in H. destruct H as (u3 & d2 & Hst & H). minv Hst. dsimpl.
  apply bind_inv in H. destruct H as (tl & d2 & Hld & H).
  apply load_inv in Hld. destruct Hld as [Htl ->]. dsimpl.
  apply bind_inv in H. destruct H as ([e p] & d2 & Hg & H).
  destruct (decide (e = PVRSRV_OK)) as [->|He].
  { minv H. exfalso. eapply succ_neq_null. symmetry. eassumption. }
  apply sync_pool_get_err in Hg; [|exact He].
  destruct Hg as (-> & Hp & _ & _ & Hf & _ & Hb & Hk & Hsd & _ & Ht & _).
  dsimpl.
  assert (H' : (kfree_kernel (N.succ (N.succ (brk d)));;
                kfree_sync_data (N.succ (brk d));; ret NULL)
                 (set_dmesg (dmesg d2 ++ [(KERN_ERR,
                    "pvr_sync_create_sync_data: Failed to allocate sync prim")])
                    d2) = Ok NULL d').
  { destruct e; try done; minv H; reflexivity. }
  clear H. munfold_in H'. minv H'.
  unfold same_core. dsimpl. rewrite Hp, Hf, Hk, Hsd, Ht.
  repeat match goal with |- _ ∧ _ => split end; auto; try lia.
  - intros k kp Hkp. apply lookup_delete_Some in Hkp.
    destruct Hkp as [Hne Hkp]. rewrite !lookup_insert_ne in Hkp by exact Hne.
    exact Hkp.
  - intros HF. apply null_delete.
    repeat (apply null_insert; [apply succ_neq_null|]). exact HF.
Qed.

Lemma keeps_trans d1 d2 d3 e :
  keeps_timelines d1 d2 ev_other -> keeps_timelines d2 d3 e ->
  keeps_timelines d1 d3 e.
Proof.
  intros H1 H2 T tl ts Htl Hts.
  destruct (H1 _ _ _ Htl Hts) as (tl1 & ts1 & A1 & B1 & C1 & D1).
  rewrite <- B1 in C1.
  destruct (H2 _ _ _ A1 C1) as (tl2 & ts2 & A2 & B2 & C2 & D2).
  exists tl2, ts2. split; [exact A2|]. split; [congruence|].
  split; [rewrite <- B1; exact C2|].
  intros Hno. rewrite (D2 Hno). rewrite D1 by done.
  destruct (decide (ev_other = _)) as [E|_]; [discriminate E|reflexivity].
Qed.

(** The prim of timeline [T0] gets a new record [x]. *)
Lemma keeps_bump d d' T0 tl0 ts0 x e :
  driver_inv d -> timelines d' = timelines d ->
  timelines d !! T0 = Some tl0 -> prims d !! timeline_sync tl0 = Some ts0 ->
  prims d' = <[timeline_sync tl0 := x]> (prims d) ->
  ((∀ T, e ≠ ev_alloc T false) ∧ next_value x = next_value ts0) ∨
  (e = ev_alloc T0 false ∧ next_value x = u32 (next_value ts0 + 1)) ->
  keeps_timelines d d' e.
Proof.
  intros (_ & _ & HC & _) Ht Htl0 Hts0 Hp He T tl ts Htl Hts.
  exists tl. rewrite Ht, Hp.
  destruct (decide (timeline_sync tl0 = timeline_sync tl)) as [E|Hne].
  - assert (T = T0) as -> by (eapply HC; eauto).
    rewrite Htl0 in Htl. injection Htl as <-.
    rewrite Hts0 in Hts. injection Hts as <-.
    exists x. rewrite lookup_insert_eq. repeat split; auto.
    intros _. destruct He as [[He Hx]|[-> Hx]].
    + destruct (decide _) as [E'|_]; [destruct (He _ E')|exact Hx].
    + destruct (decide _) as [_|E']; [exact Hx|done].
  - exists ts. rewrite lookup_insert_ne by exact Hne. repeat split; auto.
    intros _. destruct (decide _) as [E'|_]; [|reflexivity].
    destruct He as [[He _]|[-> _]]; [destruct (He _ E')|].
    injection E' as <-. rewrite Htl0 in Htl. injection Htl as <-. done.
Qed.

Ltac norm_loads :=
  repeat match goal with
  | Hx : <[?q := _]> _ !! ?q = Some _ |- _ =>
      rewrite lookup_insert_eq in Hx; injection Hx as <-
  | H1 : ?m !! ?k = Some _, H2 : ?m !! ?k = Some _ |- _ =>
      rewrite H1 in H2; injection H2 as <-
  end.

Ltac nulls Hinv :=
  repeat first [ apply null_delete
               | apply null_insert; [apply succ_neq_null|] ];
  apply Hinv.

Lemma alloc_fence_inv T0 d r d' :
  driver_inv d -> pvr_sync_ioctl_alloc_fence T0 d = Ok r d' ->
  driver_inv d' ∧ keeps_timelines d d' (alloc_event T0 r).
Proof.
  intros Hinv H. unfold pvr_sync_ioctl_alloc_fence in H.
  do 3 (apply bind_inv in H; destruct H as (? & ? & Hr & H);
        apply reply_inv in Hr; destruct Hr as [-> ->];
        match type of H with
        | (if ?c then _ else _) _ = _ => destruct c eqn:?
        end;
        [munfold_in H; minv H; dsimpl;
         (apply (same_core_inv _ _ _ Hinv); [core|done])|]).
  dsimpl.
  apply bind_inv in H. destruct H as (a & d1 & Hk & H).
  apply kmalloc_inv in Hk. destruct Hk as [[-> ->]|[-> ->]].
  { rewrite N.eqb_refl in H. munfold_in H. minv H. dsimpl.
    apply (same_core_inv _ _ _ Hinv); [core|done]. }
  rewrite succ_not_null in H. dsimpl.
  apply bind_inv in H. destruct H as (u & d1 & Hst & H).
  munfold_in Hst. minv Hst. dsimpl.
  apply bind_inv in H. destruct H as (sdp & d1 & Hcs & H).
  destruct (decide (sdp = NULL)) as [->|Hnn].
  { apply pvr_sync_create_sync_data_null in Hcs. rewrite N.eqb_refl in H.
    munfold_in H. minv H.
    apply (same_core_inv _ _ _ Hinv); [|done].
    eapply same_core_trans; [|eapply same_core_trans; [exact Hcs|]]; core. }
  apply pvr_sync_create_sync_data_ok in Hcs; [|exact Hnn].
  destruct Hcs as (tl0 & k & p & v & Htl0 & -> & -> & Hts & Had & Hfs & Hsds
                   & Hks & Hps & Hcase).
  dsimpl.
  rewrite succ_not_null in H.
  assert (Htk : taken d d1 p).
  { unfold taken. dsimpl.
    destruct Hcase as [(? & ? & ? & ?)|(? & ? & ? & ?)]; [left|right];
      repeat split; auto; lia. }
  assert (Hb : (brk d <= brk d1)%N ∧ (p <= brk d1)%N).
  { destruct Hcase as [([s Hs] & _ & _ & ->)|(_ & _ & -> & ->)]; [|lia].
    destruct Hinv as (HA & _). destruct (HA _ _ Hs). lia. }
  pose proof (taken_unowned _ _ _ Hinv Htk) as Hun.
  assert (Hfree : (p ∉ sync_pool_free_list d1) ∧
     ∀ q, q ∈ sync_pool_free_list d1 -> q ∈ sync_pool_free_list d).
  { destruct Htk as [(_ & _ & ->)|(-> & -> & _)].
    - split; [apply list_del_not_in|]. intros q.
      rewrite list_del_elem. tauto.
    - split; [apply not_elem_of_nil|done]. }
  destruct Hfree as [Hpf Hsub].
  assert (Hinv1 : driver_inv d1).
  { apply (driver_inv_pair d d1 p Hinv); auto; try tauto.
    - intros q Hq. rewrite Hps in Hq. apply is_Some_insert_new in Hq.
      destruct Hq as [->|[s Hs]]; [split; [apply Hun|tauto]|].
      destruct Hinv as (HA & _). destruct (HA _ _ Hs). split; [assumption|lia].
    - intros q Hq. rewrite Hps. apply is_Some_insert_new. auto.
    - rewrite Hts. apply timelines_same.
    - intros k kp Hkp. rewrite Hks in Hkp. apply lookup_insert_Some in Hkp.
      destruct Hkp as [[_ <-]|[_ Hkp]]; auto.
    - rewrite Hsds. apply null_insert; [apply succ_neq_null|apply Hinv]. }
  assert (Hk1 : keeps_timelines d d1 ev_other).
  { apply keeps_other; [rewrite Hts; apply timelines_fwd| |done].
    intros T tl ts Htl Htss. rewrite Hps.
    rewrite lookup_insert_ne; [eauto|].
    intros E. destruct Hun as (_ & Hnt & _).
    apply (Hnt _ _ Htl). symmetry. exact E. }
  cut (driver_inv d' ∧ keeps_timelines d1 d' (alloc_event T0 r)).
  { intros [? ?]. split; [assumption|]. eapply keeps_trans; eassumption. }
  rewrite <- Hts in Htl0.
  assert (Hsd1 : sync_datas d1 !! NULL = None) by apply Hinv1.
  clear Hinv Hk1 Hun Htk Hcase Hks Hps Hsds Hsub Hpf Hb Hts Had Hfs.
  unfold alloc_fence_err_rollback_timeline, alloc_fence_err_free_data,
    is_sync_met in H.
  munfold_in H. minv H; dsimpl.
  all: norm_loads.
  all: try match goal with
       | Hx : pvr_sync_free_sync_data _ _ = Ok _ _ |- _ =>
           apply pvr_sync_free_sync_data_core in Hx
       end.
  all: rewrite ?insert_insert_eq in *.
  all: try match goal with
    | Hx : same_core ?dY ?d2
      |- driver_inv ?dF ∧ keeps_timelines ?d1 ?dF _ =>
        replace (alloc_event T0 _) with ev_other by reflexivity;
        assert (HY : driver_inv dY ∧ keeps_timelines d1 dY ev_other);
        [ split;
          [ frame Hinv1; nulls Hinv1
          | first [ apply keeps_untouched; [reflexivity|reflexivity|done]
                  | eapply keeps_bump;
                    [ exact Hinv1 | reflexivity | eassumption | eassumption
                    | reflexivity | left; split; [done|reflexivity] ] ] ]
        | destruct HY as [HY1 HY2];
          assert (HZ : same_core dY dF)
            by (eapply same_core_trans; [exact Hx|core]);
          split;
          [ apply (same_core_inv _ _ ev_other HY1 HZ); done
          | eapply keeps_same_core; [exact HY2|exact HZ] ] ]
    end.
  - apply negb_true_iff in Hc0.
    split; [frame Hinv1; nulls Hinv1|].
    unfold alloc_event. cbn [bTimelineIdle]. rewrite Hc0.
    eapply keeps_bump;
      [ exact Hinv1 | reflexivity | eassumption | eassumption
      | reflexivity | right; split; reflexivity ].
  - apply negb_false_iff in Hc0.
    split; [frame Hinv1; nulls Hinv1|].
    unfold alloc_event. cbn [bTimelineIdle]. rewrite Hc0.
    apply keeps_untouched; [reflexivity|reflexivity|done].
Qed.

(** ** A successful allocation, field by field *)
Lemma alloc_fence_ok T d tl ts data d' :
  driver_inv d ->
  timelines d !! T = Some tl ->
  prims d !! timeline_sync tl = Some ts ->
  pvr_sync_ioctl_alloc_fence T d = Ok (0, Some data) d' ->
  bTimelineIdle data = timeline_idle tl ts ∧
  ∃ a sdp k p fs,
    files d' !! iFenceFd data = Some (alloc_sync_file a) ∧
    alloc_datas d' !! a = Some {| sync_data := sdp; timeline := T |} ∧
    sdp ≠ NULL ∧
    sync_datas d' !! sdp =
      Some {| kernel := k; timeline_fence_value := next_value ts;
              timeline_update_value := reserved_value tl ts;
              refcount := 1 |} ∧
    kernels d' !! k = Some {| fence_sync := p; cleanup_sync := NULL |} ∧
    prims d' !! p = Some fs ∧ next_value fs = 0 ∧ client_sync fs = 0 ∧
    p ≠ timeline_sync tl ∧
    prims d' !! timeline_sync tl =
      Some (with_next_value (reserved_value tl ts) ts) ∧
    timelines d' = timelines d.
Proof.
  intros Hinv Htl Hts H. unfold pvr_sync_ioctl_alloc_fence in H.
  do 3 (apply bind_inv in H; destruct H as (? & ? & Hr & H);
        apply reply_inv in Hr; destruct Hr as [-> ->];
        match type of H with
        | (if ?c then _ else _) _ = _ => destruct c eqn:?
        end;
        [munfold_in H; minv H|]).
  dsimpl.
  apply bind_inv in H. destruct H as (a & d1 & Hk & H).
  apply kmalloc_inv in Hk. destruct Hk as [[-> ->]|[-> ->]].
  { rewrite N.eqb_refl in H. munfold_in H. minv H. }
  rewrite succ_not_null in H. dsimpl.
  apply bind_inv in H. destruct H as (u & d1 & Hst & H).
  munfold_in Hst. minv Hst. dsimpl.
  apply bind_inv in H. destruct H as (sdp & d1 & Hcs & H).
  destruct (decide (sdp = NULL)) as [->|Hnn].
  { rewrite N.eqb_refl in H. munfold_in H. minv H. }
  apply pvr_sync_create_sync_data_ok in Hcs; [|exact Hnn].
  destruct Hcs as (tl0 & k & p & v & Htl0 & -> & -> & Htls & Had & Hfs & Hsds
                   & Hks & Hps & Hcase).
  dsimpl. rewrite Htl in Htl0. injection Htl0 as <-.
  rewrite succ_not_null in H.
  assert (Hne : p ≠ timeline_sync tl).
  { eapply taken_not_timeline; [exact Hinv|exact Htl|].
    destruct Hcase as [Hc'|(? & ? & -> & ?)]; [left; exact Hc'|right].
    dsimpl. repeat split; try assumption; lia. }
  assert (Hts1 : prims d1 !! timeline_sync tl = Some ts).
  { rewrite Hps. rewrite lookup_insert_ne by exact Hne. exact Hts. }
  assert (Hp1 : prims d1 !! p =
                Some (fresh_prim (obj_name tl) SYNC_PT_FENCE_TYPE
                        (set_alloc_datas
                           (<[N.succ (brk d) :=
                                {| sync_data := NULL; timeline := NULL |}]>
                              (alloc_datas d))
                           (set_brk (N.succ (brk d))
                              (set_replies
                                 (tail (tail (tail (tail (replies d))))) d)))
                        v)).
  { rewrite Hps. apply lookup_insert_eq. }
  assert (Hsd1 : sync_datas d1 !! N.succ (N.succ (brk d)) =
                 Some {| kernel := N.succ (N.succ (N.succ (brk d)));
                         timeline_fence_value := 0;
                         timeline_update_value := 0; refcount := 1 |}).
  { rewrite Hsds. apply lookup_insert_eq. }
  assert (Hk1 : kernels d1 !! N.succ (N.succ (N.succ (brk d))) =
                Some {| fence_sync := p; cleanup_sync := NULL |}).
  { rewrite Hks. apply lookup_insert_eq. }
  assert (Htl1 : timelines d1 !! T = Some tl) by (rewrite Htls; exact Htl).
  clear Hps Hsds Hks Hcase Hts Htl Hinv Had Hfs.
  unfold alloc_fence_err_rollback_timeline, alloc_fence_err_free_data,
    is_sync_met in H.
  munfold_in H. minv H; dsimpl.
  all: norm_loads.
  all: rewrite ?insert_insert_eq in *.
  all: cbn [bTimelineIdle iFenceFd].
  all: unfold reserved_value, timeline_idle.
  all: match goal with
       | Hc : negb _ = true |- _ => apply negb_true_iff in Hc; rewrite Hc
       | Hc : negb _ = false |- _ => apply negb_false_iff in Hc; rewrite Hc
       end.
  all: split; [reflexivity|]; eexists _, _, _, p, _.
  all: split; [apply lookup_insert_eq|].
  all: split; [apply lookup_insert_eq|].
  all: split; [exact Hnn|].
  all: split; [apply lookup_insert_eq|].
  all: split; [exact Hk1|].
  all: split;
    [ first [ exact Hp1
            | rewrite lookup_insert_ne
                by (intros E; apply Hne; symmetry; exact E);
              exact Hp1 ]|].
  all: split; [reflexivity|]; split; [reflexivity|]; split; [exact Hne|].
  all: split; [|exact Htls].
  - apply lookup_insert_eq.
  - rewrite Hld0. destruct a2; reflexivity.
Qed.

(** C7, amended.  A successful [pvr_sync_ioctl_alloc_fence] on timeline
    [T], whose record is [tl] and whose prim is [ts] beforehand, returns
    the idle flag [is_sync_met(timeline_sync) && !fencing_enabled]; the
    sync data of the new alloc sync records [next_value ts] as
    [timeline_fence_value] and the resulting [next_value] as
    [timeline_update_value]; the [next_value] of the prim is incremented
    (in [u32]) exactly when the timeline is not idle and is the unchanged
    baseline when it is; and the timeline record, [fencing_enabled]
    included, is left as it was. *)
Theorem pvr_sync_ioctl_alloc_fence_reserves T d tl ts data d' :
  driver_inv d ->
  timelines d !! T = Some tl ->
  prims d !! timeline_sync tl = Some ts ->
  pvr_sync_ioctl_alloc_fence T d = Ok (0, Some data) d' ->
  bTimelineIdle data = timeline_idle tl ts ∧
  ∃ a sdp sd,
    files d' !! iFenceFd data = Some (alloc_sync_file a) ∧
    alloc_datas d' !! a = Some {| sync_data := sdp; timeline := T |} ∧
    sdp ≠ NULL ∧
    sync_datas d' !! sdp = Some sd ∧
    timeline_fence_value sd = next_value ts ∧
    timeline_update_value sd = reserved_value tl ts ∧
    prims d' !! timeline_sync tl =
      Some (with_next_value (reserved_value tl ts) ts) ∧
    timelines d' !! T = Some tl.
Proof.
  intros Hinv Htl Hts H.
  destruct (alloc_fence_ok _ _ _ _ _ _ Hinv Htl Hts H)
    as (Hidle & a & sdp & k & p & fs & Hf & Ha & Hnn & Hsd & _ & _ & _ & _
        & _ & Hp & Ht).
  split; [exact Hidle|]. exists a, sdp. eexists.
  split; [exact Hf|]. split; [exact Ha|]. split; [exact Hnn|].
  split; [exact Hsd|]. cbn. split; [reflexivity|]. split; [reflexivity|].
  split; [exact Hp|]. rewrite Ht. exact Htl.
Qed.

(** ** Releasing an alloc sync *)

Lemma pvr_sync_alloc_release_unused d a ad sd tl ts :
  unused d a ad sd ->
  timelines d !! timeline ad = Some tl ->
  prims d !! timeline_sync tl = Some ts ->
  ∃ d', pvr_sync_alloc_release a d = Ok 0 d' ∧
        prims d' =
          <[timeline_sync tl := with_next_value (timeline_fence_value sd) ts]>
            (prims d) ∧
        timelines d' = timelines d ∧
        alloc_datas d' = delete a (alloc_datas d).
Proof.
  intros (Had & Hnn & Hsd & k & fs & Hk & Hfs & Hnv) Htl Hts.
  unfold pvr_sync_alloc_release, pvr_sync_free_sync_data, pvr_sync_defer_free.
  mnorm. apply N.eqb_neq in Hnn.
  mrw Had. mrw Hnn. mrw Hsd. mrw Hk. mrw Hfs. rewrite Hnv.
  rewrite Z.eqb_refl. mrw Htl. mrw Hts. mrw Hsd.
  destruct (kernel sd =? NULL)%N; eexists; repeat split; reflexivity.
Qed.

(** C6.  After a successful allocation on timeline [T] the new alloc
    sync is [unused] (create has not been called on it and the
    [next_value] of its fence prim is 0) and its [timeline_fence_value]
    is the [next_value] that the prim of [T] had before the allocation.
    Released right away, [pvr_sync_alloc_release] returns 0 and the prim
    of [T] is again the record it was before the allocation.  In every
    later state in which the alloc sync is still [unused], the release
    returns 0 and the prim of [T] has that pre-allocation [next_value]
    afterwards, its other fields and every other prim being as they were
    before the release. *)
Theorem pvr_sync_alloc_release_restores T d tl ts data d1 :
  driver_inv d ->
  timelines d !! T = Some tl ->
  prims d !! timeline_sync tl = Some ts ->
  pvr_sync_ioctl_alloc_fence T d = Ok (0, Some data) d1 ->
  ∃ a ad sd,
    files d1 !! iFenceFd data = Some (alloc_sync_file a) ∧
    timeline ad = T ∧ timeline_fence_value sd = next_value ts ∧
    unused d1 a ad sd ∧
    (∃ d3, pvr_sync_alloc_release a d1 = Ok 0 d3 ∧
           prims d3 !! timeline_sync tl = Some ts) ∧
    ∀ d2 tl2 ts2,
      unused d2 a ad sd ->
      timelines d2 !! T = Some tl2 ->
      prims d2 !! timeline_sync tl2 = Some ts2 ->
      ∃ d3 ts3,
        pvr_sync_alloc_release a d2 = Ok 0 d3 ∧
        prims d3 !! timeline_sync tl2 = Some ts3 ∧
        next_value ts3 = next_value ts ∧
        client_sync ts3 = client_sync ts2 ∧ id ts3 = id ts2 ∧
        vaddr ts3 = vaddr ts2 ∧ type ts3 = type ts2 ∧
        class ts3 = class ts2 ∧
        ∀ p, p ≠ timeline_sync tl2 -> prims d3 !! p = prims d2 !! p.
Proof.
  intros Hinv Htl Hts H.
  destruct (alloc_fence_ok _ _ _ _ _ _ Hinv Htl Hts H)
    as (_ & a & sdp & k & p & fs & Hf & Ha & Hnn & Hsd & Hk & Hfs & Hnv & _
        & _ & Hp1 & Ht1).
  exists a, {| sync_data := sdp; timeline := T |},
    {| kernel := k; timeline_fence_value := next_value ts;
       timeline_update_value := reserved_value tl ts; refcount := 1 |}.
  assert (Hun : unused d1 a {| sync_data := sdp; timeline := T |}
                  {| kernel := k; timeline_fence_value := next_value ts;
                     timeline_update_value := reserved_value tl ts;
                     refcount := 1 |}).
  { split; [exact Ha|]. split; [exact Hnn|]. split; [exact Hsd|].
    exists {| fence_sync := p; cleanup_sync := NULL |}, fs. auto. }
  split; [exact Hf|]. cbn [timeline timeline_fence_value].
  split; [reflexivity|]. split; [reflexivity|]. split; [exact Hun|]. split.
  - assert (Htl1 : timelines d1 !! T = Some tl) by (rewrite Ht1; exact Htl).
    destruct (pvr_sync_alloc_release_unused _ _ _ _ _ _ Hun Htl1 Hp1)
      as (d3 & Hr & Hp & _).
    exists d3. split; [exact Hr|].
    rewrite Hp, lookup_insert_eq. cbn [timeline_fence_value].
    destruct ts; reflexivity.
  - intros d2 tl2 ts2 Hun2 Htl2 Hts2.
    destruct (pvr_sync_alloc_release_unused _ _ _ _ _ _ Hun2 Htl2 Hts2)
      as (d3 & Hr & Hp & _).
    exists d3, (with_next_value (next_value ts) ts2).
    split; [exact Hr|]. rewrite Hp.
    split; [apply lookup_insert_eq|].
    do 6 (split; [reflexivity|]).
    intros q Hq. apply lookup_insert_ne. congruence.
Qed.

(** ** Runs *)

Lemma driver_inv_init script : driver_inv (pvr_sync_init script).
Proof.
  unfold driver_inv, pvr_sync_init. dsimpl.
  repeat split; intros; simplify_map_eq.
Qed.

Lemma step_inv o d e d' :
  driver_inv d -> step o d = Ok e d' ->
  driver_inv d' ∧ keeps_timelines d d' e.
Proof.
  intros Hinv H. destruct o; cbn [step] in H.
  - apply bind_inv in H. destruct H as (r & d1 & H1 & H2). minv H2.
    eapply open_inv; eassumption.
  - apply bind_inv in H. destruct H as (r & d1 & H1 & H2). minv H2.
    eapply alloc_fence_inv; eassumption.
  - apply bind_inv in H. destruct H as (r & d1 & H1 & H2). minv H2.
    eapply create_fence_inv; eassumption.
  - apply bind_inv in H. destruct H as (r & d1 & H1 & H2). minv H2.
    eapply enable_fencing_inv; eassumption.
  - apply bind_inv in H. destruct H as (r & d1 & H1 & H2). minv H2.
    eapply query_sync_update_inv; eassumption.
  - eapply sys_close_inv; eassumption.
  - apply bind_inv in H. destruct H as (r & d1 & H1 & H2). minv H2.
    eapply hw_write_inv; eassumption.
Qed.

Lemma busy_allocs_cons T e evs :
  busy_allocs T (e :: evs) =
    ((if decide (e = ev_alloc T false) then 1 else 0) + busy_allocs T evs)%nat.
Proof.
  unfold busy_allocs. destruct (decide (e = ev_alloc T false)) as [E|E].
  - rewrite filter_cons_True by exact E. reflexivity.
  - rewrite filter_cons_False by exact E. reflexivity.
Qed.

(** Along a run that does not roll [T] back, the [next_value] of the
    prim of [T] grows by the number of allocations on [T] that were not
    idle. *)
Lemma run_counts ops : ∀ d evs d' T tl ts,
  driver_inv d ->
  timelines d !! T = Some tl -> prims d !! timeline_sync tl = Some ts ->
  is_u32 (next_value ts) ->
  run ops d = Ok evs d' ->
  ev_rollback T ∉ evs ->
  driver_inv d' ∧
  ∃ tl' ts', timelines d' !! T = Some tl' ∧
             timeline_sync tl' = timeline_sync tl ∧
             prims d' !! timeline_sync tl' = Some ts' ∧
             next_value ts' = u32 (next_value ts + Z.of_nat (busy_allocs T evs)).
Proof.
  induction ops as [|o ops IH]; intros d evs d' T tl ts Hinv Htl Hts Hu H Hno.
  - injection H as <- <-. split; [exact Hinv|]. exists tl, ts.
    repeat split; auto. cbn. rewrite Z.add_0_r. symmetry. apply u32_id, Hu.
  - cbn [run] in H. apply bind_inv in H. destruct H as (e & d1 & Hs & H).
    apply bind_inv in H. destruct H as (es & d2 & Hr & H). minv H.
    apply not_elem_of_cons in Hno. destruct Hno as [Hne Hno].
    destruct (step_inv _ _ _ _ Hinv Hs) as [Hinv1 Hk].
    destruct (Hk _ _ _ Htl Hts) as (tl1 & ts1 & Htl1 & Heq & Hts1 & Hnv).
    rewrite <- Heq in Hts1.
    assert (Hnv1 : next_value ts1 =
              if decide (e = ev_alloc T false) then u32 (next_value ts + 1)
              else next_value ts).
    { apply Hnv. intros E. apply Hne. symmetry. exact E. }
    assert (Hu1 : is_u32 (next_value ts1)).
    { rewrite Hnv1. destruct (decide _); [apply u32_range|exact Hu]. }
    destruct (IH _ _ _ _ _ _ Hinv1 Htl1 Hts1 Hu1 Hr Hno)
      as (Hinv2 & tl2 & ts2 & Htl2 & Heq2 & Hts2 & Hnv2).
    split; [exact Hinv2|]. exists tl2, ts2.
    split; [exact Htl2|]. split; [congruence|]. split; [exact Hts2|].
    rewrite Hnv2, Hnv1, busy_allocs_cons.
    destruct (decide (e = ev_alloc T false)).
    + unfold u32. rewrite Nat2Z.inj_add. cbn [Z.of_nat Pos.of_succ_nat].
      rewrite Zplus_mod_idemp_l. f_equal. lia.
    + reflexivity.
Qed.

(** A timeline starts with [next_value] 0 and fencing enabled. *)
Lemma pvr_sync_open_ok name d T d' :
  pvr_sync_open name d = Ok (0, T) d' ->
  ∃ tl ts, timelines d' !! T = Some tl ∧ fencing_enabled tl = true ∧
           prims d' !! timeline_sync tl = Some ts ∧ next_value ts = 0.
Proof.
  intros H. unfold pvr_sync_open in H.
  apply bind_inv in H. destruct H as (T' & d1 & Hk & H).
  apply kmalloc_inv in Hk. destruct Hk as [[-> ->]|[-> ->]].
  { rewrite N.eqb_refl in H. munfold_in H. minv H. }
  rewrite succ_not_null in H.
  apply bind_inv in H. destruct H as (u & d1 & Hst & H).
  munfold_in Hst. minv Hst.
  apply bind_inv in H. destruct H as ([e p] & d1 & Hg & H).
  destruct (decide (e = PVRSRV_OK)) as [->|He].
  - apply sync_pool_get_fields in Hg.
    destruct Hg as ([v Hp] & Ht & _). munfold_in H. minv H. dsimpl.
    eexists _, _. rewrite lookup_insert_eq. split; [reflexivity|].
    split; [reflexivity|]. cbn [timeline_sync]. rewrite Hp.
    rewrite lookup_insert_eq. split; reflexivity.
  - destruct e; try done; munfold_in H; minv H.
Qed.

(** ** The concrete run *)

Lemma demo_open_eq :
  pvr_sync_open "tl" demo_init = Ok (0, 1%N) demo_open.
Proof. vm_compute. reflexivity. Qed.

Lemma driver_inv_demo_open : driver_inv demo_open.
Proof.
  exact (proj1 (open_inv _ _ _ _ (driver_inv_init demo_script) demo_open_eq)).
Qed.

Lemma demo_alloc_eq :
  pvr_sync_ioctl_alloc_fence 1 demo_open =
    Ok (0, Some {| iFenceFd := 3; bTimelineIdle := false |}) demo_alloc.
Proof. vm_compute. reflexivity. Qed.

Lemma demo_timeline_eq : timelines demo_open !! 1%N = Some demo_timeline.
Proof. vm_compute. reflexivity. Qed.

Lemma demo_timeline_prim_eq :
  prims demo_open !! timeline_sync demo_timeline = Some demo_timeline_prim.
Proof. vm_compute. reflexivity. Qed.

(** C7, as it is stated, fails on the concrete run: the successful
    allocation leaves [fencing_enabled] as [pvr_sync_open] set it,
    [true]. *)
Lemma pvr_sync_ioctl_alloc_fence_keeps_fencing_enabled :
  pvr_sync_ioctl_alloc_fence 1 demo_open =
    Ok (0, Some {| iFenceFd := 3; bTimelineIdle := false |}) demo_alloc ∧
  fencing_enabled <$> timelines demo_open !! 1%N = Some true ∧
  fencing_enabled <$> timelines demo_alloc !! 1%N = Some true.
Proof. vm_compute. repeat split. Qed.

Lemma pvr_sync_ioctl_alloc_fence_reserves_demo :
  bTimelineIdle {| iFenceFd := 3; bTimelineIdle := false |} =
    timeline_idle demo_timeline demo_timeline_prim ∧
  ∃ a sdp sd,
    files demo_alloc !! 3 = Some (alloc_sync_file a) ∧
    alloc_datas demo_alloc !! a = Some {| sync_data := sdp; timeline := 1%N |} ∧
    sdp ≠ NULL ∧
    sync_datas demo_alloc !! sdp = Some sd ∧
    timeline_fence_value sd = 0 ∧
    timeline_update_value sd = 1 ∧
    prims demo_alloc !! 2%N =
      Some (with_next_value 1 demo_timeline_prim) ∧
    timelines demo_alloc !! 1%N = Some demo_timeline.
Proof.
  exact (pvr_sync_ioctl_alloc_fence_reserves 1 demo_open demo_timeline
           demo_timeline_prim {| iFenceFd := 3; bTimelineIdle := false |}
           demo_alloc driver_inv_demo_open demo_timeline_eq
           demo_timeline_prim_eq demo_alloc_eq).
Defined.

(** On the concrete run: the allocation takes the [next_value] of the
    timeline prim from 0 to 1, and the release of the unused alloc sync
    takes it back to 0. *)
Lemma pvr_sync_alloc_release_restores_demo :
  next_value <$> prims demo_open !! 2%N = Some 0 ∧
  next_value <$> prims demo_alloc !! 2%N = Some 1 ∧
  ∃ d3, pvr_sync_alloc_release 3 demo_alloc = Ok 0 d3 ∧
        prims d3 !! 2%N = Some demo_timeline_prim ∧
        next_value <$> prims d3 !! 2%N = Some 0.
Proof.
  split; [vm_compute; reflexivity|]. split; [vm_compute; reflexivity|].
  destruct (pvr_sync_alloc_release_restores 1 demo_open demo_timeline
              demo_timeline_prim {| iFenceFd := 3; bTimelineIdle := false |}
              demo_alloc driver_inv_demo_open demo_timeline_eq
              demo_timeline_prim_eq demo_alloc_eq)
    as (a & ad & sd & Hf & _ & _ & _ & (d3 & Hr & Hp) & _).
  assert (Ha : a = 3%N).
  { vm_compute in Hf. injection Hf as Hf. symmetry. exact Hf. }
  subst a. exists d3. split; [exact Hr|].
  change (timeline_sync demo_timeline) with 2%N in Hp.
  split; [exact Hp|]. rewrite Hp. reflexivity.
Defined.

(** C5, amended.  A timeline [T] that [pvr_sync_open] created starts
    with [next_value] 0, and after every run of operations in which no
    release of an unused alloc sync rolled [T] back, the [next_value] of
    the prim of [T] is the number of successful allocations on [T] that
    were not idle, modulo [2^32].  The statement holds after every prefix
    of a run, so until a rollback the value only grows, by one for each
    such allocation. *)
Theorem timeline_next_value_counts name ops d T d0 evs d' :
  driver_inv d ->
  pvr_sync_open name d = Ok (0, T) d0 ->
  run ops d0 = Ok evs d' ->
  ev_rollback T ∉ evs ->
  ∃ tl ts,
    timelines d' !! T = Some tl ∧
    prims d' !! timeline_sync tl = Some ts ∧
    next_value ts = u32 (Z.of_nat (busy_allocs T evs)).
Proof.
  intros Hinv Hopen Hrun Hno.
  destruct (pvr_sync_open_ok _ _ _ _ Hopen) as (tl & ts & Htl & _ & Hts & Hnv).
  pose proof (proj1 (open_inv _ _ _ _ Hinv Hopen)) as Hinv0.
  assert (Hu : is_u32 (next_value ts)) by (rewrite Hnv; unfold is_u32; lia).
  destruct (run_counts _ _ _ _ _ _ _ Hinv0 Htl Hts Hu Hrun Hno)
    as (_ & tl' & ts' & Htl' & _ & Hts' & Hnv').
  exists tl', ts'. split; [exact Htl'|]. split; [exact Hts'|].
  rewrite Hnv', Hnv. reflexivity.
Qed.

Lemma demo_run_eq :
  run [op_alloc_fence 1; op_query_update 3 8 empty_buffers;
       op_create_fence 1 3 "fence"] demo_open =
    Ok [ev_alloc 1 false; ev_other; ev_other] demo_create.
Proof. vm_compute. reflexivity. Qed.

Lemma demo_run_no_rollback :
  ev_rollback 1 ∉ [ev_alloc 1 false; ev_other; ev_other].
Proof. rewrite !not_elem_of_cons. repeat split; try discriminate. apply not_elem_of_nil. Qed.

Lemma timeline_next_value_counts_demo :
  ∃ tl ts,
    timelines demo_create !! 1%N = Some tl ∧
    prims demo_create !! timeline_sync tl = Some ts ∧
    next_value ts = 1.
Proof.
  exact (timeline_next_value_counts "tl" _ demo_init 1 demo_open _ demo_create
           (driver_inv_init demo_script) demo_open_eq demo_run_eq
           demo_run_no_rollback).
Defined.

(** C5, as it is stated, fails on the concrete run: releasing the alloc
    sync unused takes the [next_value] of the timeline prim from 1 back
    to 0, after one allocation that was not idle. *)
Lemma pvr_sync_alloc_release_decreases_next_value :
  pvr_sync_ioctl_alloc_fence 1 demo_open =
    Ok (0, Some {| iFenceFd := 3; bTimelineIdle := false |}) demo_alloc ∧
  next_value <$> prims demo_open !! 2%N = Some 0 ∧
  next_value <$> prims demo_alloc !! 2%N = Some 1 ∧
  (∃ d, pvr_sync_alloc_release 3 demo_alloc = Ok 0 d ∧
        next_value <$> prims d !! 2%N = Some 0) ∧
  run [op_alloc_fence 1; op_close 3] demo_open =
    Ok [ev_alloc 1 false; ev_rollback 1] demo_release ∧
  next_value <$> prims demo_release !! 2%N = Some 0 ∧
  busy_allocs 1 [ev_alloc 1 false; ev_rollback 1] = 1%nat.
Proof.
  split; [vm_compute; reflexivity|].
  split; [vm_compute; reflexivity|].
  split; [vm_compute; reflexivity|].
  split; [eexists; split; vm_compute; reflexivity|].
  vm_compute. repeat split.
Qed.

(** ** Signaled points *)

(** A successful create-fence writes no prim, kernel pair, sync data or
    timeline; it installs a fence whose one point shares the sync data of
    the alloc sync. *)
Lemma pvr_sync_ioctl_create_fence_ok d T fd nm a ad fd' d' :
  files d !! fd = Some (alloc_sync_file a) ->
  alloc_datas d !! a = Some ad ->
  pvr_sync_ioctl_create_fence T fd nm d = Ok (0, Some fd') d' ->
  prims d' = prims d ∧ kernels d' = kernels d ∧
  sync_datas d' = sync_datas d ∧ timelines d' = timelines d ∧
  files d' =
    <[fd' := sync_fence_file
               {| name := terminated32 nm;
                  pt_list_head := [pvr_sync_pt T 0 (sync_data ad)] |}]>
      (files d).
Proof.
  intros Hf Ha H. unfold pvr_sync_ioctl_create_fence in H. munfold_in H.
  minv H. dsimpl.
  apply fdget_alloc_inv in H. destruct H as [-> Hfd]. dsimpl.
  destruct Hfd as [->|Hfd]; [rewrite N.eqb_refl in Hc2; discriminate|].
  rewrite Hf in Hfd. injection Hfd as <-.
  rewrite Ha in Hld. injection Hld as <-.
  apply pvr_sync_create_sync_some in H0. destruct H0 as [-> ->]. dsimpl.
  auto.
Qed.

Lemma pvr_sync_has_signaled_eq d parent status sd data :
  sync_datas d !! sd = Some data ->
  (kernel data = NULL ->
     pvr_sync_has_signaled (pvr_sync_pt parent status sd) d = Ok 1 d) ∧
  (∀ k fs,
     kernel data ≠ NULL ->
     kernels d !! kernel data = Some k ->
     prims d !! fence_sync k = Some fs ->
     pvr_sync_has_signaled (pvr_sync_pt parent status sd) d =
       Ok (if client_sync fs =? next_value fs then 1 else 0) d).
Proof.
  intros Hsd. split.
  - intros Hk. unfold pvr_sync_has_signaled. mnorm. mrw Hsd.
    rewrite Hk. reflexivity.
  - intros k fs Hk Hkp Hfs.
    assert (Hnull : (kernel data =? NULL)%N = false)
      by (apply N.eqb_neq; exact Hk).
    unfold pvr_sync_has_signaled. mnorm. mrw Hsd. mrw Hnull. mrw Hkp.
    rewrite (is_sync_met_eq _ _ _ Hfs). reflexivity.
Qed.

(** C3, amended.  A point is signaled exactly when it is idle (its sync
    data has no kernel pair) or the current value of its fence prim
    equals the prim's [next_value]: [pvr_sync_has_signaled] returns 1 for
    an idle point, and for a point with a fence prim it returns 1 when
    the two values are equal and 0 otherwise; it returns 1 once the prim
    has been completed.  Create-fence writes no prim, so the point it
    makes of an alloc sync is unsignaled exactly when the fence prim of
    the alloc sync was short of its [next_value] before, as it is after
    an update query; the point of an alloc sync that is created right
    after its allocation is signaled at once, the value and the
    [next_value] of its prim being both 0. *)
Theorem pvr_sync_has_signaled_iff d parent status sd data :
  sync_datas d !! sd = Some data ->
  (kernel data = NULL ->
     pvr_sync_has_signaled (pvr_sync_pt parent status sd) d = Ok 1 d) ∧
  (∀ k fs,
     kernel data ≠ NULL ->
     kernels d !! kernel data = Some k ->
     prims d !! fence_sync k = Some fs ->
     pvr_sync_has_signaled (pvr_sync_pt parent status sd) d =
       Ok (if client_sync fs =? next_value fs then 1 else 0) d ∧
     (∀ d', complete_sync (fence_sync k) d = Ok tt d' ->
        pvr_sync_has_signaled (pvr_sync_pt parent status sd) d' = Ok 1 d')) ∧
  (∀ T fd nm a ad fd' d',
     files d !! fd = Some (alloc_sync_file a) ->
     alloc_datas d !! a = Some ad -> sync_data ad = sd ->
     pvr_sync_ioctl_create_fence T fd nm d = Ok (0, Some fd') d' ->
     files d' !! fd' =
       Some (sync_fence_file {| name := terminated32 nm;
                                pt_list_head := [pvr_sync_pt T 0 sd] |}) ∧
     (kernel data = NULL ->
        pvr_sync_has_signaled (pvr_sync_pt T 0 sd) d' = Ok 1 d') ∧
     (∀ k fs,
        kernel data ≠ NULL ->
        kernels d !! kernel data = Some k ->
        prims d !! fence_sync k = Some fs ->
        pvr_sync_has_signaled (pvr_sync_pt T 0 sd) d' =
          Ok (if client_sync fs =? next_value fs then 1 else 0) d')) ∧
  (∀ d0 T tl ts info nm fd' d',
     driver_inv d0 ->
     timelines d0 !! T = Some tl ->
     prims d0 !! timeline_sync tl = Some ts ->
     pvr_sync_ioctl_alloc_fence T d0 = Ok (0, Some info) d ->
     pvr_sync_ioctl_create_fence T (iFenceFd info) nm d = Ok (0, Some fd') d' ->
     ∃ sd',
       files d' !! fd' =
         Some (sync_fence_file {| name := terminated32 nm;
                                  pt_list_head := [pvr_sync_pt T 0 sd'] |}) ∧
       pvr_sync_has_signaled (pvr_sync_pt T 0 sd') d' = Ok 1 d').
Proof.
  intros Hsd. split; [|split; [|split]].
  - exact (proj1 (pvr_sync_has_signaled_eq _ parent status _ _ Hsd)).
  - intros k fs Hk Hkp Hfs. split.
    + exact (proj2 (pvr_sync_has_signaled_eq _ parent status _ _ Hsd)
               k fs Hk Hkp Hfs).
    + intros d' Hc. rewrite (complete_sync_eq _ _ _ Hfs) in Hc.
      injection Hc as <-.
      assert (Hnull : (kernel data =? NULL)%N = false)
        by (apply N.eqb_neq; exact Hk).
      unfold pvr_sync_has_signaled. mnorm. mrw Hsd. mrw Hnull. mrw Hkp.
      erewrite is_sync_met_eq by (dsimpl; apply lookup_insert_eq).
      cbn [client_sync next_value with_client_sync].
      rewrite Z.eqb_refl. reflexivity.
  - intros T fd nm a ad fd' d' Hf Ha <- Hc.
    destruct (pvr_sync_ioctl_create_fence_ok _ _ _ _ _ _ _ _ Hf Ha Hc)
      as (Hp & Hk & Hs & _ & Hfs).
    assert (Hsd' : sync_datas d' !! sync_data ad = Some data)
      by (rewrite Hs; exact Hsd).
    split; [rewrite Hfs; apply lookup_insert_eq|]. split.
    + exact (proj1 (pvr_sync_has_signaled_eq _ T 0 _ _ Hsd')).
    + intros k fs Hnn Hkp Hfp.
      apply (proj2 (pvr_sync_has_signaled_eq _ T 0 _ _ Hsd') k fs Hnn).
      * rewrite Hk. exact Hkp.
      * rewrite Hp. exact Hfp.
  - intros d0 T tl ts info nm fd' d' Hinv Htl Hts Hal Hc.
    destruct (alloc_fence_ok _ _ _ _ _ _ Hinv Htl Hts Hal)
      as (_ & a & sdp & k & p & fs & Hf & Ha & _ & Hsd1 & Hk1 & Hfs1 & Hnv
          & Hcv & _).
    destruct (pvr_sync_ioctl_create_fence_ok _ _ _ _ _ _ _ _ Hf Ha Hc)
      as (Hp & Hk & Hs & _ & Hfs).
    exists sdp. split; [rewrite Hfs; apply lookup_insert_eq|].
    assert (Hsd' : sync_datas d' !! sdp =
              Some {| kernel := k; timeline_fence_value := next_value ts;
                      timeline_update_value := reserved_value tl ts;
                      refcount := 1 |})
      by (rewrite Hs; exact Hsd1).
    destruct (pvr_sync_has_signaled_eq d' T 0 sdp _ Hsd') as [Hidle Hbusy].
    cbn [kernel] in Hidle, Hbusy.
    destruct (decide (k = NULL)) as [Hn|Hn]; [apply Hidle, Hn|].
    rewrite (Hbusy {| fence_sync := p; cleanup_sync := NULL |} fs Hn).
    + rewrite Hcv, Hnv. reflexivity.
    + rewrite Hk. exact Hk1.
    + rewrite Hp. exact Hfs1.
Qed.

(** On the concrete run: the point created from the queried alloc sync is
    not signaled, and it is once its fence prim has been completed. *)
Lemma pvr_sync_has_signaled_demo :
  pvr_sync_has_signaled (pvr_sync_pt 1 0 4) demo_create = Ok 0 demo_create ∧
  pvr_sync_has_signaled (pvr_sync_pt 1 0 4)
    (exec (pvr_sync_nohw_update_fence 4) demo_create)
  = Ok 1 (exec (pvr_sync_nohw_update_fence 4) demo_create).
Proof.
  assert (Hsd : sync_datas demo_create !! 4%N =
                Some {| kernel := 5; timeline_fence_value := 0;
                        timeline_update_value := 1; refcount := 1 |})
    by (vm_compute; reflexivity).
  destruct (pvr_sync_has_signaled_iff demo_create 1 0 4 _ Hsd)
    as (_ & H & _).
  destruct (H {| fence_sync := 6; cleanup_sync := 0 |}
              {| client_sync := 0; next_value := 1; id := 2; vaddr := 8192;
                 type := 1; class := "tl" |}) as [H0 H1].
  - discriminate.
  - vm_compute; reflexivity.
  - vm_compute; reflexivity.
  - split.
    + exact H0.
    + apply H1. vm_compute; reflexivity.
Defined.

(** C3, as it is stated, fails for a point that is created right after
    its allocation: on the concrete run without the update query the new
    point, whose prim nobody has completed, is signaled. *)
Lemma pvr_sync_has_signaled_fresh_point :
  pvr_sync_ioctl_alloc_fence 1 demo_open =
    Ok (0, Some {| iFenceFd := 3; bTimelineIdle := false |}) demo_alloc ∧
  pvr_sync_ioctl_create_fence 1 3 "fence" demo_alloc =
    Ok (0, Some 4) demo_create_unqueried ∧
  files demo_create_unqueried !! 4 =
    Some (sync_fence_file {| name := "fence";
                             pt_list_head := [pvr_sync_pt 1 0 4] |}) ∧
  prims demo_create_unqueried !! 6%N =
    Some {| client_sync := 0; next_value := 0; id := 2; vaddr := 8192;
            type := 1; class := "tl" |} ∧
  pvr_sync_has_signaled (pvr_sync_pt 1 0 4) demo_create_unqueried =
    Ok 1 demo_create_unqueried.
Proof.
  split; [vm_compute; reflexivity|]. split; [vm_compute; reflexivity|].
  split; [vm_compute; reflexivity|]. split; vm_compute; reflexivity.
Qed.

(** ** Check queries *)








(** What [sync_pool_get] and [sync_pool_put] leave alone. *)
Lemma sync_pool_get_lists c t d r d' :
  sync_pool_get c t d = Ok r d' ->
  timeline_list d' = timeline_list d ∧
  sync_prim_free_list d' = sync_prim_free_list d ∧
  waiters d' = waiters d ∧ alloc_datas d' = alloc_datas d ∧
  files d' = files d.
Proof.
  intros H. unfold sync_pool_get, sync_pool_get_new, sync_pool_get_reuse,
    atomic_inc_return_sync_id, kmalloc in H.
  munfold_in H. minv H; dsimpl; try done.
  all: repeat match goal with
       | Hx : (let n := _ in _) = Ok _ _ |- _ => cbv zeta in Hx
       | Hx : Ok _ _ = Ok _ _ |- _ => injection Hx as <- <-
       | Hx : context [match ?x with _ => _ end] |- _ => destruct x eqn:?
       end; dsimpl; try done.
Qed.

Lemma sync_pool_put_frame p d u d' :
  sync_pool_put p d = Ok u d' ->
  kernels d' = kernels d ∧ timelines d' = timelines d ∧
  sync_datas d' = sync_datas d ∧ alloc_datas d' = alloc_datas d ∧
  files d' = files d ∧ waiters d' = waiters d ∧
  timeline_list d' = timeline_list d ∧
  sync_prim_free_list d' = sync_prim_free_list d.
Proof.
  intros H. unfold sync_pool_put, set_sync_value in H.
  munfold_in H. minv H; dsimpl; done.
Qed.

(** The shadow of a foreign fence.  When
    [pvr_sync_create_waiter_for_foreign_sync] returns a kernel pair, the
    fd is a fence, the pair holds two different prims that nobody held
    before, classed by the name of the fence and typed as foreign fence
    and foreign cleanup, each with the value 0 and the [next_value] 1, and
    one waiter for the pair is registered.  When it returns [NULL], no
    waiter is registered and no kernel pair, timeline, sync data or file
    is added or changed. *)
Lemma pvr_sync_create_waiter_for_foreign_sync_cases fd d k d' :
  driver_inv d ->
  pvr_sync_create_waiter_for_foreign_sync fd d = Ok k d' ->
  (k ≠ NULL ∧
   ∃ fence f c fs cs,
     files d !! fd = Some (sync_fence_file fence) ∧
     kernels d' = <[k := {| fence_sync := f; cleanup_sync := c |}]> (kernels d) ∧
     f ≠ c ∧ f ≠ NULL ∧ c ≠ NULL ∧
     (∀ T tl, timelines d' !! T = Some tl ->
        timeline_sync tl ≠ f ∧ timeline_sync tl ≠ c) ∧
     (∀ k0 kp, k0 ≠ k -> kernels d' !! k0 = Some kp ->
        fence_sync kp ≠ f ∧ cleanup_sync kp ≠ f ∧
        fence_sync kp ≠ c ∧ cleanup_sync kp ≠ c) ∧
     prims d' !! f = Some fs ∧ prims d' !! c = Some cs ∧
     client_sync fs = 0 ∧ next_value fs = 1 ∧
     client_sync cs = 0 ∧ next_value cs = 1 ∧
     class fs = strncpy32 (name fence) ∧ class cs = strncpy32 (name fence) ∧
     type fs = SYNC_PT_FOREIGN_FENCE_TYPE ∧
     type cs = SYNC_PT_FOREIGN_CLEANUP_TYPE ∧
     waiters d' = waiters d ++ [(k, fd)]) ∨
  (k = NULL ∧ waiters d' = waiters d ∧
   (∀ k0 kp, kernels d' !! k0 = Some kp -> kernels d !! k0 = Some kp) ∧
   timelines d' = timelines d ∧ sync_datas d' = sync_datas d ∧
   files d' = files d).
Proof.
  intros Hinv H. unfold pvr_sync_create_waiter_for_foreign_sync in H.
  apply bind_inv in H. destruct H as (f0 & d1 & Hg & H).
  unfold sync_fence_fdget, bind, get, ret in Hg.
  destruct (files d !! fd) as [[a|fence|]|] eqn:Hfd;
    injection Hg as <- <-;
    try (munfold_in H; minv H; dsimpl; right; done).
  apply bind_inv in H. destruct H as (k0 & d1 & Hk & H).
  apply kmalloc_inv in Hk. destruct Hk as [[-> ->]|[-> ->]].
  { rewrite N.eqb_refl in H. munfold_in H. minv H. dsimpl. right. done. }
  rewrite succ_not_null in H.
  apply bind_inv in H. destruct H as (sf & d1 & Hk & H).
  apply kmalloc_inv in Hk. destruct Hk as [[-> ->]|[-> ->]].
  { rewrite N.eqb_refl in H. munfold_in H. minv H. dsimpl. right. done. }
  rewrite succ_not_null in H. dsimpl.
  set (K := N.succ (brk d)) in *.
  set (d0 := set_brk (N.succ K) _) in H.
  assert (Hinv0 : driver_inv d0) by (subst d0 K; frame Hinv).
  assert (Hun0 : ∀ p, unowned d0 p -> unowned d p) by (intros p Hp; exact Hp).
  apply bind_inv in H. destruct H as ([er f] & d1 & Hg1 & H).
  destruct (decide (er = PVRSRV_OK)) as [->|Her].
  2:{ right. pose proof (sync_pool_get_lists _ _ _ _ _ Hg1) as (_ & _ & Hw & _).
      apply sync_pool_get_err in Hg1; [|exact Her].
      destruct Hg1 as (_ & _ & _ & _ & _ & _ & _ & Hks & Hsd & _ & Ht & Hf).
      destruct er; [done|..]; munfold_in H; minv H; dsimpl;
        rewrite ?Hks, ?Hsd, ?Ht, ?Hf, ?Hw; subst d0; dsimpl;
        (repeat split; try reflexivity;
         intros k1 kp1 Hk1; apply lookup_delete_Some in Hk1; apply Hk1). }
  pose proof (sync_pool_get_lists _ _ _ _ _ Hg1) as (_ & _ & Hw1 & _ & Hf1).
  pose proof (sync_pool_get_fields _ _ _ _ _ Hg1)
    as ([v1 Hp1] & Ht1 & Hk1 & Hsd1 & Htk1 & Hb1).
  pose proof (taken_unowned _ _ _ Hinv0 Htk1) as Hunf.
  pose proof (taken_bounds _ _ _ Hinv0 Htk1 Hb1) as (Hfb & Hff & Hfsub).
  clear Hg1.
  apply bind_inv in H. destruct H as (u & d2 & Hst & H).
  munfold_in Hst. minv Hst.
  apply bind_inv in H. destruct H as (fs0 & d2 & Hl & H).
  unfold load_prim in Hl. apply load_inv in Hl. destruct Hl as [Hfs0 ->].
  dsimpl. rewrite Hp1, lookup_insert_eq in Hfs0. injection Hfs0 as <-.
  apply bind_inv in H. destruct H as (u1 & d2 & Hst & H).
  munfold_in Hst. minv Hst. dsimpl.
  rewrite Hp1, insert_insert_eq in H. rewrite Hk1 in H.
  set (d2 := set_prims _ _) in H.
  assert (Hinv2 : driver_inv d2).
  { subst d2. apply (driver_inv_pair d0 _ f Hinv0); dsimpl.
    - destruct Hb1 as [[_ ->]|[Hf ->]]; [lia|rewrite Hf; lia].
    - exact Hfsub.
    - intros q Hq. apply is_Some_insert_new in Hq.
      destruct Hq as [->|[s Hs]]; [split; [apply Hunf|exact Hfb]|].
      destruct Hinv0 as (HA & _). destruct (HA _ _ Hs).
      split; [assumption|].
      destruct Hb1 as [[_ ->]|[-> ->]]; lia.
    - intros q Hq. apply is_Some_insert_new. auto.
    - rewrite Ht1. apply timelines_same.
    - intros k1 kp1 Hkp. apply lookup_insert_Some in Hkp.
      destruct Hkp as [[_ <-]|[_ Hkp]]; auto.
    - right. auto.
    - rewrite Hsd1. apply Hinv0. }
  apply bind_inv in H. destruct H as ([er c] & d3 & Hg2 & H).
  destruct (decide (er = PVRSRV_OK)) as [->|Her].
  2:{ right. pose proof (sync_pool_get_lists _ _ _ _ _ Hg2) as (_ & _ & Hw & _).
      apply sync_pool_get_err in Hg2; [|exact Her].
      destruct Hg2 as (_ & _ & _ & _ & _ & _ & _ & Hks & Hsd & _ & Ht & Hf).
      assert (∃ u, (pr_err "pvr_sync_create_waiter_for_foreign_sync: Failed to allocate cleanup sync prim" ;;
          sync_pool_put f ;; kfree_kernel K ;; ret NULL) d3 = Ok k d')
        as [_ H'] by (destruct er; [done|..]; exists tt; exact H).
      clear H. rename H' into H.
      apply bind_inv in H. destruct H as (? & d4 & Hpr & H).
      munfold_in Hpr. minv Hpr.
      apply bind_inv in H. destruct H as (? & d4 & Hput & H).
      apply sync_pool_put_frame in Hput. dsimpl.
      destruct Hput as (Hk4 & Ht4 & Hsd4 & _ & Hf4 & Hw4 & _).
      munfold_in H. minv H. dsimpl.
      rewrite Hk4, Ht4, Hsd4, Hf4, Hw4, Hks, Hsd, Ht, Hf, Hw.
      subst d2 d0. dsimpl. rewrite Ht1, Hsd1, Hf1, Hw1. dsimpl.
      repeat split; try reflexivity.
      intros k1 kp1 Hkp. apply lookup_delete_Some in Hkp.
      destruct Hkp as [Hne Hkp].
      rewrite lookup_insert_ne in Hkp by exact Hne. exact Hkp. }
  pose proof (sync_pool_get_lists _ _ _ _ _ Hg2) as (_ & _ & Hw2 & _ & Hf2).
  pose proof (sync_pool_get_fields _ _ _ _ _ Hg2)
    as ([v2 Hp2] & Ht2 & Hk2 & Hsd2 & Htk2 & Hb2).
  pose proof (taken_unowned _ _ _ Hinv2 Htk2) as Hunc.
  clear Hg2.
  assert (Hfc : f ≠ c).
  { destruct Hunc as (_ & _ & Hnk).
    destruct (Hnk K {| fence_sync := f; cleanup_sync := NULL |}) as [Hne _].
    - subst d2. dsimpl. apply lookup_insert_eq.
    - exact Hne. }
  apply bind_inv in H. destruct H as (u2 & d4 & Hst & H).
  munfold_in Hst. minv Hst.
  apply bind_inv in H. destruct H as (cs0 & d4 & Hl & H).
  unfold load_prim in Hl. apply load_inv in Hl. destruct Hl as [Hcs0 ->].
  dsimpl. rewrite Hp2, lookup_insert_eq in Hcs0. injection Hcs0 as <-.
  apply bind_inv in H. destruct H as (u3 & d4 & Hst & H).
  munfold_in Hst. minv Hst. dsimpl.
  rewrite Hp2, insert_insert_eq in H. rewrite Hk2 in H.
  subst d2. dsimpl. rewrite insert_insert_eq in H.
  set (d4 := set_prims _ _) in H.
  assert (Hroll : ∀ dA r dB,
    (∀ k1, kernels dA !! k1 = kernels d4 !! k1) ->
    timelines dA = timelines d4 -> sync_datas dA = sync_datas d4 ->
    files dA = files d4 -> waiters dA = waiters d4 ->
    (sync_pool_put c ;; sync_pool_put f ;; kfree_kernel K ;; ret NULL) dA
      = Ok r dB ->
    r = NULL ∧ waiters dB = waiters d ∧
    (∀ k0 kp, kernels dB !! k0 = Some kp -> kernels d !! k0 = Some kp) ∧
    timelines dB = timelines d ∧ sync_datas dB = sync_datas d ∧
    files dB = files d).
  { intros dA r dB HkA HtA HsA HfA HwA Hr.
    apply bind_inv in Hr. destruct Hr as (? & dC & Hput & Hr).
    apply sync_pool_put_frame in Hput.
    destruct Hput as (HkC & HtC & HsC & _ & HfC & HwC & _).
    apply bind_inv in Hr. destruct Hr as (? & dD & Hput & Hr).
    apply sync_pool_put_frame in Hput.
    destruct Hput as (HkD & HtD & HsD & _ & HfD & HwD & _).
    munfold_in Hr. minv Hr. dsimpl.
    rewrite HkD, HtD, HsD, HfD, HwD, HkC, HtC, HsC, HfC, HwC,
      HtA, HsA, HfA, HwA.
    subst d4. dsimpl. rewrite Ht2, Hsd2, Hf2, Hw2. dsimpl.
    rewrite Ht1, Hsd1, Hf1, Hw1. subst d0. dsimpl.
    repeat split; try reflexivity.
    intros k1 kp1 Hkp. apply lookup_delete_Some in Hkp.
    destruct Hkp as [Hne Hkp]. rewrite HkA in Hkp. dsimpl.
    rewrite lookup_insert_ne in Hkp by exact Hne. exact Hkp. }
  apply bind_inv in H. destruct H as (w & d5 & Hk & H).
  apply kmalloc_inv in Hk. destruct Hk as [[-> ->]|[-> ->]].
  { right. rewrite N.eqb_refl in H.
    apply bind_inv in H. destruct H as (? & d5 & Hpr & H).
    munfold_in Hpr. minv Hpr.
    apply Hroll in H; dsimpl; try reflexivity. exact H. }
  rewrite succ_not_null in H.
  apply bind_inv in H. destruct H as (err & d5 & Hr & H).
  apply reply_inv in Hr. destruct Hr as [-> ->]. dsimpl.
  destruct (negb _) eqn:Herr in H.
  { right. apply bind_inv in H. destruct H as (? & d5 & Hpr & H).
    assert (Hd5 : (∀ k1, kernels d5 !! k1 = kernels d4 !! k1) ∧
              timelines d5 = timelines d4 ∧ sync_datas d5 = sync_datas d4 ∧
              files d5 = files d4 ∧ waiters d5 = waiters d4).
    { destruct (_ <? 0) in Hpr; munfold_in Hpr; minv Hpr; dsimpl; done. }
    destruct Hd5 as (? & ? & ? & ? & ?).
    apply Hroll in H; assumption. }
  left. munfold_in H. minv H. dsimpl.
  split; [apply succ_neq_null|].
  exists fence, f, c. eexists _, _.
  split; [reflexivity|]. split; [reflexivity|]. split; [exact Hfc|].
  split; [apply Hunf|]. split; [apply Hunc|].
  split.
  { intros T tl Htl. subst d4. dsimpl. rewrite Ht2 in Htl. dsimpl. rewrite Ht1 in Htl.
    split.
    - destruct Hunf as (_ & Hnt & _). apply (Hnt T tl). exact Htl.
    - destruct Hunc as (_ & Hnt & _). apply (Hnt T tl). dsimpl.
      rewrite Ht1. exact Htl. }
  split.
  { intros k0 kp Hne Hkp. subst d4. dsimpl.
    rewrite lookup_insert_ne in Hkp by congruence.
    destruct Hunf as (_ & _ & Hnk1). destruct Hunc as (_ & _ & Hnk2).
    destruct (Hnk1 k0 kp) as [? ?]; [exact Hkp|].
    destruct (Hnk2 k0 kp) as [? ?];
      [dsimpl; rewrite lookup_insert_ne by congruence; exact Hkp|].
    auto. }
  subst d4. dsimpl.
  split; [rewrite lookup_insert_ne by congruence; apply lookup_insert_eq|].
  split; [apply lookup_insert_eq|].
  repeat split. rewrite Hw2. dsimpl. rewrite Hw1. reflexivity.
Qed.




Lemma sync_fence_fdget_inv d fd f d' :
  sync_fence_fdget fd d = Ok f d' ->
  d' = d ∧ (∀ fence, files d !! fd = Some (sync_fence_file fence) ->
            f = Some fence).
Proof.
  intros H. unfold sync_fence_fdget in H.
  apply bind_inv in H. destruct H as (x & d1 & Hg & H). minv Hg.
  destruct (files d !! fd) as [[a|fence|]|]; minv H; split; auto;
    intros; congruence.
Qed.


Lemma run_inv ops : ∀ d evs d',
  driver_inv d -> run ops d = Ok evs d' -> driver_inv d'.
Proof.
  induction ops as [|o ops IH]; intros d evs d' Hinv H.
  - injection H as _ <-. exact Hinv.
  - cbn [run] in H. apply bind_inv in H. destruct H as (e & d1 & Hs & H).
    apply bind_inv in H. destruct H as (es & d2 & Hr & H). minv H.
    eapply IH; [|exact Hr]. eapply step_inv; eassumption.
Qed.

Lemma driver_inv_check_merged : driver_inv check_merged.
Proof.
  assert (H1 : driver_inv check_opened).
  { refine (proj1 (open_inv "tl" _ (0, 1%N) _ (driver_inv_init check_script) _)).
    vm_compute. reflexivity. }
  assert (H2 : driver_inv check_created).
  { refine (run_inv check_ops _
              [ev_alloc 1 false; ev_other; ev_other; ev_alloc 1 false; ev_other]
              _ H1 _).
    vm_compute. reflexivity. }
  refine (proj1 (same_core_inv _ _ ev_other H2 _ _)); [|done].
  unfold same_core. vm_compute. repeat split; auto. discriminate.
Qed.



(** ** The cache of the pool *)

Lemma s32_small z : - 2 ^ 31 <= z < 2 ^ 31 -> s32 z = z.
Proof.
  intros H. unfold s32, u32.
  destruct (Z.ltb_spec (z mod 2 ^ 32) (2 ^ 31)) as [Hlt|Hge].
  - destruct (Z_lt_le_dec z 0) as [Hn|Hp].
    + exfalso.
      assert (z mod 2 ^ 32 = z + 2 ^ 32).
      { symmetry. apply (Z.mod_unique_pos _ _ (-1)); lia. }
      lia.
    + apply Z.mod_small. lia.
  - destruct (Z_lt_le_dec z 0) as [Hn|Hp].
    + assert (z mod 2 ^ 32 = z + 2 ^ 32).
      { symmetry. apply (Z.mod_unique_pos _ _ (-1)); lia. }
      lia.
    + exfalso. rewrite Z.mod_small in Hge by lia. lia.
Qed.

Lemma list_del_length p l : (length (list_del p l) <= length l)%nat.
Proof. unfold list_del. apply length_filter. Qed.

Lemma list_del_NoDup p l : NoDup l -> NoDup (list_del p l).
Proof. unfold list_del. apply NoDup_filter. Qed.

Lemma list_del_id p l : p ∉ l -> list_del p l = l.
Proof.
  induction l as [|q l IH]; intros H; [reflexivity|].
  apply not_elem_of_cons in H. destruct H as [Hne Hnin].
  unfold list_del. rewrite filter_cons_True by (intros E; apply Hne; symmetry; exact E).
  f_equal. apply IH, Hnin.
Qed.

Lemma list_del_length_in p l :
  NoDup l -> p ∈ l -> S (length (list_del p l)) = length l.
Proof.
  induction l as [|q l IH]; intros Hnd Hin; [inversion Hin|].
  apply NoDup_cons in Hnd. destruct Hnd as [Hq Hnd].
  destruct (decide (q = p)) as [->|Hne].
  - rewrite list_del_head by exact Hq. reflexivity.
  - unfold list_del. rewrite filter_cons_True by exact Hne. cbn.
    f_equal. apply IH; [exact Hnd|].
    apply elem_of_cons in Hin. destruct Hin as [E|Hin]; [congruence|exact Hin].
Qed.

Lemma cache_inv_init script : cache_inv (pvr_sync_init script).
Proof.
  unfold cache_inv, pvr_sync_init, SYNC_MAX_POOL_SIZE. dsimpl.
  split; [constructor|]. split; [intros p H; inversion H|].
  split; [intros p H; inversion H|]. cbn. lia.
Qed.

Lemma cache_inv_put p d u d' :
  cache_inv d -> sync_pool_put p d = Ok u d' -> cache_inv d'.
Proof.
  intros (Hnd & Hdis & Hmark & Hsz) H.
  apply sync_pool_put_ok in H.
  destruct H as (s & Hs & _ & _ & _ & Hact & Hcase).
  unfold cache_inv, SYNC_MAX_POOL_SIZE in *.
  destruct Hcase as [(Hlt & Hp & Hf & Hsize)|(Hge & Hp & Hf & Hsize)].
  - rewrite Hp, Hf, Hact, Hsize. rewrite s32_small by lia.
    split.
    { apply NoDup_cons. split; [apply list_del_not_in|].
      apply list_del_NoDup, Hnd. }
    split.
    { intros q Hq. apply elem_of_cons in Hq. destruct Hq as [->|Hq].
      - apply list_del_not_in.
      - apply list_del_elem in Hq. destruct Hq as [_ Hq].
        rewrite list_del_elem. intros [_ Hin]. exact (Hdis _ Hq Hin). }
    split.
    { intros q Hq. apply elem_of_cons in Hq. destruct Hq as [->|Hq].
      - rewrite lookup_insert_eq. eexists; split; reflexivity.
      - apply list_del_elem in Hq. destruct Hq as [Hne Hq].
        rewrite lookup_insert_ne by (intros E; apply Hne; symmetry; exact E).
        apply Hmark, Hq. }
    cbn [length]. pose proof (list_del_length p (sync_pool_free_list d)). lia.
  - rewrite Hp, Hf, Hact, Hsize.
    split; [apply list_del_NoDup, Hnd|].
    split.
    { intros q Hq. apply list_del_elem in Hq. destruct Hq as [_ Hq].
      rewrite list_del_elem. intros [_ Hin]. exact (Hdis _ Hq Hin). }
    split.
    { intros q Hq. apply list_del_elem in Hq. destruct Hq as [Hne Hq].
      rewrite lookup_delete_ne by (intros E; apply Hne; symmetry; exact E).
      apply Hmark, Hq. }
    pose proof (list_del_length p (sync_pool_free_list d)). lia.
Qed.

Lemma cache_inv_get c t d e p d' :
  cache_inv d -> sync_pool_get c t d = Ok (e, p) d' -> cache_inv d'.
Proof.
  intros (Hnd & Hdis & Hmark & Hsz) H.
  unfold cache_inv, SYNC_MAX_POOL_SIZE in *.
  destruct (decide (e = PVRSRV_OK)) as [->|He].
  - apply sync_pool_get_ok in H.
    destruct H as (v & Hp & _ & Hcase).
    destruct Hcase as [(rest & s & Hfree & Hs & _ & Hact & Hf & _ & _ & Hsize)
                      |(Hfree & -> & Hact & Hf & _ & Hsize)].
    + rewrite Hp, Hf, Hact, Hsize.
      assert (Hin : p ∈ sync_pool_free_list d)
        by (rewrite Hfree; apply list_elem_of_here).
      pose proof (list_del_length_in _ _ Hnd Hin) as Hlen.
      rewrite s32_small by lia.
      split; [apply list_del_NoDup, Hnd|].
      split.
      { intros q Hq. apply list_del_elem in Hq. destruct Hq as [Hne Hq].
        rewrite elem_of_app, list_del_elem, list_elem_of_singleton.
        intros [[_ Hin']|E]; [exact (Hdis _ Hq Hin')|exact (Hne E)]. }
      split.
      { intros q Hq. apply list_del_elem in Hq. destruct Hq as [Hne Hq].
        rewrite lookup_insert_ne by (intros E; apply Hne; symmetry; exact E).
        apply Hmark, Hq. }
      lia.
    + rewrite Hf, Hsize. rewrite Hfree in Hsz.
      split; [constructor|]. split; [intros q Hq; inversion Hq|].
      split; [intros q Hq; inversion Hq|]. exact Hsz.
  - apply sync_pool_get_err in H; [|exact He].
    destruct H as (_ & Hp & _ & Hact & Hf & Hsize & _).
    rewrite Hp, Hact, Hf, Hsize. auto.
Qed.

Lemma cache_inv_run ops : ∀ d rs d',
  cache_inv d -> pool_run ops d = Ok rs d' -> cache_inv d'.
Proof.
  induction ops as [|[c t|p] ops IH]; intros d rs d' Hinv H.
  - injection H as _ <-. exact Hinv.
  - cbn [pool_run] in H. apply bind_inv in H.
    destruct H as ([e p] & d1 & Hg & H).
    apply bind_inv in H. destruct H as (rs' & d2 & Hr & H). minv H.
    eapply IH; [|exact Hr]. eapply cache_inv_get; eassumption.
  - cbn [pool_run] in H. apply bind_inv in H.
    destruct H as (u & d1 & Hp & H).
    eapply IH; [|exact H]. eapply cache_inv_put; eassumption.
Qed.

(** X1.  The pool never caches more than [SYNC_MAX_POOL_SIZE] prims.  Over
    every run of acquisitions and releases from a state that satisfies
    [cache_inv] (the state after [pvr_sync_init] does) the invariant
    holds again: the free list has no repetition, shares no prim with
    the active list, holds allocated prims only, each marked
    [0xffffffff], and has at most [SYNC_MAX_POOL_SIZE] entries. *)
Theorem sync_pool_cache_bounded ops d rs d' :
  cache_inv d -> pool_run ops d = Ok rs d' ->
  cache_inv d' ∧
  Z.of_nat (length (sync_pool_free_list d')) <= SYNC_MAX_POOL_SIZE.
Proof.
  intros Hinv H. pose proof (cache_inv_run _ _ _ _ Hinv H) as Hinv'.
  split; [exact Hinv'|]. destruct Hinv' as (_ & _ & _ & Hb). lia.
Qed.

Lemma cache_demo_eq :
  pool_run cache_ops (pvr_sync_init wrap_script) =
    Ok [(PVRSRV_OK, 1%N); (PVRSRV_OK, 2%N)] cache_demo.
Proof. vm_compute. reflexivity. Qed.

Lemma sync_pool_cache_bounded_demo :
  sync_pool_free_list cache_demo = [2%N; 1%N] ∧
  cache_inv cache_demo ∧
  Z.of_nat (length (sync_pool_free_list cache_demo)) <= SYNC_MAX_POOL_SIZE.
Proof.
  split; [reflexivity|].
  exact (sync_pool_cache_bounded cache_ops _ _ _
           (cache_inv_init wrap_script) cache_demo_eq).
Defined.

Lemma list_del_comm p q l : list_del p (list_del q l) = list_del q (list_del p l).
Proof.
  unfold list_del. rewrite !list_filter_filter.
  apply list_filter_iff. intros x. tauto.
Qed.

(** The loop of [sync_pool_clear] over a snapshot [l] of the free list. *)
Lemma sync_pool_clear_list_ok l : ∀ d,
  NoDup l ->
  (∀ p, p ∈ l -> is_Some (prims d !! p)) ->
  Z.of_nat (length l) <= sync_pool_size d < 2 ^ 31 ->
  ∃ d',
    sync_pool_clear_list l d = Ok tt d' ∧
    sync_pool_free_list d' = foldr list_del (sync_pool_free_list d) l ∧
    sync_pool_size d' = sync_pool_size d - Z.of_nat (length l) ∧
    sync_pool_active_list d' = sync_pool_active_list d ∧
    (∀ p, p ∈ l -> prims d' !! p = None) ∧
    (∀ p, p ∉ l -> prims d' !! p = prims d !! p) ∧
    sync_id d' = sync_id d ∧ brk d' = brk d ∧ replies d' = replies d ∧
    kernels d' = kernels d ∧ timelines d' = timelines d.
Proof.
  induction l as [|q l IH]; intros d Hnd Hall Hsz.
  - exists d. cbn. repeat split; auto; try lia.
    intros p H. inversion H.
  - apply NoDup_cons in Hnd. destruct Hnd as [Hq Hnd].
    destruct (Hall q (list_elem_of_here _ _)) as [s Hs].
    cbn [sync_pool_clear_list length] in *.
    unfold bind at 1. rewrite (set_sync_value_eq _ _ _ _ Hs).
    unfold kfree_prim. mnorm.
    set (d1 := set_sync_pool_size _ _).
    destruct (IH d1) as (d' & Hrun & Hf & Hsize & Hact & Hnone & Hsame & Hrest).
    { exact Hnd. }
    { intros p Hp. subst d1. dsimpl.
      assert (p ≠ q) by (intros ->; exact (Hq Hp)).
      rewrite lookup_delete_ne by congruence.
      rewrite lookup_insert_ne by congruence.
      apply Hall, list_elem_of_further, Hp. }
    { subst d1. dsimpl. rewrite s32_small by lia. lia. }
    exists d'.
    split; [exact Hrun|].
    subst d1. dsimpl. rewrite s32_small in Hsize by lia.
    split.
    { rewrite Hf. cbn [foldr]. clear. induction l as [|x l IHl]; [reflexivity|].
      cbn [foldr]. rewrite IHl. apply list_del_comm. }
    split; [lia|]. split; [exact Hact|].
    split.
    { intros p Hp. apply elem_of_cons in Hp. destruct Hp as [->|Hp].
      - rewrite (Hsame q Hq). apply lookup_delete_eq.
      - apply Hnone, Hp. }
    split; [|exact Hrest].
    intros p Hp. apply not_elem_of_cons in Hp. destruct Hp as [Hne Hp].
    rewrite (Hsame p Hp).
    rewrite lookup_delete_ne by congruence.
    rewrite lookup_insert_ne by congruence. reflexivity.
Qed.

Lemma elem_of_foldr_list_del x m l :
  x ∈ foldr list_del m l <-> x ∈ m ∧ x ∉ l.
Proof.
  induction l as [|q l IH]; cbn [foldr].
  - split; [intros H; split; [exact H|apply not_elem_of_nil]|tauto].
  - rewrite list_del_elem, IH, not_elem_of_cons. tauto.
Qed.

(** X2.  [sync_pool_clear] destroys the whole cache and nothing else: from a
    state that satisfies [cache_inv] it returns with an empty free list,
    [sync_pool_size] lowered by the number of prims that were cached,
    these prims freed, and the active list and every other prim as they
    were. *)
Theorem sync_pool_clear_empties d :
  cache_inv d ->
  ∃ d',
    sync_pool_clear d = Ok tt d' ∧
    sync_pool_free_list d' = [] ∧
    sync_pool_size d' =
      sync_pool_size d - Z.of_nat (length (sync_pool_free_list d)) ∧
    sync_pool_active_list d' = sync_pool_active_list d ∧
    (∀ p, p ∈ sync_pool_free_list d -> prims d' !! p = None) ∧
    (∀ p, p ∉ sync_pool_free_list d -> prims d' !! p = prims d !! p).
Proof.
  intros (Hnd & _ & Hmark & Hsz). unfold SYNC_MAX_POOL_SIZE in Hsz.
  destruct (sync_pool_clear_list_ok (sync_pool_free_list d) d Hnd)
    as (d' & Hrun & Hf & Hsize & Hact & Hnone & Hsame & _).
  { intros p Hp. destruct (Hmark p Hp) as (s & Hs & _). eauto. }
  { lia. }
  exists d'. split.
  { unfold sync_pool_clear, bind, get. exact Hrun. }
  split; [|auto].
  rewrite Hf. apply elem_of_nil_inv. intros x Hx.
  apply elem_of_foldr_list_del in Hx. tauto.
Qed.

Lemma sync_pool_clear_empties_demo :
  ∃ d', sync_pool_clear cache_demo = Ok tt d' ∧
        sync_pool_free_list d' = [] ∧ sync_pool_size d' = 0 ∧
        prims d' !! 1%N = None ∧ prims d' !! 2%N = None.
Proof.
  destruct (sync_pool_clear_empties cache_demo
              (cache_inv_run _ _ _ _ (cache_inv_init wrap_script) cache_demo_eq))
    as (d' & Hrun & Hf & Hs & _ & Hnone & _).
  exists d'. split; [exact Hrun|]. split; [exact Hf|]. split; [exact Hs|].
  split; apply Hnone.
  - apply list_elem_of_further, list_elem_of_here.
  - apply list_elem_of_here.
Defined.

(** ** The order of points is not transitive *)

Lemma compare_values_cycle a n1 n2 :
  is_u32 a -> 0 < n1 < 2 ^ 31 -> 0 < n2 < 2 ^ 31 -> 2 ^ 31 < n1 + n2 ->
  compare_values a (u32 (a + n1)) = -1 ∧
  compare_values (u32 (a + n1)) (u32 (a + n1 + n2)) = -1 ∧
  compare_values (u32 (a + n1 + n2)) a = -1.
Proof.
  intros Ha H1 H2 H12.
  split; [apply (compare_values_ahead a n1 Ha H1)|].
  split.
  - replace (u32 (a + n1 + n2)) with (u32 (u32 (a + n1) + n2)).
    + apply compare_values_ahead; [apply u32_range|exact H2].
    + unfold u32. rewrite Zplus_mod_idemp_l. reflexivity.
  - assert (E : a = u32 (u32 (a + n1 + n2) + (2 ^ 32 - n1 - n2))).
    { unfold u32. rewrite Zplus_mod_idemp_l.
      replace (a + n1 + n2 + (2 ^ 32 - n1 - n2)) with (a + 1 * 2 ^ 32) by lia.
      rewrite Z_mod_plus_full. symmetry. apply Z.mod_small. exact Ha. }
    rewrite E at 2.
    apply compare_values_ahead; [apply u32_range|lia].
Qed.

(** X3.  [pvr_sync_compare] is not transitive: of three points whose values
    are spread over more than half of the 32-bit range (the second [n1]
    increments after the first, the third [n2] increments after the
    second, each step shorter than [2^31] and the two together longer),
    the first orders before the second, the second before the third, and
    the third before the first. *)
Theorem pvr_sync_compare_not_transitive d p1 s1 sd1 p2 s2 sd2 p3 s3 sd3
    d1 d2 d3 n1 n2 :
  sync_datas d !! sd1 = Some d1 ->
  sync_datas d !! sd2 = Some d2 ->
  sync_datas d !! sd3 = Some d3 ->
  is_u32 (timeline_update_value d1) ->
  0 < n1 < 2 ^ 31 -> 0 < n2 < 2 ^ 31 -> 2 ^ 31 < n1 + n2 ->
  timeline_update_value d2 = u32 (timeline_update_value d1 + n1) ->
  timeline_update_value d3 = u32 (timeline_update_value d1 + n1 + n2) ->
  pvr_sync_compare (pvr_sync_pt p1 s1 sd1) (pvr_sync_pt p2 s2 sd2) d = Ok (-1) d ∧
  pvr_sync_compare (pvr_sync_pt p2 s2 sd2) (pvr_sync_pt p3 s3 sd3) d = Ok (-1) d ∧
  pvr_sync_compare (pvr_sync_pt p3 s3 sd3) (pvr_sync_pt p1 s1 sd1) d = Ok (-1) d.
Proof.
  intros H1 H2 H3 Ha Hn1 Hn2 H12 E2 E3.
  destruct (compare_values_cycle _ n1 n2 Ha Hn1 Hn2 H12) as (C1 & C2 & C3).
  assert (Hc : ∀ pa sa sda pb sb sdb da db,
            sync_datas d !! sda = Some da -> sync_datas d !! sdb = Some db ->
            pvr_sync_compare (pvr_sync_pt pa sa sda) (pvr_sync_pt pb sb sdb) d =
              Ok (compare_values (timeline_update_value da)
                    (timeline_update_value db)) d).
  { intros pa sa sda pb sb sdb da db Hda Hdb. unfold pvr_sync_compare. mnorm.
    rewrite (timeline_update_value_of_eq _ _ _ _ _ Hda). cbv beta iota.
    rewrite (timeline_update_value_of_eq _ _ _ _ _ Hdb). reflexivity. }
  rewrite (Hc _ _ _ _ _ _ _ _ H1 H2), (Hc _ _ _ _ _ _ _ _ H2 H3),
    (Hc _ _ _ _ _ _ _ _ H3 H1), E2, E3, C1, C2, C3. auto.
Qed.

Lemma pvr_sync_compare_not_transitive_demo :
  pvr_sync_compare (pvr_sync_pt 1 0 1) (pvr_sync_pt 1 0 2) cycle_driver
    = Ok (-1) cycle_driver ∧
  pvr_sync_compare (pvr_sync_pt 1 0 2) (pvr_sync_pt 1 0 3) cycle_driver
    = Ok (-1) cycle_driver ∧
  pvr_sync_compare (pvr_sync_pt 1 0 3) (pvr_sync_pt 1 0 1) cycle_driver
    = Ok (-1) cycle_driver.
Proof.
  apply (pvr_sync_compare_not_transitive cycle_driver 1 0 1 1 0 2 1 0 3
           {| kernel := NULL; timeline_fence_value := 0;
              timeline_update_value := 0; refcount := 1 |}
           {| kernel := NULL; timeline_fence_value := 0;
              timeline_update_value := 0x60000000; refcount := 1 |}
           {| kernel := NULL; timeline_fence_value := 0;
              timeline_update_value := 0xC0000000; refcount := 1 |}
           0x60000000 0x60000000);
    vm_compute; try reflexivity; split; first [reflexivity|discriminate].
Defined.

(** ** Shared sync data *)

Lemma pvr_sync_dup_eq d parent status sd data :
  sync_datas d !! sd = Some data ->
  pvr_sync_dup (pvr_sync_pt parent status sd) d =
    if hd 0 (replies d) =? 0 then
      Ok None
        (set_dmesg (dmesg d ++ [(KERN_ERR, "pvr_sync_dup: Failed to dup sync pt")])
           (set_replies (tail (replies d)) d))
    else
      Ok (Some (pvr_sync_pt parent 0 sd))
        (set_sync_datas
           (<[sd := with_refcount (s32 (refcount data + 1)) data]> (sync_datas d))
           (set_brk (N.succ (brk d)) (set_replies (tail (replies d)) d))).
Proof.
  intros Hsd. unfold pvr_sync_dup, kmalloc. unfold bind at 1. unfold bind at 1.
  rewrite reply_eq.
  destruct (hd 0 (replies d) =? 0) eqn:Hr.
  - mnorm. reflexivity.
  - cbv beta iota. rewrite succ_not_null. mnorm. rewrite Hsd. reflexivity.
Qed.

Lemma pvr_sync_free_sync_eq d parent status sd data :
  sync_datas d !! sd = Some data ->
  pvr_sync_free_sync (pvr_sync_pt parent status sd) d =
    if negb (s32 (refcount data - 1) =? 0) then
      Ok tt (set_sync_datas
               (<[sd := with_refcount (s32 (refcount data - 1)) data]>
                  (sync_datas d)) d)
    else
      Ok tt (set_sync_datas (delete sd (sync_datas d))
               (set_sync_prim_free_list
                  (sync_prim_free_list d ++
                   (if (kernel data =? NULL)%N then [] else [kernel data])) d)).
Proof.
  intros Hsd. unfold pvr_sync_free_sync, pvr_sync_defer_free. mnorm.
  rewrite Hsd. cbv beta iota.
  destruct (negb (s32 (refcount data - 1) =? 0)); [reflexivity|].
  destruct (kernel data =? NULL)%N; dsimpl.
  - rewrite app_nil_r. rewrite delete_insert_eq.
    destruct d; reflexivity.
  - rewrite delete_insert_eq. reflexivity.
Qed.

(** X4.  [pvr_sync_dup] and [pvr_sync_free_sync] count the points that share
    a sync data.  When [sync_pt_create] fails the dup returns [NULL] and
    the sync data is as it was; otherwise the copy shares the sync data,
    whose [refcount] is one more, and freeing the copy gives the count
    back and defers nothing.  Freeing a point that is not the last only
    counts down; freeing the last one frees the sync data and hands its
    kernel pair, if it has one, to the defer-free list. *)
Theorem pvr_sync_dup_free_sync d parent status sd data :
  sync_datas d !! sd = Some data ->
  1 <= refcount data < 2 ^ 31 - 1 ->
  (* sync_pt_create fails: nothing is shared *)
  (hd 0 (replies d) = 0 ->
   ∃ d1, pvr_sync_dup (pvr_sync_pt parent status sd) d = Ok None d1 ∧
         sync_datas d1 = sync_datas d) ∧
  (* sync_pt_create succeeds: the copy shares the data, counted once more,
     and freeing the copy gives the count back *)
  (hd 0 (replies d) ≠ 0 ->
   ∃ d1 d2,
     pvr_sync_dup (pvr_sync_pt parent status sd) d =
       Ok (Some (pvr_sync_pt parent 0 sd)) d1 ∧
     sync_datas d1 = <[sd := with_refcount (refcount data + 1) data]> (sync_datas d) ∧
     pvr_sync_free_sync (pvr_sync_pt parent 0 sd) d1 = Ok tt d2 ∧
     sync_datas d2 = sync_datas d ∧
     sync_prim_free_list d2 = sync_prim_free_list d ∧
     kernels d2 = kernels d ∧ prims d2 = prims d) ∧
  (* freeing a point that is not the last one only counts down *)
  (1 < refcount data ->
   ∃ d1, pvr_sync_free_sync (pvr_sync_pt parent status sd) d = Ok tt d1 ∧
         sync_datas d1 = <[sd := with_refcount (refcount data - 1) data]> (sync_datas d) ∧
         sync_prim_free_list d1 = sync_prim_free_list d) ∧
  (* freeing the last point frees the data and defers the pair *)
  (refcount data = 1 ->
   ∃ d1, pvr_sync_free_sync (pvr_sync_pt parent status sd) d = Ok tt d1 ∧
         sync_datas d1 !! sd = None ∧
         sync_prim_free_list d1 =
           sync_prim_free_list d ++
           (if (kernel data =? NULL)%N then [] else [kernel data]) ∧
         kernels d1 = kernels d ∧ prims d1 = prims d).
Proof.
  intros Hsd Hrc.
  split; [|split; [|split]].
  - intros Hr. rewrite (pvr_sync_dup_eq _ _ _ _ _ Hsd), Hr. cbn.
    eexists. split; reflexivity.
  - intros Hr. rewrite (pvr_sync_dup_eq _ _ _ _ _ Hsd).
    apply Z.eqb_neq in Hr. rewrite Hr.
    rewrite (s32_small (refcount data + 1)) by lia.
    eexists _, _. split; [reflexivity|]. split; [reflexivity|].
    erewrite pvr_sync_free_sync_eq by (dsimpl; apply lookup_insert_eq).
    cbn [refcount with_refcount]. rewrite (s32_small (refcount data + 1 - 1)) by lia.
    destruct (Z.eqb_spec (refcount data + 1 - 1) 0) as [E0|_]; [lia|].
    cbn [negb]. split; [reflexivity|]. dsimpl.
    split; [|auto].
    rewrite insert_insert_eq. unfold with_refcount. cbn.
    replace (refcount data + 1 - 1) with (refcount data) by lia.
    destruct data. apply insert_id. exact Hsd.
  - intros Hr. rewrite (pvr_sync_free_sync_eq _ _ _ _ _ Hsd).
    rewrite (s32_small (refcount data - 1)) by lia.
    destruct (Z.eqb_spec (refcount data - 1) 0) as [E0|_]; [lia|]. cbn [negb].
    eexists. split; [reflexivity|]. split; reflexivity.
  - intros Hr. rewrite (pvr_sync_free_sync_eq _ _ _ _ _ Hsd). rewrite Hr.
    cbn [negb Z.sub Z.add Z.opp Z.pos_sub Z.eqb s32]. 
    eexists. split; [reflexivity|]. dsimpl.
    rewrite lookup_delete_eq. auto.
Qed.

Lemma pvr_sync_dup_free_sync_demo :
  ∃ d1 d2,
    pvr_sync_dup (pvr_sync_pt 1 0 4) demo_dup =
      Ok (Some (pvr_sync_pt 1 0 4)) d1 ∧
    refcount <$> sync_datas d1 !! 4%N = Some 2 ∧
    pvr_sync_free_sync (pvr_sync_pt 1 0 4) d1 = Ok tt d2 ∧
    sync_datas d2 = sync_datas demo_dup ∧
    sync_prim_free_list d2 = [].
Proof.
  destruct (pvr_sync_dup_free_sync demo_dup 1 0 4
              {| kernel := 5; timeline_fence_value := 0;
                 timeline_update_value := 1; refcount := 1 |})
    as (_ & H & _).
  - vm_compute. reflexivity.
  - vm_compute. split; [discriminate|reflexivity].
  - destruct H as (d1 & d2 & Hd & Hs & Hf & Hs2 & Hl & _).
    + vm_compute. discriminate.
    + exists d1, d2. split; [exact Hd|].
      split; [rewrite Hs, lookup_insert_eq; reflexivity|].
      split; [exact Hf|]. split; [exact Hs2|]. exact Hl.
Defined.

(** ** Batches of queries *)

Lemma pvr_sync_query_fences_app pre : ∀ post update max_entries q d q1 d1,
  pvr_sync_query_fences pre update max_entries q d = Ok (PVRSRV_OK, q1) d1 ->
  pvr_sync_query_fences (pre ++ post) update max_entries q d =
    pvr_sync_query_fences post update max_entries q1 d1.
Proof.
  induction pre as [|fd pre IH]; intros post update max_entries q d q1 d1 H.
  - injection H as <- <-. reflexivity.
  - cbn [app pvr_sync_query_fences] in *. unfold bind at 1 in H.
    unfold bind at 1.
    destruct (pvr_sync_query_fence fd update max_entries q d) as [[e q'] d'|];
      [|discriminate].
    destruct e; try (apply IH; exact H).
    all: unfold bind, pr_err, printk, modify, ret in H; discriminate.
Qed.

(** X5.  [pvr_sync_query_fences] queries the fds in order and stops at the
    first one whose query fails: it returns that error with the buffers
    as the failed query left them, logs one line, and the fds after it
    are not queried.  Until then a batch is the sequence of its queries:
    a batch that starts with fds whose queries succeed goes on from the
    counters and the state these left. *)
Theorem pvr_sync_query_fences_stops pre fd post update max_entries q d
    q1 d1 e q2 d2 :
  pvr_sync_query_fences pre update max_entries q d = Ok (PVRSRV_OK, q1) d1 ->
  pvr_sync_query_fence fd update max_entries q1 d1 = Ok (e, q2) d2 ->
  e ≠ PVRSRV_OK ->
  pvr_sync_query_fences (pre ++ fd :: post) update max_entries q d =
    Ok (e, q2) (query_failed d2) ∧
  (∀ more,
     pvr_sync_query_fences (pre ++ more) update max_entries q d =
       pvr_sync_query_fences more update max_entries q1 d1).
Proof.
  intros Hpre Hfd He. split.
  - rewrite (pvr_sync_query_fences_app _ _ _ _ _ _ _ _ Hpre).
    cbn [pvr_sync_query_fences]. unfold bind at 1. rewrite Hfd.
    destruct e; try done; reflexivity.
  - intros more. apply pvr_sync_query_fences_app. exact Hpre.
Qed.

Lemma pvr_sync_query_fences_stops_demo :
  ∃ d2,
    pvr_sync_query_fences ([] ++ 3 :: [3]) true 8 empty_buffers demo_create =
      Ok (PVRSRV_ERROR_RESOURCE_UNAVAILABLE, empty_buffers) (query_failed d2).
Proof.
  assert (Hq : ∃ d2, pvr_sync_query_fence 3 true 8 empty_buffers demo_create =
                 Ok (PVRSRV_ERROR_RESOURCE_UNAVAILABLE, empty_buffers) d2)
    by (eexists; vm_compute; reflexivity).
  destruct Hq as [d2 Hq]. exists d2.
  apply (pvr_sync_query_fences_stops [] 3 [3] true 8 empty_buffers
           demo_create empty_buffers demo_create
           PVRSRV_ERROR_RESOURCE_UNAVAILABLE empty_buffers d2).
  - reflexivity.
  - exact Hq.
  - discriminate.
Defined.

Lemma pvr_sync_query_fence_not_queryable d fd update max_entries q :
  ¬ queryable d fd update ->
  pvr_sync_query_fence fd update max_entries q d =
    Ok (PVRSRV_ERROR_HANDLE_NOT_FOUND, q)
       (set_dmesg (dmesg d ++ [(KERN_ERR, not_queryable_msg update)]) d).
Proof.
  intros H. unfold pvr_sync_query_fence, queryable in *. destruct update.
  - unfold pvr_sync_query_sync_update, pvr_sync_alloc_fence_fdget. mnorm.
    destruct (files d !! fd) as [[a|f|]|] eqn:E; cbv beta iota;
      try (rewrite N.eqb_refl; reflexivity).
    destruct (N.eqb_spec a NULL) as [->|Hne]; [reflexivity|].
    exfalso. apply H. eauto.
  - unfold pvr_sync_query_sync_check, sync_fence_fdget. mnorm.
    destruct (files d !! fd) as [[a|f|]|] eqn:E; cbv beta iota;
      try reflexivity.
    exfalso. apply H. eauto.
Qed.

(** X6.  A batch of queries fails at the first fd of the wrong kind: in
    update mode an fd that is no alloc sync, in check mode an fd that is
    no fence.  The batch returns [PVRSRV_ERROR_HANDLE_NOT_FOUND], the
    buffers are as the queries before left them, and the state differs
    from theirs by the two log lines only. *)
Theorem pvr_sync_query_fences_wrong_kind pre fd post update max_entries
    q d q1 d1 :
  pvr_sync_query_fences pre update max_entries q d = Ok (PVRSRV_OK, q1) d1 ->
  ¬ queryable d1 fd update ->
  pvr_sync_query_fences (pre ++ fd :: post) update max_entries q d =
    Ok (PVRSRV_ERROR_HANDLE_NOT_FOUND, q1)
       (query_failed
          (set_dmesg (dmesg d1 ++ [(KERN_ERR, not_queryable_msg update)]) d1)).
Proof.
  intros Hpre Hq.
  rewrite (pvr_sync_query_fences_app _ _ _ _ _ _ _ _ Hpre).
  cbn [pvr_sync_query_fences]. unfold bind at 1.
  rewrite (pvr_sync_query_fence_not_queryable _ _ _ _ _ Hq). reflexivity.
Qed.

Lemma pvr_sync_query_fences_wrong_kind_demo :
  ∃ q1,
    pvr_sync_query_fences [3] true 8 empty_buffers demo_alloc =
      Ok (PVRSRV_OK, q1) demo_update ∧
    pvr_sync_query_fences ([3] ++ 9 :: [3]) true 8 empty_buffers demo_alloc =
      Ok (PVRSRV_ERROR_HANDLE_NOT_FOUND, q1)
         (query_failed
            (set_dmesg (dmesg demo_update ++ [(KERN_ERR, not_queryable_msg true)])
               demo_update)).
Proof.
  assert (Hq : ∃ q1, pvr_sync_query_fences [3] true 8 empty_buffers demo_alloc =
                 Ok (PVRSRV_OK, q1) demo_update)
    by (eexists; vm_compute; reflexivity).
  destruct Hq as [q1 Hq]. exists q1. split; [exact Hq|].
  apply (pvr_sync_query_fences_wrong_kind [3] 9 [3] true 8 empty_buffers
           demo_alloc q1 demo_update Hq).
  intros (a & _ & Hf). vm_compute in Hf. discriminate Hf.
Defined.

(** ** Refused and failed ioctls *)

(** X7.  [pvr_sync_ioctl_create_fence] refuses an fd that is no alloc sync
    and an alloc sync of another timeline: it returns [-EFAULT] and no
    fd, and no object of the driver has changed. *)
Theorem pvr_sync_ioctl_create_fence_rejects T fd szName d :
  (∀ a ad, a ≠ NULL -> files d !! fd = Some (alloc_sync_file a) ->
           alloc_datas d !! a = Some ad -> timeline ad ≠ T) ->
  (∀ a, a ≠ NULL -> files d !! fd = Some (alloc_sync_file a) ->
        is_Some (alloc_datas d !! a)) ->
  ∃ d', pvr_sync_ioctl_create_fence T fd szName d = Ok (- EFAULT, None) d' ∧
        same_objects d d'.
Proof.
  intros Hbad Hwf.
  unfold pvr_sync_ioctl_create_fence, pvr_sync_alloc_fence_fdget.
  unfold bind at 1. rewrite reply_eq. cbv beta iota.
  destruct (hd 0 (replies d) <? 0).
  { mnorm. eexists. split; [reflexivity|]. unfold same_objects. dsimpl. tauto. }
  unfold bind at 1. rewrite reply_eq. cbv beta iota. dsimpl.
  destruct (hd 0 (tail (replies d)) =? 0).
  { mnorm. eexists. split; [reflexivity|]. unfold same_objects. dsimpl. tauto. }
  unfold bind at 1. rewrite reply_eq. cbv beta iota. dsimpl.
  destruct (negb (hd 0 (tail (tail (replies d))) =? 0)).
  { mnorm. eexists. split; [reflexivity|]. unfold same_objects. dsimpl. tauto. }
  mnorm.
  destruct (files d !! fd) as [[a|f|]|] eqn:E; cbv beta iota;
    try (rewrite N.eqb_refl; eexists; split; [reflexivity|];
         unfold same_objects; dsimpl; tauto).
  destruct (N.eqb_spec a NULL) as [->|Hne].
  { eexists. split; [reflexivity|]. unfold same_objects. dsimpl. tauto. }
  destruct (Hwf a Hne eq_refl) as [ad Had]. dsimpl. rewrite Had. cbv beta iota.
  specialize (Hbad a ad Hne eq_refl Had).
  apply N.eqb_neq in Hbad. rewrite Hbad. cbn [negb].
  eexists. split; [reflexivity|]. unfold same_objects. dsimpl. tauto.
Qed.

Lemma pvr_sync_ioctl_create_fence_rejects_demo :
  ∃ d', pvr_sync_ioctl_create_fence 2 3 "fence" demo_alloc =
          Ok (- EFAULT, None) d' ∧
        same_objects demo_alloc d'.
Proof.
  apply (pvr_sync_ioctl_create_fence_rejects 2 3 "fence" demo_alloc).
  - intros a ad _ Hf Ha. vm_compute in Hf. injection Hf as <-.
    vm_compute in Ha. injection Ha as <-. discriminate.
  - intros a _ Hf. vm_compute in Hf. injection Hf as <-.
    eexists. vm_compute. reflexivity.
Defined.

Lemma kmalloc_eq d :
  kmalloc d =
    if hd 0 (replies d) =? 0 then Ok NULL (set_replies (tail (replies d)) d)
    else Ok (N.succ (brk d))
           (set_brk (N.succ (brk d)) (set_replies (tail (replies d)) d)).
Proof.
  unfold kmalloc. unfold bind at 1. rewrite reply_eq. cbv beta iota.
  destruct (hd 0 (replies d) =? 0); reflexivity.
Qed.

(** When [sync_pt_create] fails, [pvr_sync_create_sync] returns [NULL]
    after it freed the sync data it was given. *)
Lemma pvr_sync_create_sync_failed d T sd r d' :
  hd 0 (replies d) = 0 ->
  sync_datas d !! NULL = None ->
  pvr_sync_create_sync T sd d = Ok r d' ->
  r = None ∧ sd ≠ NULL ∧ sync_datas d' !! sd = None.
Proof.
  intros Hr HF H.
  assert (r = None) as ->.
  { unfold pvr_sync_create_sync in H. unfold bind at 1 in H.
    rewrite kmalloc_eq, Hr, Z.eqb_refl in H. cbv beta iota in H.
    rewrite N.eqb_refl in H. unfold complete_sync in H. munfold_in H.
    minv H; reflexivity. }
  split; [reflexivity|].
  eapply pvr_sync_create_sync_none; eassumption.
Qed.

(** X8.  When [sync_pt_create] fails, [pvr_sync_ioctl_create_fence] does not
    return: [pvr_sync_create_sync] has freed the sync data on its error
    path, and the error path of the ioctl then reads that sync data
    again in [pvr_sync_free_sync_data], which is a fault in this model
    (a use after free and a second [kfree] in the kernel). *)
Theorem pvr_sync_ioctl_create_fence_use_after_free T fd szName d a ad :
  sync_datas d !! NULL = None ->
  files d !! fd = Some (alloc_sync_file a) -> a ≠ NULL ->
  alloc_datas d !! a = Some ad -> timeline ad = T ->
  0 <= hd 0 (replies d) ->
  hd 0 (tail (replies d)) ≠ 0 ->
  hd 0 (tail (tail (replies d))) = 0 ->
  hd 0 (tail (tail (tail (replies d)))) = 0 ->
  pvr_sync_ioctl_create_fence T fd szName d = Oops.
Proof.
  intros HF Hf Ha Had HT R1 R2 R3 R4.
  unfold pvr_sync_ioctl_create_fence.
  unfold bind at 1. rewrite reply_eq. cbv beta iota.
  destruct (Z.ltb_spec (hd 0 (replies d)) 0) as [?|_]; [lia|].
  unfold bind at 1. rewrite reply_eq. cbv beta iota. dsimpl.
  apply Z.eqb_neq in R2. rewrite R2.
  unfold bind at 1. rewrite reply_eq. cbv beta iota. dsimpl.
  rewrite R3. cbn [Z.eqb negb].
  unfold bind at 1. rewrite (fdget_alloc _ fd a) by exact Hf. cbv beta iota.
  apply N.eqb_neq in Ha. rewrite Ha.
  unfold bind at 1. unfold load_alloc_data, load. dsimpl. rewrite Had.
  cbv beta iota zeta. rewrite HT, N.eqb_refl. cbn [negb].
  unfold bind at 1. unfold store_alloc_data, modify. cbv beta iota.
  unfold bind at 1.
  match goal with
  | |- match ?m with _ => _ end _ = _ => destruct m as [r d1|] eqn:Hcs
  | |- match ?m with _ => _ end = _ => destruct m as [r d1|] eqn:Hcs
  end; [|reflexivity].
  apply pvr_sync_create_sync_failed in Hcs; [|dsimpl; assumption..].
  destruct Hcs as (-> & Hnn & Hnone).
  apply N.eqb_neq in Hnn.
  unfold pvr_sync_free_sync_data. mnorm. rewrite Hnn. cbv beta iota. dsimpl.
  rewrite Hnone. reflexivity.
Qed.

Lemma pvr_sync_ioctl_create_fence_use_after_free_demo :
  ∃ d1, pvr_sync_create_sync 1 4
          (set_alloc_datas (<[3%N := {| sync_data := NULL; timeline := 1 |}]>
                              (alloc_datas create_fails))
             (set_replies [0] create_fails)) = Ok None d1 ∧
        sync_datas d1 !! 4%N = None ∧
        pvr_sync_ioctl_create_fence 1 3 "fence" create_fails = Oops.
Proof.
  eexists. split; [vm_compute; reflexivity|]. split; [vm_compute; reflexivity|].
  apply (pvr_sync_ioctl_create_fence_use_after_free 1 3 "fence" create_fails
           3 {| sync_data := 4; timeline := 1 |});
    vm_compute; first [reflexivity | discriminate].
Defined.

Lemma alloc_event_failed T e r : e ≠ 0 -> alloc_event T (e, r) = ev_other.
Proof. intros He. unfold alloc_event. destruct e; [done|reflexivity..]. Qed.

Lemma delete_insert_sub {A} (m : gmap N A) a x y b :
  delete a (<[a := x]> m) !! b = Some y -> m !! b = Some y.
Proof.
  intros H. apply lookup_delete_Some in H. destruct H as [Hne H].
  rewrite lookup_insert_ne in H by exact Hne. exact H.
Qed.

Ltac failed_alloc :=
  repeat match goal with
  | |- _ ∧ _ => split
  | |- ?x = ?x => reflexivity
  | |- - EFAULT = - EFAULT ∨ _ => left; reflexivity
  | |- _ ∨ - ENOMEM = - ENOMEM => right; reflexivity
  | |- ∀ _, _ => intro
  | H : delete ?a (<[?a := _]> _) !! _ = Some _ |- _ =>
      apply delete_insert_sub in H
  | H : ?m !! ?b = Some ?y |- ?m !! ?b = Some ?y => exact H
  | H : ?x = ?y |- ?x = ?y => exact H
  end.

Lemma pvr_sync_create_sync_data_null_frame T d d' :
  pvr_sync_create_sync_data T d = Ok NULL d' ->
  files d' = files d ∧ timelines d' = timelines d ∧
  alloc_datas d' = alloc_datas d.
Proof.
  intros H. unfold pvr_sync_create_sync_data in H. munfold_in H.
  apply bind_inv in H. destruct H as (sd & d1 & Hk1 & H).
  apply kmalloc_inv in Hk1. destruct Hk1 as [[-> ->]|[-> ->]].
  { rewrite N.eqb_refl in H. minv H. done. }
  rewrite succ_not_null in H.
  apply bind_inv in H. destruct H as (u & d2 & Hst & H). minv Hst. dsimpl.
  apply bind_inv in H. destruct H as (k & d3 & Hk2 & H).
  apply kmalloc_inv in Hk2. destruct Hk2 as [[-> ->]|[-> ->]].
  { rewrite N.eqb_refl in H. minv H. done. }
  rewrite succ_not_null in H. dsimpl.
  apply bind_inv in H. destruct H as (u2 & d2 & Hst & H). minv Hst. dsimpl.
  apply bind_inv in H. destruct H as (u3 & d2 & Hst & H). minv Hst. dsimpl.
  apply bind_inv in H. destruct H as (tl & d2 & Hld & H).
  apply load_inv in Hld. destruct Hld as [Htl ->]. dsimpl.
  apply bind_inv in H. destruct H as ([e p] & d2 & Hg & H).
  destruct (decide (e = PVRSRV_OK)) as [->|He].
  { minv H. exfalso. eapply succ_neq_null. symmetry. eassumption. }
  apply sync_pool_get_err in Hg; [|exact He].
  destruct Hg as (-> & _ & _ & _ & _ & _ & _ & _ & _ & Ha & Ht & Hf).
  dsimpl.
  assert (H' : (kfree_kernel (N.succ (N.succ (brk d)));;
                kfree_sync_data (N.succ (brk d));; ret NULL)
                 (set_dmesg (dmesg d2 ++ [(KERN_ERR,
                    "pvr_sync_create_sync_data: Failed to allocate sync prim")])
                    d2) = Ok NULL d').
  { destruct e; try done; minv H; reflexivity. }
  clear H. munfold_in H'. minv H'. dsimpl. auto.
Qed.


(** X9.  A failed [pvr_sync_ioctl_alloc_fence] is undone: the error is
    [-EFAULT] or [-ENOMEM], the user receives no data, no fd is
    installed, no alloc sync is left behind, the timeline records are as
    they were, and the prim of every timeline has the [next_value] it had
    before the call, also when the failure came after the value had been
    reserved. *)
Theorem pvr_sync_ioctl_alloc_fence_failure T d e r d' :
  driver_inv d ->
  pvr_sync_ioctl_alloc_fence T d = Ok (e, r) d' -> e ≠ 0 ->
  r = None ∧ (e = - EFAULT ∨ e = - ENOMEM) ∧
  files d' = files d ∧ timelines d' = timelines d ∧
  (∀ a ad, alloc_datas d' !! a = Some ad -> alloc_datas d !! a = Some ad) ∧
  ∀ T' tl ts,
    timelines d !! T' = Some tl -> prims d !! timeline_sync tl = Some ts ->
    ∃ ts', prims d' !! timeline_sync tl = Some ts' ∧
           next_value ts' = next_value ts.
Proof.
  intros Hinv H He.
  assert (Hkeep : ∀ T' tl ts,
    timelines d !! T' = Some tl -> prims d !! timeline_sync tl = Some ts ->
    ∃ ts', prims d' !! timeline_sync tl = Some ts' ∧
           next_value ts' = next_value ts).
  { intros T' tl ts Htl Hts.
    destruct (alloc_fence_inv _ _ _ _ Hinv H) as [_ Hk].
    rewrite alloc_event_failed in Hk by exact He.
    destruct (Hk _ _ _ Htl Hts) as (tl' & ts' & _ & _ & Hp & Hn).
    exists ts'. split; [exact Hp|]. apply Hn. discriminate. }
  cut (r = None ∧ (e = - EFAULT ∨ e = - ENOMEM) ∧
       files d' = files d ∧ timelines d' = timelines d ∧
       (∀ a ad, alloc_datas d' !! a = Some ad -> alloc_datas d !! a = Some ad)).
  { intros (? & ? & ? & ? & ?). auto 10. }
  clear Hkeep Hinv.
  unfold pvr_sync_ioctl_alloc_fence in H.
  do 3 (apply bind_inv in H; destruct H as (? & ? & Hr & H);
        apply reply_inv in Hr; destruct Hr as [-> ->];
        match type of H with
        | (if ?c then _ else _) _ = _ => destruct c eqn:?
        end;
        [munfold_in H; minv H; dsimpl; failed_alloc|]).
  dsimpl.
  apply bind_inv in H. destruct H as (a & d1 & Hk & H).
  apply kmalloc_inv in Hk. destruct Hk as [[-> ->]|[-> ->]].
  { rewrite N.eqb_refl in H. munfold_in H. minv H. dsimpl. failed_alloc. }
  rewrite succ_not_null in H. dsimpl.
  apply bind_inv in H. destruct H as (u & d1 & Hst & H).
  munfold_in Hst. minv Hst. dsimpl.
  apply bind_inv in H. destruct H as (sdp & d1 & Hcs & H).
  destruct (decide (sdp = NULL)) as [->|Hnn].
  { apply pvr_sync_create_sync_data_null_frame in Hcs. dsimpl.
    destruct Hcs as (Hf1 & Ht1 & Ha1).
    rewrite N.eqb_refl in H. munfold_in H. minv H. dsimpl.
    rewrite Ha1, Hf1, Ht1. failed_alloc. }
  apply pvr_sync_create_sync_data_ok in Hcs; [|exact Hnn].
  destruct Hcs as (tl0 & k & p & v & Htl0 & -> & -> & Htls & Had & Hfs & Hsds
                   & Hks & Hps & Hcase).
  dsimpl. rewrite succ_not_null in H.
  assert (Hfree : ∀ sd dA u dB,
            pvr_sync_free_sync_data sd dA = Ok u dB ->
            files dB = files dA ∧ timelines dB = timelines dA ∧
            alloc_datas dB = alloc_datas dA).
  { clear. intros sd dA u dB H. unfold pvr_sync_free_sync_data,
      pvr_sync_defer_free in H. munfold_in H. minv H; dsimpl; done. }
  clear Hps Hsds Hks Hcase.
  unfold alloc_fence_err_rollback_timeline, alloc_fence_err_free_data,
    is_sync_met in H.
  munfold_in H. minv H; dsimpl.
  all: try match goal with
       | Hx : pvr_sync_free_sync_data _ _ = Ok _ _ |- _ =>
           apply Hfree in Hx; dsimpl; destruct Hx as (Hx1 & Hx2 & Hx3);
           try rewrite Hx1; try rewrite Hx2; try rewrite Hx3;
           try rewrite Had; try rewrite Hfs; try rewrite Htls
       end.
  all: try (exfalso; apply He; reflexivity).
  all: try rewrite insert_insert_eq.
  all: failed_alloc.
Qed.

Lemma driver_inv_alloc_fails : driver_inv alloc_fails.
Proof.
  refine (proj1 (same_core_inv _ _ ev_other driver_inv_demo_open _ _)); [|done].
  unfold same_core. vm_compute. repeat split; auto. discriminate.
Qed.

Lemma pvr_sync_ioctl_alloc_fence_failure_demo :
  ∃ d', pvr_sync_ioctl_alloc_fence 1 alloc_fails = Ok (- EFAULT, None) d' ∧
        files d' = files alloc_fails ∧
        next_value <$> prims d' !! 2%N = Some 0.
Proof.
  assert (Hr : ∃ d', pvr_sync_ioctl_alloc_fence 1 alloc_fails =
                 Ok (- EFAULT, None) d')
    by (eexists; vm_compute; reflexivity).
  destruct Hr as [d' Hr]. exists d'. split; [exact Hr|].
  destruct (pvr_sync_ioctl_alloc_fence_failure 1 alloc_fails (- EFAULT) None d'
              driver_inv_alloc_fails Hr)
    as (_ & _ & Hf & _ & _ & Hk); [discriminate|].
  split; [exact Hf|].
  destruct (Hk 1%N demo_timeline demo_timeline_prim) as (ts' & Hp & Hn).
  - vm_compute. reflexivity.
  - vm_compute. reflexivity.
  - change (timeline_sync demo_timeline) with 2%N in Hp.
    rewrite Hp. cbn. rewrite Hn. reflexivity.
Defined.

(** ** Fencing and the first allocation *)

Lemma pvr_sync_ioctl_enable_fencing_ok T b d d1 :
  pvr_sync_ioctl_enable_fencing T b d = Ok 0 d1 ->
  ∃ tl, timelines d !! T = Some tl ∧
        timelines d1 =
          <[T := {| obj_name := obj_name tl; timeline_sync := timeline_sync tl;
                    fencing_enabled := b |}]> (timelines d) ∧
        prims d1 = prims d.
Proof.
  intros H. unfold pvr_sync_ioctl_enable_fencing in H. munfold_in H.
  apply bind_inv in H. destruct H as (r1 & d2 & Hr & H).
  apply reply_inv in Hr. destruct Hr as [-> ->].
  destruct (_ =? 0) in H; [discriminate H|].
  apply bind_inv in H. destruct H as (r2 & d2 & Hr & H).
  apply reply_inv in Hr. destruct Hr as [-> ->].
  destruct (negb _) in H; [discriminate H|].
  minv H. dsimpl. eauto.
Qed.

(** X10.  The enable-fencing ioctl decides the idle detection of the next
    allocation: after it returned 0 with the flag [b], a successful
    allocation on the timeline is idle exactly when [b] is false and the
    timeline prim is met; an idle allocation leaves the [next_value] of
    the timeline prim as it was, another one increments it. *)
Theorem pvr_sync_ioctl_enable_fencing_gates_idle T b d d1 tl ts data d2 :
  driver_inv d ->
  timelines d !! T = Some tl ->
  prims d !! timeline_sync tl = Some ts ->
  pvr_sync_ioctl_enable_fencing T b d = Ok 0 d1 ->
  pvr_sync_ioctl_alloc_fence T d1 = Ok (0, Some data) d2 ->
  bTimelineIdle data = (client_sync ts =? next_value ts) && negb b ∧
  ∃ ts', prims d2 !! timeline_sync tl = Some ts' ∧
         next_value ts' =
           if bTimelineIdle data then next_value ts
           else u32 (next_value ts + 1).
Proof.
  intros Hinv Htl Hts He Ha.
  pose proof (proj1 (enable_fencing_inv _ _ _ _ _ Hinv He)) as Hinv1.
  apply pvr_sync_ioctl_enable_fencing_ok in He.
  destruct He as (tl0 & Htl0 & Ht1 & Hp1).
  rewrite Htl in Htl0. injection Htl0 as <-.
  assert (Htl1 : timelines d1 !! T =
                 Some {| obj_name := obj_name tl;
                         timeline_sync := timeline_sync tl;
                         fencing_enabled := b |})
    by (rewrite Ht1; apply lookup_insert_eq).
  assert (Hts1 : prims d1 !! timeline_sync tl = Some ts)
    by (rewrite Hp1; exact Hts).
  destruct (alloc_fence_ok _ _ _ _ _ _ Hinv1 Htl1 Hts1 Ha)
    as (Hidle & a & sdp & k & p & fs & _ & _ & _ & _ & _ & _ & _ & _ & _
        & Hp & _).
  cbn [timeline_sync] in Hp. unfold timeline_idle in Hidle.
  cbn [fencing_enabled] in Hidle.
  split; [exact Hidle|]. eexists. split; [exact Hp|].
  cbn [next_value with_next_value]. unfold reserved_value, timeline_idle.
  cbn [fencing_enabled]. rewrite <- Hidle. reflexivity.
Qed.

Lemma driver_inv_fencing_off : driver_inv fencing_off.
Proof.
  refine (proj1 (same_core_inv _ _ ev_other driver_inv_demo_open _ _)); [|done].
  unfold same_core. vm_compute. repeat split; auto. discriminate.
Qed.

Lemma pvr_sync_ioctl_enable_fencing_gates_idle_demo :
  ∃ d1 d2,
    pvr_sync_ioctl_enable_fencing 1 false fencing_off = Ok 0 d1 ∧
    pvr_sync_ioctl_alloc_fence 1 d1 =
      Ok (0, Some {| iFenceFd := 3; bTimelineIdle := true |}) d2 ∧
    next_value <$> prims d2 !! 2%N = Some 0.
Proof.
  assert (H1 : ∃ d1, pvr_sync_ioctl_enable_fencing 1 false fencing_off = Ok 0 d1)
    by (eexists; vm_compute; reflexivity).
  destruct H1 as [d1 H1].
  assert (H2 : ∃ d2, pvr_sync_ioctl_alloc_fence 1 d1 =
                 Ok (0, Some {| iFenceFd := 3; bTimelineIdle := true |}) d2).
  { vm_compute in H1. injection H1 as <-. eexists. vm_compute. reflexivity. }
  destruct H2 as [d2 H2]. exists d1, d2.
  split; [exact H1|]. split; [exact H2|].
  destruct (pvr_sync_ioctl_enable_fencing_gates_idle 1 false fencing_off d1
              demo_timeline demo_timeline_prim
              {| iFenceFd := 3; bTimelineIdle := true |} d2
              driver_inv_fencing_off)
    as (_ & ts' & Hp & Hn); [vm_compute; reflexivity..|exact H1|exact H2|].
  change (timeline_sync demo_timeline) with 2%N in Hp.
  rewrite Hp. cbn. rewrite Hn. reflexivity.
Defined.

(** X11.  A timeline is opened with fencing enabled, so the first allocation on
    it is never idle: it reports [bTimelineIdle = false] and reserves the
    value 1 on the timeline prim, whose fence value 0 it records. *)
Theorem pvr_sync_open_first_alloc_not_idle name d T d1 data d2 :
  driver_inv d ->
  pvr_sync_open name d = Ok (0, T) d1 ->
  pvr_sync_ioctl_alloc_fence T d1 = Ok (0, Some data) d2 ->
  bTimelineIdle data = false ∧
  ∃ tl ts a sdp sd,
    timelines d2 !! T = Some tl ∧ fencing_enabled tl = true ∧
    prims d2 !! timeline_sync tl = Some ts ∧ next_value ts = 1 ∧
    files d2 !! iFenceFd data = Some (alloc_sync_file a) ∧
    alloc_datas d2 !! a = Some {| sync_data := sdp; timeline := T |} ∧
    sync_datas d2 !! sdp = Some sd ∧
    timeline_fence_value sd = 0 ∧ timeline_update_value sd = 1.
Proof.
  intros Hinv Ho Ha.
  pose proof (proj1 (open_inv _ _ _ _ Hinv Ho)) as Hinv1.
  destruct (pvr_sync_open_ok _ _ _ _ Ho) as (tl & ts & Htl & Hfe & Hts & Hnv).
  destruct (alloc_fence_ok _ _ _ _ _ _ Hinv1 Htl Hts Ha)
    as (Hidle & a & sdp & k & p & fs & Hf & Had & _ & Hsd & _ & _ & _ & _ & _
        & Hp & Ht).
  assert (Hni : timeline_idle tl ts = false).
  { unfold timeline_idle. rewrite Hfe. apply andb_false_r. }
  assert (Hrv : reserved_value tl ts = 1).
  { unfold reserved_value. rewrite Hni, Hnv. reflexivity. }
  rewrite Hni in Hidle. rewrite Hrv in Hp, Hsd. rewrite Hnv in Hsd.
  split; [exact Hidle|].
  exists tl, (with_next_value 1 ts), a, sdp. eexists.
  split; [rewrite Ht; exact Htl|]. split; [exact Hfe|].
  split; [exact Hp|]. split; [reflexivity|].
  split; [exact Hf|]. split; [exact Had|]. split; [exact Hsd|].
  split; reflexivity.
Qed.

Lemma pvr_sync_open_first_alloc_not_idle_demo :
  bTimelineIdle {| iFenceFd := 3; bTimelineIdle := false |} = false ∧
  ∃ tl ts a sdp sd,
    timelines demo_alloc !! 1%N = Some tl ∧ fencing_enabled tl = true ∧
    prims demo_alloc !! timeline_sync tl = Some ts ∧ next_value ts = 1 ∧
    files demo_alloc !! 3 = Some (alloc_sync_file a) ∧
    alloc_datas demo_alloc !! a = Some {| sync_data := sdp; timeline := 1 |} ∧
    sync_datas demo_alloc !! sdp = Some sd ∧
    timeline_fence_value sd = 0 ∧ timeline_update_value sd = 1.
Proof.
  exact (pvr_sync_open_first_alloc_not_idle "tl" demo_init 1 demo_open
           {| iFenceFd := 3; bTimelineIdle := false |} demo_alloc
           (driver_inv_init demo_script) demo_open_eq demo_alloc_eq).
Defined.

(** X12.  [pvr_sync_open] either succeeds with a new timeline, appended to the
    timeline list, with fencing enabled and a prim of its own whose
    values are both 0; or it fails with [-ENOMEM] and [NULL], leaving the
    timeline list, the timelines and the prims as they were. *)
Theorem pvr_sync_open_result name d e T d' :
  driver_inv d ->
  pvr_sync_open name d = Ok (e, T) d' ->
  (e = 0 ∧ T ≠ NULL ∧ timelines d !! T = None ∧
   timeline_list d' = timeline_list d ++ [T] ∧
   ∃ p ts,
     timelines d' =
       <[T := {| obj_name := name; timeline_sync := p;
                 fencing_enabled := true |}]> (timelines d) ∧
     prims d' !! p = Some ts ∧ client_sync ts = 0 ∧ next_value ts = 0 ∧
     class ts = strncpy32 name ∧ type ts = SYNC_TL_TYPE ∧
     unowned d p) ∨
  (e = - ENOMEM ∧ T = NULL ∧ timeline_list d' = timeline_list d ∧
   timelines d' = timelines d ∧ prims d' = prims d ∧
   sync_pool_free_list d' = sync_pool_free_list d ∧
   sync_pool_active_list d' = sync_pool_active_list d).
Proof.
  intros Hinv H. unfold pvr_sync_open in H.
  apply bind_inv in H. destruct H as (t & d1 & Hk & H).
  apply kmalloc_inv in Hk. destruct Hk as [[-> ->]|[-> ->]].
  { rewrite N.eqb_refl in H. munfold_in H. minv H. dsimpl. right. done. }
  rewrite succ_not_null in H. dsimpl.
  apply bind_inv in H. destruct H as (u & d1 & Hst & H).
  munfold_in Hst. minv Hst. dsimpl.
  assert (Hfresh : timelines d !! N.succ (brk d) = None).
  { destruct (timelines d !! N.succ (brk d)) as [tl|] eqn:E; [|done].
    destruct Hinv as (_ & HB & _). destruct (HB _ _ E) as [Hle _]. lia. }
  apply bind_inv in H. destruct H as ([er p] & d1 & Hg & H).
  destruct (decide (er = PVRSRV_OK)) as [->|Her].
  - left.
    assert (Hun : unowned d p).
    { pose proof (sync_pool_get_fields _ _ _ _ _ Hg) as (_ & _ & _ & _ & Htk & _).
      apply (taken_unowned d d1 p Hinv).
      destruct Htk as [(? & ? & ?)|(? & ? & ?)]; [left|right]; dsimpl;
        repeat split; try assumption. lia. }
    apply sync_pool_get_cases in Hg.
    destruct Hg as [(rest & s & Hfl & Hs & ->)|(Hfl & -> & ->)];
      unfold reused, allocated in H; dsimpl;
      munfold_in H; minv H; dsimpl; rewrite insert_insert_eq.
    all: split; [reflexivity|]; split; [apply succ_neq_null|].
    all: split; [exact Hfresh|]; split; [reflexivity|].
    all: eexists _, _; split; [reflexivity|].
    all: split; [apply lookup_insert_eq|].
    all: do 4 (split; [reflexivity|]); exact Hun.
  - right. pose proof (sync_pool_get_lists _ _ _ _ _ Hg) as (Htll & _).
    apply sync_pool_get_err in Hg; [|exact Her]. dsimpl.
    destruct Hg as (_ & Hp & _ & Hact & Hfr & _ & _ & _ & _ & _ & Ht & _).
    destruct er; [done|..]; munfold_in H; minv H; dsimpl;
      rewrite ?Ht, ?delete_insert_eq, ?(delete_id _ _ Hfresh); done.
Qed.

Lemma pvr_sync_open_result_demo :
  timeline_list demo_open = [1%N] ∧
  timelines demo_open !! 1%N = Some demo_timeline.
Proof.
  destruct (pvr_sync_open_result "tl" demo_init 0 1 demo_open
              (driver_inv_init demo_script) demo_open_eq)
    as [(_ & _ & _ & Hl & _)|(He & _)]; [|discriminate He].
  split; [exact Hl|]. vm_compute. reflexivity.
Defined.

(** ** Releases that do not roll back *)

(** X13.  The timeline is rolled back by [pvr_sync_alloc_release] only for an
    alloc sync that is still unused.  Once create was called on the alloc
    sync (its [sync_data] is [NULL]), or once an update query gave its
    fence prim a [next_value], the release leaves every prim and timeline
    as it is; it frees the alloc data and the sync data and defers the
    kernel pair. *)
Theorem pvr_sync_alloc_release_no_rollback d a ad :
  alloc_datas d !! a = Some ad ->
  (sync_data ad ≠ NULL ->
   ∃ data k fs, sync_datas d !! sync_data ad = Some data ∧
                kernels d !! kernel data = Some k ∧
                prims d !! fence_sync k = Some fs ∧ next_value fs ≠ 0) ->
  ∃ d', pvr_sync_alloc_release a d = Ok 0 d' ∧
        prims d' = prims d ∧ timelines d' = timelines d ∧
        kernels d' = kernels d ∧ files d' = files d ∧
        alloc_datas d' = delete a (alloc_datas d) ∧
        sync_datas d' = delete (sync_data ad) (sync_datas d) ∧
        sync_prim_free_list d' =
          sync_prim_free_list d ++ deferred_pair d (sync_data ad) ∧
        rollback_target d a = None.
Proof.
  intros Had Hused.
  unfold pvr_sync_alloc_release, pvr_sync_free_sync_data, pvr_sync_defer_free,
    rollback_target, deferred_pair.
  mnorm. rewrite Had. cbv beta iota. cbn [mbind option_bind].
  destruct (sync_data ad =? NULL)%N eqn:Hn.
  - cbv beta iota. dsimpl. eexists. split; [reflexivity|]. dsimpl.
    rewrite app_nil_r. repeat split; reflexivity.
  - apply N.eqb_neq in Hn.
    destruct (Hused Hn) as (data & k & fs & Hsd & Hk & Hfs & Hnv).
    cbv beta iota. rewrite Hsd. cbv beta iota. cbn [mbind option_bind].
    rewrite Hk. cbv beta iota. cbn [mbind option_bind].
    rewrite Hfs. cbv beta iota. cbn [mbind option_bind].
    apply Z.eqb_neq in Hnv. rewrite Hnv. cbv beta iota. dsimpl.
    rewrite Hsd. cbv beta iota.
    destruct (kernel data =? NULL)%N; cbv beta iota; dsimpl;
      (eexists; split; [reflexivity|]; dsimpl;
       rewrite ?app_nil_r; repeat split; reflexivity).
Qed.

Lemma pvr_sync_alloc_release_no_rollback_demo :
  ∃ d', pvr_sync_alloc_release 3 demo_update = Ok 0 d' ∧
        prims d' = prims demo_update ∧
        next_value <$> prims d' !! 2%N = Some 1 ∧
        sync_prim_free_list d' = [5%N].
Proof.
  destruct (pvr_sync_alloc_release_no_rollback demo_update 3
              {| sync_data := 4; timeline := 1 |})
    as (d' & Hr & Hp & _ & _ & _ & _ & _ & Hl & _).
  - vm_compute. reflexivity.
  - intros _. eexists _, _, _. split; [vm_compute; reflexivity|].
    split; [vm_compute; reflexivity|]. split; [vm_compute; reflexivity|].
    vm_compute. discriminate.
  - exists d'. split; [exact Hr|]. split; [exact Hp|].
    split; [rewrite Hp; vm_compute; reflexivity|].
    rewrite Hl. vm_compute. reflexivity.
Defined.

(** ** Completion without hardware *)

Lemma complete_sync_inv p d u d' :
  complete_sync p d = Ok u d' ->
  ∃ s, prims d !! p = Some s ∧
       d' = set_prims (<[p := with_client_sync (next_value s) s]> (prims d)) d.
Proof.
  intros H. unfold complete_sync in H.
  apply bind_inv in H. destruct H as (s & d1 & Hl & H).
  unfold load_prim in Hl. apply load_inv in Hl. destruct Hl as [Hs ->].
  unfold store_prim in H. munfold_in H. injection H as _ <-. eauto.
Qed.

Lemma nohw_complete_pts_ok pts : ∀ d u d',
  nohw_complete_pts pts d = Ok u d' ->
  sync_datas d' = sync_datas d ∧ kernels d' = kernels d ∧
  files d' = files d ∧ timelines d' = timelines d ∧
  alloc_datas d' = alloc_datas d ∧ dmesg d' = dmesg d ∧
  (∀ p s, prims d !! p = Some s ->
     ∃ s', prims d' !! p = Some s' ∧ next_value s' = next_value s ∧
           vaddr s' = vaddr s ∧
           (client_sync s' = client_sync s ∨ client_sync s' = next_value s)) ∧
  (∀ p, met d p -> met d' p) ∧
  ∀ parent st sd, pvr_sync_pt parent st sd ∈ pts ->
    ∃ data k, sync_datas d !! sd = Some data ∧
              kernels d !! kernel data = Some k ∧ met d' (fence_sync k).
Proof.
  induction pts as [|pt pts IH]; intros d u d' H.
  - cbn in H. munfold_in H. injection H as _ <-.
    repeat split; try reflexivity.
    + intros p s Hs. exists s. auto.
    + auto.
    + intros ? ? ? Hin. apply elem_of_nil in Hin. destruct Hin.
  - destruct pt as [parent st sd|st]; cbn [nohw_complete_pts] in H.
    + apply bind_inv in H. destruct H as (data & d1 & Hl & H).
      unfold load_sync_data in Hl. apply load_inv in Hl. destruct Hl as [Hd ->].
      apply bind_inv in H. destruct H as (k & d1 & Hl & H).
      unfold load_kernel in Hl. apply load_inv in Hl. destruct Hl as [Hk ->].
      apply bind_inv in H. destruct H as (u1 & d1 & Hc & H).
      apply complete_sync_inv in Hc. destruct Hc as (s0 & Hs0 & ->).
      apply IH in H. dsimpl.
      destruct H as (Hsd & Hks & Hf & Ht & Ha & Hm & Hp & Hmet & Hpts).
      assert (Hmet0 : ∀ p, met d p ->
                met (set_prims (<[fence_sync k :=
                       with_client_sync (next_value s0) s0]> (prims d)) d) p).
      { intros p (s & Hs & Heq). unfold met. dsimpl.
        destruct (decide (p = fence_sync k)) as [->|Hne].
        - rewrite lookup_insert_eq. eexists. split; [reflexivity|].
          reflexivity.
        - rewrite lookup_insert_ne by congruence. eauto. }
      repeat split; try assumption.
      * intros p s Hs.
        destruct (decide (p = fence_sync k)) as [->|Hne].
        -- rewrite Hs in Hs0. injection Hs0 as <-.
           destruct (Hp (fence_sync k) (with_client_sync (next_value s) s))
             as (s' & Hs' & Hn & Hv & Hc); [apply lookup_insert_eq|].
           exists s'. cbn in Hn, Hv, Hc. repeat split; try assumption.
           right. destruct Hc as [Hc|Hc]; exact Hc.
        -- destruct (Hp p s) as (s' & Hs' & Hn & Hv & Hc);
             [rewrite lookup_insert_ne by congruence; exact Hs|].
           exists s'. auto.
      * intros p Hmp. apply Hmet, Hmet0, Hmp.
      * intros parent' st' sd' Hin. apply elem_of_cons in Hin.
        destruct Hin as [Heq|Hin].
        -- injection Heq as -> -> ->. exists data, k.
           repeat split; try assumption. apply Hmet.
           unfold met. dsimpl. rewrite lookup_insert_eq.
           eexists. split; reflexivity.
        -- destruct (Hpts _ _ _ Hin) as (data' & k' & ? & ? & ?).
           exists data', k'. auto.
    + apply IH in H.
      destruct H as (Hsd & Hks & Hf & Ht & Ha & Hm & Hp & Hmet & Hpts).
      repeat split; try assumption.
      intros parent' st' sd' Hin. apply elem_of_cons in Hin.
      destruct Hin as [Heq|Hin]; [discriminate Heq|]. eauto.
Qed.

(** X14.  Updating a fence without hardware signals every point of this
    driver in it: when [pvr_sync_nohw_update_fence] returns on the fd of
    a fence, the result is [PVRSRV_OK], the [has_signaled] operation
    answers 1 on each of the fence's points of this driver, no prim loses
    its [next_value], and a prim that was met stays met. *)
Theorem pvr_sync_nohw_update_fence_signals fd fence d e d' :
  files d !! fd = Some (sync_fence_file fence) ->
  pvr_sync_nohw_update_fence fd d = Ok e d' ->
  e = PVRSRV_OK ∧
  (∀ parent st sd, pvr_sync_pt parent st sd ∈ pt_list_head fence ->
     pvr_sync_has_signaled (pvr_sync_pt parent st sd) d' = Ok 1 d') ∧
  (∀ p s, prims d !! p = Some s ->
     ∃ s', prims d' !! p = Some s' ∧ next_value s' = next_value s) ∧
  (∀ p, met d p -> met d' p).
Proof.
  intros Hf H. unfold pvr_sync_nohw_update_fence in H.
  apply bind_inv in H. destruct H as (a & d1 & Hg & H).
  apply fdget_alloc_inv in Hg. destruct Hg as [-> [->|Hfa]];
    [|congruence].
  cbn [negb N.eqb] in H.
  apply bind_inv in H. destruct H as (f & d1 & Hg & H).
  apply sync_fence_fdget_inv in Hg. destruct Hg as [-> Hg].
  rewrite (Hg _ Hf) in H.
  apply bind_inv in H. destruct H as (u & d1 & Hn & H).
  munfold_in H. injection H as <- <-.
  apply nohw_complete_pts_ok in Hn.
  destruct Hn as (Hsd & Hks & _ & _ & _ & _ & Hp & Hmet & Hpts).
  split; [reflexivity|]. split; [|split; [|exact Hmet]].
  - intros parent st sd Hin.
    destruct (Hpts _ _ _ Hin) as (data & k & Hd & Hk & s & Hs & Heq).
    unfold pvr_sync_has_signaled. mnorm.
    rewrite Hsd, Hd. cbv beta iota.
    destruct (kernel data =? NULL)%N eqn:Hnull; [reflexivity|].
    mnorm. rewrite Hks, Hk. cbv beta iota. unfold is_sync_met. mnorm.
    rewrite Hs. cbv beta iota. rewrite Heq, Z.eqb_refl. reflexivity.
  - intros p s Hs. destruct (Hp p s Hs) as (s' & ? & ? & _). eauto.
Qed.

Lemma pvr_sync_nohw_update_fence_signals_demo :
  pvr_sync_has_signaled (pvr_sync_pt 1 0 4) check_merged = Ok 0 check_merged ∧
  ∃ d', pvr_sync_nohw_update_fence 7 check_merged = Ok PVRSRV_OK d' ∧
        pvr_sync_has_signaled (pvr_sync_pt 1 0 9) d' = Ok 1 d' ∧
        pvr_sync_has_signaled (pvr_sync_pt 1 0 4) d' = Ok 1 d'.
Proof.
  split; [vm_compute; reflexivity|].
  assert (Hr : ∃ d', pvr_sync_nohw_update_fence 7 check_merged = Ok PVRSRV_OK d')
    by (eexists; vm_compute; reflexivity).
  destruct Hr as [d' Hr]. exists d'. split; [exact Hr|].
  destruct (pvr_sync_nohw_update_fence_signals 7 check_fence check_merged
              PVRSRV_OK d') as (_ & Hs & _); [vm_compute; reflexivity|exact Hr|].
  split; apply Hs.
  - apply list_elem_of_here.
  - apply list_elem_of_further, list_elem_of_here.
Defined.

(** ** Shadows *)

(** X15.  The shadow of a foreign fence.  When
    [pvr_sync_create_waiter_for_foreign_sync] returns a kernel pair, the
    fd is a fence, the pair holds two different prims that no timeline
    and no other pair holds, classed by the name of the fence and typed
    as foreign fence and foreign cleanup, each with the value 0 and the
    [next_value] 1, and one waiter for the pair is registered.  When it
    returns [NULL], no waiter is registered and no kernel pair, timeline,
    sync data or file is added or changed. *)
Theorem pvr_sync_create_waiter_for_foreign_sync_shadow fd d k d' :
  driver_inv d ->
  pvr_sync_create_waiter_for_foreign_sync fd d = Ok k d' ->
  (k ≠ NULL ∧
   ∃ fence f c fs cs,
     files d !! fd = Some (sync_fence_file fence) ∧
     kernels d' = <[k := {| fence_sync := f; cleanup_sync := c |}]> (kernels d) ∧
     f ≠ c ∧ f ≠ NULL ∧ c ≠ NULL ∧
     (∀ T tl, timelines d' !! T = Some tl ->
        timeline_sync tl ≠ f ∧ timeline_sync tl ≠ c) ∧
     (∀ k0 kp, k0 ≠ k -> kernels d' !! k0 = Some kp ->
        fence_sync kp ≠ f ∧ cleanup_sync kp ≠ f ∧
        fence_sync kp ≠ c ∧ cleanup_sync kp ≠ c) ∧
     prims d' !! f = Some fs ∧ prims d' !! c = Some cs ∧
     client_sync fs = 0 ∧ next_value fs = 1 ∧
     client_sync cs = 0 ∧ next_value cs = 1 ∧
     class fs = strncpy32 (name fence) ∧ class cs = strncpy32 (name fence) ∧
     type fs = SYNC_PT_FOREIGN_FENCE_TYPE ∧
     type cs = SYNC_PT_FOREIGN_CLEANUP_TYPE ∧
     waiters d' = waiters d ++ [(k, fd)]) ∨
  (k = NULL ∧ waiters d' = waiters d ∧
   (∀ k0 kp, kernels d' !! k0 = Some kp -> kernels d !! k0 = Some kp) ∧
   timelines d' = timelines d ∧ sync_datas d' = sync_datas d ∧
   files d' = files d).
Proof. apply pvr_sync_create_waiter_for_foreign_sync_cases. Qed.

Lemma driver_inv_check_shadow : driver_inv check_shadow.
Proof.
  refine (proj1 (same_core_inv _ _ ev_other driver_inv_check_merged _ _)); [|done].
  unfold same_core. vm_compute. repeat split; auto. discriminate.
Qed.

Lemma pvr_sync_create_waiter_for_foreign_sync_shadow_demo :
  ∃ d', pvr_sync_create_waiter_for_foreign_sync 7 check_shadow = Ok 13%N d' ∧
        waiters d' = [(13%N, 7)] ∧
        kernels d' !! 13%N = Some {| fence_sync := 15; cleanup_sync := 16 |}.
Proof.
  assert (Hr : ∃ d', pvr_sync_create_waiter_for_foreign_sync 7 check_shadow =
                 Ok 13%N d')
    by (eexists; vm_compute; reflexivity).
  destruct Hr as [d' Hr]. exists d'. split; [exact Hr|].
  destruct (pvr_sync_create_waiter_for_foreign_sync_shadow 7 check_shadow
              13 d' driver_inv_check_shadow Hr)
    as [(_ & fence & f & c & fs & cs & _ & _ & _ & _ & _ & _ & _ & _ & _ & _
         & _ & _ & _ & _ & _ & _ & _ & Hw)|(Hk & _)]; [|discriminate Hk].
  split; [exact Hw|].
  vm_compute in Hr. injection Hr as <-. vm_compute. reflexivity.
Defined.

(** ** The debug request *)

Lemma pool_usage_no_overflow created reused :
  0 <= created -> 0 < reused -> (created + reused) * 100 < 2 ^ 32 ->
  ∃ usage, pool_usage created reused = Some usage ∧
           100 * reused / (created + reused) <= usage <= 100 ∧
           (usage = 100 <-> 100 * created < reused).
Proof.
  intros Hc Hr Hno. unfold pool_usage.
  assert (Hre : (reused =? 0) = false) by (apply Z.eqb_neq; lia).
  rewrite Hre. cbv zeta.
  rewrite (u32_id (created + reused)) by (unfold is_u32; lia).
  rewrite u32_id by (unfold is_u32; lia).
  set (q := (created + reused) * 100 / reused).
  assert (Hq : 100 <= q).
  { subst q. apply Z.div_le_lower_bound; [lia|nia]. }
  assert (Hq1 : q * reused <= (created + reused) * 100).
  { subst q. rewrite Z.mul_comm. apply Z.mul_div_le. lia. }
  assert (Hq2 : (created + reused) * 100 < (q + 1) * reused).
  { subst q. pose proof (Z.mul_succ_div_gt ((created + reused) * 100) reused).
    lia. }
  assert (Hqe : (q =? 0) = false) by (apply Z.eqb_neq; lia).
  rewrite Hqe. eexists. split; [reflexivity|].
  split; [split|].
  - apply Z.div_le_lower_bound; [lia|].
    (* q * (100 r / (c + r)) <= 10000 *)
    assert (H1 : (100 * reused / (created + reused)) * (created + reused)
                 <= 100 * reused).
    { rewrite Z.mul_comm. apply Z.mul_div_le. lia. }
    assert (H0 : 0 <= 100 * reused / (created + reused))
      by (apply Z.div_pos; lia).
    set (p := 100 * reused / (created + reused)) in *.
    (* q r <= 100 (c + r), p (c + r) <= 100 r  ==>  q p r (c+r) <= 10^4 r (c+r) *)
    assert (H2 : q * p * (reused * (created + reused))
                 <= 10000 * (reused * (created + reused))) by nia.
    apply Z.mul_le_mono_pos_r in H2; [lia|nia].
  - apply Z.div_le_upper_bound; [lia|]. lia.
  - split.
    + intros H100.
      assert (Hq100 : q <= 100).
      { destruct (Z_le_gt_dec q 100) as [|Hgt]; [assumption|exfalso].
        assert (10000 / q < 100); [|lia].
        apply Z.div_lt_upper_bound; [lia|]. lia. }
      nia.
    + intros Hlt.
      assert (Hq100 : q = 100) by nia.
      rewrite Hq100. reflexivity.
Qed.

Lemma pool_usage_bounds created reused :
  0 <= created -> 0 <= reused -> (created + reused) * 100 < 2 ^ 32 ->
  ∃ usage, pool_usage created reused = Some usage ∧
           100 * reused / (created + reused) <= usage <= 100 ∧
           (usage = 100 <-> 100 * created < reused).
Proof.
  intros Hc Hr Hno.
  destruct (decide (reused = 0)) as [->|Hne].
  - exists 0. split; [reflexivity|]. rewrite Z.mul_0_r, Zdiv_0_l. lia.
  - apply pool_usage_no_overflow; lia.
Qed.

Lemma pool_usage_divide_error created reused :
  0 < reused -> u32 (u32 (created + reused) * 100) < reused ->
  pool_usage created reused = None.
Proof.
  intros Hr Hlt. unfold pool_usage.
  assert (Hre : (reused =? 0) = false) by (apply Z.eqb_neq; lia).
  rewrite Hre. cbv zeta.
  rewrite Z.div_small; [reflexivity|].
  split; [|exact Hlt]. unfold u32. apply Z.mod_pos_bound. lia.
Qed.

Lemma debug_request_syncs_ok l : ∀ d,
  (∀ p, p ∈ l -> ∃ s, prims d !! p = Some s ∧ type s < 5) ->
  debug_request_syncs l d = Ok (omap (pending d) l) d.
Proof.
  induction l as [|p l IH]; intros d Hl; [reflexivity|].
  destruct (Hl p) as (s & Hs & Ht); [apply list_elem_of_here|].
  assert (Hl' : ∀ p, p ∈ l -> ∃ s, prims d !! p = Some s ∧ type s < 5)
    by (intros p' Hin; apply Hl, list_elem_of_further, Hin).
  cbn [debug_request_syncs omap list_omap]. unfold pending at 1. rewrite Hs.
  unfold bind at 1. rewrite (is_sync_met_eq _ _ _ Hs).
  destruct (client_sync s =? next_value s).
  - apply IH, Hl'.
  - unfold bind at 1. unfold load_prim, load. rewrite Hs.
    assert (Hty : (Z.of_nat (length type_names) <=? type s) = false)
      by (apply Z.leb_gt; cbn; lia).
    rewrite Hty. unfold get_sync_value, load_prim, load, bind, ret.
    rewrite Hs. rewrite (IH d Hl'). reflexivity.
Qed.

(** X16.  The dump of a debug request.  As long as [(sync_pool_created +
    sync_pool_reused) * 100] fits a [u32] and every prim of the active
    list has one of the five types, a request at high verbosity returns
    without changing the driver; it prints the pool usage, a number that
    is never below the percentage of acquisitions served by reuse and
    never above 100 (it is 100 exactly when reuses outnumber creations by
    more than 100 to 1), followed by one line for each prim of the active
    list that is not met, in the order of the list.  At another verbosity
    nothing is printed. *)
Theorem pvr_sync_debug_request_dump HIGH level d :
  0 <= sync_pool_created d -> 0 <= sync_pool_reused d ->
  (sync_pool_created d + sync_pool_reused d) * 100 < 2 ^ 32 ->
  (∀ p, p ∈ sync_pool_active_list d ->
     ∃ s, prims d !! p = Some s ∧ type s < 5) ->
  ∃ usage,
    pvr_sync_debug_request HIGH level d =
      Ok (if level =? HIGH
          then pool_usage_line usage (sync_pool_created d) (sync_pool_reused d)
                 :: omap (pending d) (sync_pool_active_list d)
          else []) d ∧
    100 * sync_pool_reused d / (sync_pool_created d + sync_pool_reused d)
      <= usage <= 100 ∧
    (usage = 100 <-> 100 * sync_pool_created d < sync_pool_reused d).
Proof.
  intros Hc Hr Hno Hl.
  destruct (pool_usage_bounds _ _ Hc Hr Hno) as (usage & Hu & Hb).
  exists usage. split; [|exact Hb].
  unfold pvr_sync_debug_request. destruct (level =? HIGH); [|reflexivity].
  unfold bind at 1. unfold get at 1. unfold bind at 1. unfold get at 1.
  rewrite Hu. unfold bind at 1. unfold get at 1.
  unfold bind. rewrite (debug_request_syncs_ok _ _ Hl). reflexivity.
Qed.

Lemma pvr_sync_debug_request_dump_demo :
  ∃ usage,
    pvr_sync_debug_request 2 2 demo_update =
      Ok [pool_usage_line usage 2 0;
          pending_sync_line 1 4096 0 1 "tl" "Timeline";
          pending_sync_line 2 8192 0 1 "tl" "Fence"] demo_update ∧
    usage = 0.
Proof.
  destruct (pvr_sync_debug_request_dump 2 2 demo_update)
    as (usage & Hr & Hb & _).
  - vm_compute. discriminate.
  - vm_compute. discriminate.
  - vm_compute. reflexivity.
  - intros p Hp. vm_compute in Hp.
    apply elem_of_cons in Hp. destruct Hp as [->|Hp];
      [eexists; split; [vm_compute; reflexivity|vm_compute; reflexivity]|].
    apply list_elem_of_singleton in Hp. subst p.
    eexists. split; vm_compute; reflexivity.
  - exists usage.
    assert (Hu : usage = 0).
    { vm_compute in Hr. injection Hr as Hr. symmetry. exact Hr. }
    split; [|exact Hu]. rewrite Hr. subst usage. vm_compute. reflexivity.
Defined.

(** X17.  The pool usage of a debug request divides by [(sync_pool_created +
    sync_pool_reused) * 100 / sync_pool_reused], computed in [u32]: once
    the product has wrapped to less than [sync_pool_reused] the divisor
    is 0 and a request at high verbosity stops on a divide error. *)
Theorem pvr_sync_debug_request_divide_error HIGH d :
  0 < sync_pool_reused d ->
  u32 (u32 (sync_pool_created d + sync_pool_reused d) * 100)
    < sync_pool_reused d ->
  pvr_sync_debug_request HIGH HIGH d = Oops.
Proof.
  intros Hr Hlt. unfold pvr_sync_debug_request. rewrite Z.eqb_refl.
  unfold bind at 1. unfold get at 1. unfold bind at 1. unfold get at 1.
  rewrite (pool_usage_divide_error _ _ Hr Hlt). reflexivity.
Qed.

Lemma wrap_cycles_reused n : ∀ sid reused,
  0 <= reused -> reused + Z.of_nat n < 2 ^ 32 ->
  ∃ rs sid',
    pool_run (concat (repeat wrap_cycle n)) (wrap_state sid reused) =
      Ok rs (wrap_state sid' (reused + Z.of_nat n)).
Proof.
  induction n as [|n IH]; intros sid reused H0 Hn.
  - exists [], sid. rewrite Z.add_0_r. reflexivity.
  - destruct (IH (s32 (sid + 1)) (u32 (reused + 1))) as (rs & sid' & Hrun).
    + unfold u32. apply Z.mod_pos_bound. lia.
    + rewrite u32_id by (unfold is_u32; lia). lia.
    + exists ([(PVRSRV_OK, 2%N)] ++ rs), sid'.
      change (repeat wrap_cycle (S n)) with (wrap_cycle :: repeat wrap_cycle n).
      change (concat (wrap_cycle :: repeat wrap_cycle n))
        with (wrap_cycle ++ concat (repeat wrap_cycle n)).
      rewrite (pool_run_app _ _ _ _ _ (wrap_cycle_step sid reused)).
      rewrite Hrun. rewrite u32_id by (unfold is_u32; lia).
      replace (reused + Z.of_nat (S n)) with (reused + 1 + Z.of_nat n) by lia.
      reflexivity.
Qed.

Lemma usage_cycles_eq : Z.of_nat usage_cycles = 42949671.
Proof. unfold usage_cycles. apply Z2Nat.id. discriminate. Qed.

Lemma pvr_sync_debug_request_divide_error_reached :
  ∃ rs d',
    pool_run (pool_get "a" 0 :: pool_get "b" 1 ::
              concat (repeat wrap_cycle usage_cycles))
      (pvr_sync_init wrap_script) = Ok rs d' ∧
    sync_pool_created d' = 2 ∧ sync_pool_reused d' = 42949671 ∧
    pvr_sync_debug_request 2 2 d' = Oops.
Proof.
  destruct (wrap_cycles_reused usage_cycles 2 0) as (rs & sid' & Hrun);
    [lia|rewrite usage_cycles_eq; reflexivity|].
  rewrite usage_cycles_eq in Hrun.
  exists ([(PVRSRV_OK, 1%N); (PVRSRV_OK, 2%N)] ++ rs),
    (wrap_state sid' (0 + 42949671)).
  split; [|split; [reflexivity|split; [reflexivity|]]].
  - change (pool_get "a" 0 :: pool_get "b" 1 ::
            concat (repeat wrap_cycle usage_cycles))
      with ([pool_get "a" 0; pool_get "b" 1] ++
            concat (repeat wrap_cycle usage_cycles)).
    rewrite (pool_run_app _ _ _ _ _ wrap_start). rewrite Hrun. reflexivity.
  - apply (pvr_sync_debug_request_divide_error 2
             (wrap_state sid' (0 + 42949671))); reflexivity.
Defined.
